(** * HTP: detection stabilizer, seat registry and table-format classifier

    A shallow embedding of the numeric core of the HTP engine:

    - [plugins/card_detector_plugin.py]: the [Seat] class, the detection
      buffer ([_consolidar_buffer]), the opponent grouping
      ([_agrupar_rivales]), the geometric classifier
      ([_inferir_formato_geometrico]), the seat registry
      ([_gestionar_asientos]) and the stage entry point ([process]);
    - [plugins/detectar_mesa.py]: [TableSizerPlugin.process];
    - [HTP.py]: the crop scaling and clamping of [main_loop], the rest of
      its capture step, its intervals and its error log;
    - [plugins/track_window.py]: [WindowTracker.get_crop_coords];
    - [plugins/main_player_decisions.py]: [_inferir_posicion_hero].

    Python [float] is IEEE binary64, embedded as Rocq's primitive [float]
    (same format, same rounding); Python [int] is [Z]; [str] is [string];
    lists are lists.  [time.time()] is an input of the functions that read
    the clock. *)

From Stdlib Require Import ZArith List String Bool Lia Floats.
From Stdlib Require Import Sorting.Sorted.
Import ListNotations.

Set Warnings "-inexact-float".

Local Open Scope Z_scope.

(* ================================================================== *)
(** * Binary64 numbers as the Python code uses them *)
(* ================================================================== *)

Module PyFloat.

Local Open Scope float_scope.

(** [float(n)] for a Python int (exact below 2^53, nearest-even above;
    the embedding covers |n| < 2^63, far beyond any pixel count, and
    wraps from there on, where Python still converts and, from 2^1024
    on, raises [OverflowError]). *)
Definition of_Z (z : Z) : float :=
  if (z <? 0)%Z then - (of_uint63 (Uint63.of_Z (- z)))
  else of_uint63 (Uint63.of_Z z).

(** [float('inf')]. *)
Definition inf : float := infinity.

(** [abs(x)] on a float. *)
Definition fabs (x : float) : float := abs x.

(** [math.hypot(x, y)], as the rounded square root of the rounded sum of
    squares (CPython's own routine is more careful and may differ
    from it in the last bit; both give 0 on (0, 0)).  A distance within
    one bit of a threshold can so fall on the other side of it; the
    general statements below hold for whatever value the distance
    has. *)
Definition hypot (x y : float) : float := PrimFloat.sqrt (x * x + y * y).

(** [min(xs)] on a list of floats: Python keeps the first element and
    replaces it by a later one only when that one is strictly smaller.
    The second component is the value on an empty list (where Python
    raises [ValueError]); every caller passes a non-empty list. *)
Definition py_min (xs : list float) (dflt : float) : float :=
  match xs with
  | [] => dflt
  | x :: rest => fold_left (fun m y => if y <? m then y else m) rest x
  end.

(** [sum(xs)] with Python's start value, the integer 0, as plain
    left-to-right additions (CPython 3.12 and later compensate the
    rounding error of the additions; no statement below depends on the
    rounding of a sum). *)
Definition py_sum (xs : list float) : float :=
  fold_left (fun acc x => acc + x) xs (of_Z 0).

(** [x] is a number (not NaN): it compares equal to itself. *)
Definition is_num (x : float) : bool := (x =? x).

(** ** The order on binary64, through the specification floats

    A key in Z^3, ordered lexicographically, gives the comparison of two
    numbers that are not NaN. *)

Definition SFkey (f : spec_float) : Z * Z * Z :=
  match f with
  | S754_nan => (0, 0, 0)%Z
  | S754_zero _ => (0, 0, 0)%Z
  | S754_infinity true => (-2, 0, 0)%Z
  | S754_infinity false => (2, 0, 0)%Z
  | S754_finite true m e => (-1, - e, - Zpos m)%Z
  | S754_finite false m e => (1, e, Zpos m)%Z
  end.

Definition lexcmp (a b : Z * Z * Z) : comparison :=
  let '(a1, a2, a3) := a in
  let '(b1, b2, b3) := b in
  match (a1 ?= b1)%Z with
  | Eq => match (a2 ?= b2)%Z with
          | Eq => (a3 ?= b3)%Z
          | c => c
          end
  | c => c
  end.

Definition lexlt (a b : Z * Z * Z) : Prop :=
  let '(a1, a2, a3) := a in
  let '(b1, b2, b3) := b in
  (a1 < b1 \/ (a1 = b1 /\ (a2 < b2 \/ (a2 = b2 /\ a3 < b3))))%Z.

Definition SFnum (f : spec_float) : Prop := f <> S754_nan.

Definition fkey (x : float) : Z * Z * Z := SFkey (Prim2SF x).

End PyFloat.

(* ================================================================== *)
(** * plugins/card_detector_plugin.py: constants *)
(* ================================================================== *)

Local Open Scope string_scope.
Local Open Scope list_scope.

(** A point [(x, y)] and a consolidated detection [(cx, cy, label)]. *)
Definition Point : Type := (float * float)%type.
Definition Item : Type := (float * float * string)%type.

Definition item_x (it : Item) : float := fst (fst it).
Definition item_y (it : Item) : float := snd (fst it).
Definition item_label (it : Item) : string := snd it.

Definition BUFFER_SIZE : nat := 6.
Definition CONFIRMATION_THRESHOLD : Z := 2.
Definition MIN_CONFIDENCE_NORMAL : float := 0.40%float.
Definition MIN_CONFIDENCE_BACK : float := 0.25%float.
Definition MIN_SEAT_DISTANCE : float := 0.12%float.
Definition SEAT_CONFIRMED_TIMEOUT : float := 300.0%float.
Definition SEAT_CANDIDATE_TIMEOUT : float := 2.0%float.
Definition SEAT_CREATION_FRAMES : Z := 8.

(** The face-down label and the classifier's unresolved value. *)
Definition card_back : string := "card_back".
Definition DETECTANDO : string := "Detectando...".

(** [GG_LAYOUTS], in the dictionary's insertion order (the order in which
    [.items()] yields it). *)
Definition GG_LAYOUTS : list (string * list Point) :=
  [ ("3-Max", [(0.50, 0.68); (0.20, 0.35); (0.80, 0.35)]);
    ("4-Max", [(0.50, 0.68); (0.15, 0.45); (0.50, 0.25); (0.85, 0.45)]);
    ("5-Max", [(0.50, 0.68); (0.18, 0.55); (0.18, 0.28); (0.82, 0.28);
               (0.82, 0.55)]);
    ("6-Max", [(0.50, 0.68); (0.28, 0.65); (0.12, 0.45); (0.35, 0.25);
               (0.65, 0.25); (0.88, 0.45); (0.72, 0.65)]);
    ("8-Max", [(0.50, 0.68); (0.30, 0.66); (0.15, 0.50); (0.15, 0.30);
               (0.40, 0.22); (0.60, 0.22); (0.85, 0.30); (0.85, 0.50);
               (0.70, 0.66)]);
    ("9-Max", [(0.50, 0.68); (0.32, 0.66); (0.16, 0.52); (0.14, 0.32);
               (0.30, 0.22); (0.70, 0.22); (0.86, 0.32); (0.84, 0.52);
               (0.68, 0.66)]) ]%float.

(* ================================================================== *)
(** * class Seat *)
(* ================================================================== *)

Record Seat : Type := mkSeat {
  center_x : float;
  center_y : float;
  last_seen_time : float;
  detection_count : Z;
  is_confirmed : bool
}.

(** [Seat.__init__(x, y)]; [t] is the value [time.time()] returns there. *)
Definition Seat_init (x y t : float) : Seat :=
  mkSeat x y t 1 false.

(** [Seat.update(x, y)]; [t] is the value [time.time()] returns there. *)
Definition Seat_update (s : Seat) (x y t : float) : Seat :=
  let cx := (center_x s * 0.9 + x * 0.1)%float in
  let cy := (center_y s * 0.9 + y * 0.1)%float in
  let n := detection_count s + 1 in
  mkSeat cx cy t n
    (if (SEAT_CREATION_FRAMES <=? n)%Z then true else is_confirmed s).

(** One match, as the registry delivers it: position and clock value. *)
Definition Match : Type := (float * float * float)%type.

Definition Seat_apply (s : Seat) (m : Match) : Seat :=
  Seat_update s (fst (fst m)) (snd (fst m)) (snd m).

(** The seat after a run of matches. *)
Definition Seat_updates (s : Seat) (ms : list Match) : Seat :=
  fold_left Seat_apply ms s.

(* ================================================================== *)
(** * _inferir_formato_geometrico *)
(* ================================================================== *)

Module Classifier.

Import PyFloat.
Local Open Scope float_scope.

Definition HERO : Point := (0.50, 0.68).

(** The test of the hero loop: a point within 0.1 of the hero position on
    both axes. *)
Definition near_hero (p : Point) : bool :=
  (fabs (fst p - 0.5) <? 0.1) && (fabs (snd p - 0.68) <? 0.1).

(** [puntos_test]: the input, with the hero position appended when no
    point is near it. *)
Definition puntos_test (puntos : list Point) : list Point :=
  if existsb near_hero puntos then puntos else puntos ++ [HERO].

(** [min([math.hypot(px-lx, py-ly) for lx, ly in layout])]. *)
Definition min_d (layout : list Point) (p : Point) : float :=
  py_min (map (fun l => hypot (fst p - fst l) (snd p - snd l)) layout) inf.

(** The body of the loop over [puntos_test]: [(error_layout, matches)]. *)
Definition fit_step (layout : list Point) (acc : float * Z) (p : Point)
  : float * Z :=
  let d := min_d layout p in
  if d <? 0.15 then (fst acc + d, (snd acc + 1)%Z) else acc.

Definition fit (layout pts : list Point) : float * Z :=
  fold_left (fit_step layout) pts (0.0, 0%Z).

Definition matches (layout pts : list Point) : Z := snd (fit layout pts).

(** The score of a layout with [matches > 0]. *)
Definition score (layout pts : list Point) : float :=
  let '(error_layout, m) := fit layout pts in
  let avg_error := error_layout / of_Z m in
  let unexplained_points_penalty :=
    of_Z (Z.of_nat (List.length pts) - m) * 5.0 in
  let empty_seats_penalty :=
    of_Z (Z.of_nat (List.length layout) - m) * 0.1 in
  avg_error + unexplained_points_penalty + empty_seats_penalty.

(** The body of the loop over [GG_LAYOUTS.items()]:
    [(mejor_fit, menor_score)]. *)
Definition scan_step (pts : list Point) (acc : string * float)
  (entry : string * list Point) : string * float :=
  let '(nombre, layout) := entry in
  if (0 <? matches layout pts)%Z then
    let s := score layout pts in
    if s <? snd acc then (nombre, s) else acc
  else acc.

Definition scan (table : list (string * list Point)) (pts : list Point)
  (acc : string * float) : string * float :=
  fold_left (scan_step pts) table acc.

(** [(mejor_fit, menor_score)] after the loop, on a non-empty input. *)
Definition mejor (puntos : list Point) : string * float :=
  scan GG_LAYOUTS (puntos_test puntos) ("Custom", inf).

Definition inferir_formato_geometrico (puntos_confirmados : list Point)
  : string :=
  match puntos_confirmados with
  | [] => DETECTANDO
  | _ =>
      let '(mejor_fit, menor_score) := mejor puntos_confirmados in
      if 3.0 <? menor_score then DETECTANDO else mejor_fit
  end.

End Classifier.

(* ================================================================== *)
(** * Python helpers on lists *)
(* ================================================================== *)

Module PyList.

Import PyFloat.
Local Open Scope float_scope.

(** [l[i] = x] for an index in range (out of range Python raises
    [IndexError]; no caller does that, and the list is then unchanged). *)
Fixpoint set_nth {A : Type} (i : nat) (x : A) (l : list A) : list A :=
  match l, i with
  | [], _ => []
  | _ :: t, O => x :: t
  | h :: t, S i' => h :: set_nth i' x t
  end.

(** [list.sort(key=...)] and [sorted(..., key=...)]: a stable sort that
    compares keys with [<] only.  An element goes in front of the first
    one of the sorted rest whose key is not below its own.  On keys that
    are numbers this is the order CPython returns; with a NaN among the
    keys its merge order can differ, and the statements below that
    speak of the order assume keys that are numbers. *)
Fixpoint insert_by {A : Type} (key : A -> float) (a : A) (l : list A)
  : list A :=
  match l with
  | [] => [a]
  | b :: l' => if key b <? key a then b :: insert_by key a l'
               else a :: b :: l'
  end.

Fixpoint sort_by {A : Type} (key : A -> float) (l : list A) : list A :=
  match l with
  | [] => []
  | a :: l' => insert_by key a (sort_by key l')
  end.

(** [deque(maxlen=n).append(x)]. *)
Definition deque_append {A : Type} (n : nat) (d : list A) (x : A) : list A :=
  let d' := d ++ [x] in skipn (List.length d' - n) d'.

(** [Counter(l)], as the pairs [(value, count)] in first-occurrence order. *)
Fixpoint counter_add {A : Type} (eqb : A -> A -> bool) (x : A)
  (c : list (A * Z)) : list (A * Z) :=
  match c with
  | [] => [(x, 1%Z)]
  | (y, n) :: c' => if eqb x y then (y, (n + 1)%Z) :: c'
                    else (y, n) :: counter_add eqb x c'
  end.

Definition Counter {A : Type} (eqb : A -> A -> bool) (l : list A)
  : list (A * Z) :=
  fold_left (fun c x => counter_add eqb x c) l [].

(** [Counter(l).most_common(1)[0][0]]: the first value, in first-occurrence
    order, whose count is the largest; [dflt] on an empty list (where
    Python raises [IndexError]). *)
Definition most_common {A : Type} (eqb : A -> A -> bool) (l : list A)
  (dflt : A) : A :=
  match Counter eqb l with
  | [] => dflt
  | e :: rest =>
      fst (fold_left (fun m e' => if (snd m <? snd e')%Z then e' else m)
             rest e)
  end.

End PyList.

(* ================================================================== *)
(** * class CardDetectorPlugin *)
(* ================================================================== *)

Module CardDetector.

Import PyFloat PyList.
Local Open Scope float_scope.

(** ** Data *)

(** The region a detection is assigned to ([ctype]). *)
Inductive Region : Type := hero | board | opponent.

Definition Region_eqb (a b : Region) : bool :=
  match a, b with
  | hero, hero | board, board | opponent, opponent => true
  | _, _ => false
  end.

(** An entry of the detection buffer: [(cx, cy, label, ctype)]. *)
Definition FrameItem : Type := (Item * Region)%type.

(** One record of [state["detections"]].  [None] stands for a missing key,
    and for [label] and [box] also for a value of the wrong type. *)
Record Detection : Type := mkDetection {
  det_conf : option float;
  det_confidence : option float;
  det_label : option string;
  det_box : option (list float)
}.

(** A cluster of [_consolidar_buffer]. *)
Record Cluster : Type := mkCluster {
  labels : list string;
  sum_x : float;
  sum_y : float;
  count : Z
}.

(** [community_cards_row] of the active layout. *)
Record BoardRow : Type := mkBoardRow {
  y_center : float;
  height : float;
  first_x : float;
  last_x : float
}.

(** The plugin object. *)
Record Plugin : Type := mkPlugin {
  board_y_min : float;
  board_y_max : float;
  hero_y_min : float;
  hero_region : option (float * float * float * float);
  board_row : option BoardRow;
  detection_history : list (list FrameItem);
  seats : list Seat;
  last_hero_seen_time : float;
  detected_table_format : string
}.

(** [CardDetectorPlugin.__init__]. *)
Definition Plugin_init : Plugin :=
  mkPlugin 0.30 0.60 0.65 None None [] [] 0.0 DETECTANDO.

(** ** Region assignment *)

Definition CARD_LABELS : list string :=
  [ "2c"; "2d"; "2h"; "2s"; "3c"; "3d"; "3h"; "3s";
    "4c"; "4d"; "4h"; "4s"; "5c"; "5d"; "5h"; "5s";
    "6c"; "6d"; "6h"; "6s"; "7c"; "7d"; "7h"; "7s";
    "8c"; "8d"; "8h"; "8s"; "9c"; "9d"; "9h"; "9s";
    "Tc"; "Td"; "Th"; "Ts"; "Jc"; "Jd"; "Jh"; "Js";
    "Qc"; "Qd"; "Qh"; "Qs"; "Kc"; "Kd"; "Kh"; "Ks";
    "Ac"; "Ad"; "Ah"; "As"; "card_back" ]%string.

Definition es_label_carta (label : string) : bool :=
  existsb (String.eqb label) CARD_LABELS || String.eqb label card_back.

Definition clasificar_por_layout (self : Plugin) (cx cy : float)
  (ancho alto : Z) : option Region :=
  if ((ancho <=? 0) || (alto <=? 0))%Z then None
  else
    let x_norm := cx / of_Z ancho in
    let y_norm := cy / of_Z alto in
    let in_hero :=
      match hero_region self with
      | Some (hx1, hy1, hx2, hy2) =>
          (hx1 <=? x_norm) && (x_norm <=? hx2) &&
          (hy1 <=? y_norm) && (y_norm <=? hy2)
      | None => false
      end in
    if in_hero then Some hero
    else
      match board_row self with
      | Some br =>
          let by1 := y_center br - height br / 1.4 in
          let by2 := y_center br + height br / 1.4 in
          if (first_x br <=? x_norm) && (x_norm <=? last_x br) &&
             (by1 <=? y_norm) && (y_norm <=? by2)
          then Some board else None
      | None => None
      end.

Definition clasificar_por_fallback (self : Plugin) (cy : float) (alto : Z)
  : option Region :=
  if (alto <=? 0)%Z then None
  else
    let y_norm := cy / of_Z alto in
    if hero_y_min self <=? y_norm then Some hero
    else if (board_y_min self <=? y_norm) && (y_norm <=? board_y_max self)
         then Some board
         else None.

(** The body of the loop over [detections] in [process]: the entry the
    detection adds to [frame_items], if any. *)
Definition recolectar (self : Plugin) (ancho alto : Z) (det : Detection)
  : option FrameItem :=
  let conf :=
    match det_conf det with
    | Some c => c
    | None => match det_confidence det with Some c => c | None => 0.0 end
    end in
  let min_conf :=
    match det_label det with
    | Some l => if String.eqb l card_back then MIN_CONFIDENCE_BACK
                else MIN_CONFIDENCE_NORMAL
    | None => MIN_CONFIDENCE_NORMAL
    end in
  if conf <? min_conf then None
  else
    match det_label det, det_box det with
    | Some label, Some [x1; y1; x2; y2] =>
        if es_label_carta label then
          let cx := (x1 + x2) / 2.0 in
          let cy := (y1 + y2) / 2.0 in
          let ctype :=
            match clasificar_por_layout self cx cy ancho alto with
            | Some r => r
            | None =>
                match clasificar_por_fallback self cy alto with
                | Some r => r
                | None => opponent
                end
            end in
          Some ((cx, cy, label), ctype)
        else None
    | _, _ => None
    end.

Definition frame_items (self : Plugin) (ancho alto : Z)
  (detections : list Detection) : list FrameItem :=
  flat_map (fun det => match recolectar self ancho alto det with
                       | Some it => [it]
                       | None => []
                       end) detections.

(** ** _consolidar_buffer *)

Definition grid_size : float := 30.

(** [candidates[ctype]]: the buffer's entries of one region, oldest frame
    first. *)
Definition candidates (history : list (list FrameItem)) (r : Region)
  : list Item :=
  map fst (filter (fun fi => Region_eqb (snd fi) r) (List.concat history)).

Definition centro (cl : Cluster) : Point :=
  (sum_x cl / of_Z (count cl), sum_y cl / of_Z (count cl)).

(** The test of the loop over [clusters]. *)
Definition cerca (cl : Cluster) (it : Item) : bool :=
  (fabs (item_x it - fst (centro cl)) <? grid_size) &&
  (fabs (item_y it - snd (centro cl)) <? grid_size).

Definition unir (cl : Cluster) (it : Item) : Cluster :=
  mkCluster (labels cl ++ [item_label it])
    (sum_x cl + item_x it) (sum_y cl + item_y it) (count cl + 1)%Z.

Definition nuevo (it : Item) : Cluster :=
  mkCluster [item_label it] (item_x it) (item_y it) 1%Z.

(** One detection against the clusters built so far: the loop over
    [clusters] with its [break], and the [if not found] after it. *)
Fixpoint asignar (clusters : list Cluster) (it : Item) : list Cluster :=
  match clusters with
  | [] => [nuevo it]
  | cl :: rest => if cerca cl it then unir cl it :: rest
                  else cl :: asignar rest it
  end.

Definition agrupar (items : list Item) : list Cluster :=
  fold_left asignar items [].

Definition resolver (cl : Cluster) : Item :=
  (fst (centro cl), snd (centro cl),
   most_common String.eqb (labels cl) ""%string).

Definition consolidar_region (history : list (list FrameItem)) (r : Region)
  : list Item :=
  map resolver
    (filter (fun cl => (CONFIRMATION_THRESHOLD <=? count cl)%Z)
       (agrupar (candidates history r))).

(** [(hero_raw, board_raw, opp_raw)]. *)
Definition consolidar_buffer (history : list (list FrameItem))
  : list Item * list Item * list Item :=
  (consolidar_region history hero, consolidar_region history board,
   consolidar_region history opponent).

(** ** _agrupar_rivales *)

Definition item0 : Item := (0.0, 0.0, ""%string).

(** The loop over [j] for the card at index [i]: the index of the nearest
    unused later card closer than [dist_thresh], if any. *)
Definition mejor_pareja (items : list Item) (used : list bool)
  (dist_thresh : float) (i : nat) : option nat :=
  let c1 := nth i items item0 in
  fst (fold_left
         (fun (acc : option nat * float) j =>
            if nth j used false then acc
            else
              let c2 := nth j items item0 in
              let d := hypot (item_x c1 - item_x c2) (item_y c1 - item_y c2) in
              if (d <? dist_thresh) && (d <? snd acc) then (Some j, d)
              else acc)
         (seq (S i) (List.length items - S i)) (None, inf)).

(** [cartas] of a group: labels by ascending x, a single one doubled. *)
Definition cartas_de (grupo : list Item) : list string :=
  let cartas := map item_label (sort_by item_x grupo) in
  match cartas with
  | [c] => [c; c]
  | _ => cartas
  end.

(** The body of the loop over [i]: [(used, grupos)]. *)
Definition agrupar_step (items : list Item) (dist_thresh : float)
  (acc : list bool * list (list string)) (i : nat)
  : list bool * list (list string) :=
  let '(used, grupos) := acc in
  if nth i used false then acc
  else
    let c1 := nth i items item0 in
    let used1 := set_nth i true used in
    match mejor_pareja items used1 dist_thresh i with
    | Some j =>
        (set_nth j true used1,
         grupos ++ [cartas_de [c1; nth j items item0]])
    | None => (used1, grupos ++ [cartas_de [c1]])
    end.

(** [items] is the list after its in-place sort. *)
Definition agrupar_ordenados (items : list Item) (ancho : Z)
  : list (list string) :=
  let dist_thresh := of_Z ancho * 0.18 in
  snd (fold_left (agrupar_step items dist_thresh)
         (seq 0 (List.length items))
         (repeat false (List.length items), [])).

(** [_agrupar_rivales(items, ancho)]: the groups, and [items] as the call
    leaves it (sorted in place, unless empty). *)
Definition agrupar_rivales (items : list Item) (ancho : Z)
  : list (list string) * list Item :=
  match items with
  | [] => ([], [])
  | _ => let sorted := sort_by item_x items in
         (agrupar_ordenados sorted ancho, sorted)
  end.

(** ** _gestionar_asientos *)

(** Step 1: the spatial clusters of the current detections. *)
Definition promedio (grupo : list Item) : Point :=
  (py_sum (map item_x grupo) / of_Z (Z.of_nat (List.length grupo)),
   py_sum (map item_y grupo) / of_Z (Z.of_nat (List.length grupo))).

Fixpoint clusters_loop (umbral : float) (items cluster_group : list Item)
  (current_clusters : list Point) : list Point :=
  match items with
  | [] =>
      match cluster_group with
      | [] => current_clusters
      | _ => current_clusters ++ [promedio cluster_group]
      end
  | item :: rest =>
      let prev := last cluster_group item in
      if fabs (item_x item - item_x prev) <? umbral
      then clusters_loop umbral rest (cluster_group ++ [item])
             current_clusters
      else clusters_loop umbral rest [item]
             (current_clusters ++ [promedio cluster_group])
  end.

Definition clusters_actuales (opp_raw : list Item) (ancho_img : Z)
  : list Point :=
  match sort_by item_x opp_raw with
  | [] => []
  | first :: rest =>
      clusters_loop (of_Z ancho_img * MIN_SEAT_DISTANCE) rest [first] []
  end.

(** Step 2, the tolerance test of the loop over [self.seats]. *)
Definition en_tolerancia (ancho_img : Z) (seat : Seat) (c : Point) : bool :=
  let norm_thresh_x := of_Z ancho_img * 0.15 in
  let dx := fabs (center_x seat - fst c) in
  let dy := fabs (center_y seat - snd c) in
  (dx <? norm_thresh_x) && (dy <? of_Z ancho_img * 0.2).

(** Step 2, the loop over [self.seats] for one cluster:
    [(matched_seat, min_dist)] and the index of the next seat. *)
Definition buscar_step (ancho_img : Z) (c : Point)
  (acc : option nat * float * nat) (seat : Seat)
  : option nat * float * nat :=
  let '(matched, min_dist, i) := acc in
  let dx := fabs (center_x seat - fst c) in
  if en_tolerancia ancho_img seat c && (dx <? min_dist)
  then (Some i, dx, S i)
  else (matched, min_dist, S i).

(** The index of [matched_seat], if any. *)
Definition buscar_asiento (seats : list Seat) (ancho_img : Z) (c : Point)
  : option nat :=
  fst (fst (fold_left (buscar_step ancho_img c) seats (None, inf, 0%nat))).

(** Step 2, the body of the loop over [current_clusters]; [t] is the clock
    value [Seat.update] or [Seat.__init__] reads for this cluster. *)
Definition asignar_cluster (seats : list Seat) (ancho_img : Z) (c : Point)
  (t : float) : list Seat :=
  match buscar_asiento seats ancho_img c with
  | Some i =>
      match nth_error seats i with
      | Some s => set_nth i (Seat_update s (fst c) (snd c) t) seats
      | None => seats
      end
  | None => seats ++ [Seat_init (fst c) (snd c) t]
  end.

(** Step 2 over all clusters; the [k]-th cluster reads the clock value
    [reloj k]. *)
Fixpoint asignar_clusters (seats : list Seat) (ancho_img : Z)
  (cs : list Point) (reloj : nat -> float) (k : nat) : list Seat :=
  match cs with
  | [] => seats
  | c :: rest =>
      asignar_clusters (asignar_cluster seats ancho_img c (reloj k))
        ancho_img rest reloj (S k)
  end.

(** Step 3: the test that keeps a seat at time [now]. *)
Definition vigente (now : float) (s : Seat) : bool :=
  let age := now - last_seen_time s in
  if is_confirmed s then age <? SEAT_CONFIRMED_TIMEOUT
  else age <? SEAT_CANDIDATE_TIMEOUT.

Definition punto_geom (ancho_img alto_img : Z) (s : Seat) : Point :=
  (center_x s / of_Z ancho_img, center_y s / of_Z alto_img).

(** [puntos_geom]: the normalized positions of the confirmed seats kept. *)
Definition puntos_geom (ancho_img alto_img : Z) (kept : list Seat)
  : list Point :=
  map (punto_geom ancho_img alto_img) (filter is_confirmed kept).

(** [_gestionar_asientos(opp_raw, ancho_img, alto_img)]: the plugin after
    the call and the returned count.  [now] is the clock value read before
    the matching, [reloj k] the one read for the [k]-th cluster. *)
Definition gestionar_asientos (self : Plugin) (opp_raw : list Item)
  (ancho_img alto_img : Z) (now : float) (reloj : nat -> float)
  : Plugin * Z :=
  if ((ancho_img <=? 0) || (alto_img <=? 0))%Z then (self, 0%Z)
  else
    let current_clusters := clusters_actuales opp_raw ancho_img in
    let matched :=
      asignar_clusters (seats self) ancho_img current_clusters reloj 0 in
    let active_seats_list := filter (vigente now) matched in
    let fmt :=
      Classifier.inferir_formato_geometrico
        (puntos_geom ancho_img alto_img active_seats_list) in
    (mkPlugin (board_y_min self) (board_y_max self) (hero_y_min self)
       (hero_region self) (board_row self) (detection_history self)
       active_seats_list (last_hero_seen_time self) fmt,
     Z.of_nat (List.length (filter is_confirmed active_seats_list))).

(** ** The shared state *)

(** [state["game_state"]]; [None] is an absent key. *)
Record GameState : Type := mkGameState {
  gs_my_cards : option (list string);
  gs_board : option (list string);
  gs_opponents_cards : option (list (list string));
  gs_street : option string;
  gs_players_in_hand : option Z;
  gs_active_players : option Z;
  gs_table_format : option string;
  gs_raw_stacks_count : option Z;
  gs_raw_levels : option Z
}.

Definition GameState_empty : GameState :=
  mkGameState None None None None None None None None None.

(** The keys of [state] the two stages read or write.  [st_frame] is
    [frame.shape[:2]], that is [(alto, ancho)], or [None] without a frame. *)
Record State : Type := mkState {
  st_frame : option (Z * Z);
  st_detections : list Detection;
  st_game_state : GameState;
  st_hero_active : bool;
  st_confirmed_seats : option Z;
  st_total_seats_tracked : option Z;
  st_table_fmt_geo : option string;
  st_table_sizer_seats : option Z;
  st_table_sizer_levels : option Z
}.

(** The clock values one call of [process] reads: for the sticky-hero
    test, for [now] in the registry, and for each matched cluster. *)
Record Clock : Type := mkClock {
  t_hero : float;
  t_now : float;
  t_cluster : nat -> float
}.

(** ** process *)

(** Step 4 for hero and board: sort by x, drop the face-down label, keep
    at most [n]. *)
Definition validos (n : nat) (raw : list Item) : list Item :=
  let sorted := sort_by item_x raw in
  let valid :=
    filter (fun x => negb (String.eqb (item_label x) card_back)) sorted in
  if (n <? List.length valid)%nat then firstn n valid else valid.

Definition calle (gs : GameState) (nb : nat) : string :=
  match nb with
  | 0%nat => "PREFLOP"
  | 3%nat => "FLOP"
  | 4%nat => "TURN"
  | 5%nat => "RIVER"
  | _ => match gs_street gs with Some s => s | None => "PREFLOP" end
  end%string.

(** What one call computes before it writes the state. *)
Record Paso : Type := mkPaso {
  hero_valid : list Item;
  board_valid : list Item;
  opponents_grouped : list (list string);
  self_out : Plugin;
  confirmed_opponents_seats : Z
}.

(** The buffer after this frame's entries are appended. *)
Definition historial (self : Plugin) (alto_img ancho_img : Z)
  (detections : list Detection) : list (list FrameItem) :=
  deque_append BUFFER_SIZE (detection_history self)
    (frame_items self ancho_img alto_img detections).

Definition paso (self : Plugin) (alto_img ancho_img : Z)
  (detections : list Detection) (clk : Clock) : Paso :=
  let history := historial self alto_img ancho_img detections in
  let raw := consolidar_buffer history in
  let hero_raw := fst (fst raw) in
  let board_raw := snd (fst raw) in
  let opp_raw := snd raw in
  let hv := validos 2 hero_raw in
  let bv := validos 5 board_raw in
  let grouped := agrupar_rivales opp_raw ancho_img in
  let self1 :=
    mkPlugin (board_y_min self) (board_y_max self) (hero_y_min self)
      (hero_region self) (board_row self) history (seats self)
      (if (2 <=? List.length hv)%nat then t_hero clk
       else last_hero_seen_time self)
      (detected_table_format self) in
  let reg :=
    gestionar_asientos self1 (snd grouped) ancho_img alto_img
      (t_now clk) (t_cluster clk) in
  mkPaso hv bv (fst grouped) (fst reg) (snd reg).

Definition process (self : Plugin) (state : State) (clk : Clock)
  : Plugin * State :=
  match st_frame state with
  | None => (self, state)
  | Some (alto_img, ancho_img) =>
      let r := paso self alto_img ancho_img (st_detections state) clk in
      let gs := st_game_state state in
      let my_cards_str := map item_label (hero_valid r) in
      let board_str := map item_label (board_valid r) in
      let hero_active :=
        if (2 <=? List.length my_cards_str)%nat then true
        else if t_hero clk - last_hero_seen_time self <? 3.0 then true
        else st_hero_active state in
      let nb := List.length board_str in
      let hay_hero := (0 <? List.length my_cards_str)%nat in
      let pih0 :=
        (Z.of_nat (List.length (opponents_grouped r)) +
         (if hay_hero then 1 else 0))%Z in
      let players_in_hand :=
        if ((pih0 <? 2)%Z && (0 <? nb)%nat) then 2%Z else pih0 in
      let seats_active :=
        (confirmed_opponents_seats r + (if hay_hero then 1 else 0))%Z in
      let stack_count :=
        match gs_active_players gs with Some n => n | None => 0%Z end in
      let final0 := Z.max stack_count seats_active in
      let final1 :=
        if (final0 <? players_in_hand)%Z then players_in_hand else final0 in
      let final_active := if (final1 <? 2)%Z then 2%Z else final1 in
      let fmt := detected_table_format (self_out r) in
      let gs' :=
        mkGameState (Some my_cards_str) (Some board_str)
          (Some (opponents_grouped r)) (Some (calle gs nb))
          (Some players_in_hand) (Some final_active)
          (if String.eqb fmt DETECTANDO then gs_table_format gs
           else Some fmt)
          (gs_raw_stacks_count gs) (gs_raw_levels gs) in
      (self_out r,
       mkState (st_frame state) (st_detections state) gs' hero_active
         (Some (confirmed_opponents_seats r))
         (Some (Z.of_nat (List.length (seats (self_out r)))))
         (Some fmt)
         (st_table_sizer_seats state) (st_table_sizer_levels state))
  end.

End CardDetector.

(* ================================================================== *)
(** * plugins/detectar_mesa.py: class TableSizerPlugin *)
(* ================================================================== *)

Module TableSizer.

Import PyFloat PyList CardDetector.
Local Open Scope float_scope.

Record Plugin : Type := mkPlugin {
  history_count : list Z;
  history_levels : list Z
}.

Definition Plugin_init : Plugin := mkPlugin [] [].

Definition TARGET_LABELS : list string :=
  ["stack_text"; "all_in_symbol"]%string.

(** [_contar_niveles_verticales(puntos_y, alto_imagen)]:
    [(niveles, ultimo_y)] through the loop over the sorted heights. *)
Definition nivel_step (acc : Z * float) (y : float) : Z * float :=
  let '(niveles, ultimo_y) := acc in
  if ultimo_y =? -1.0 then (1%Z, y)
  else if 0.05 <? fabs (y - ultimo_y) then ((niveles + 1)%Z, y)
  else acc.

Definition contar_niveles_verticales (puntos_y : list float) : Z :=
  match puntos_y with
  | [] => 0%Z
  | _ => fst (fold_left nivel_step (sort_by (fun y => y) puntos_y)
                (0%Z, -1.0))
  end.

(** Outcome of a call that may raise: the orchestrator catches the
    exception and the stage's writes, all at its end, do not happen. *)
Inductive Outcome (A : Type) : Type :=
| Returns (a : A)
| Raises.

Arguments Returns {A} a.
Arguments Raises {A}.

(** The body of the loop over [detections]:
    [(stacks_centers, stacks_y)], or [None] where the body raises
    ([box] too short, or a division by a zero width or height). *)
Definition extraer_step (w h : Z)
  (acc : option (list Point * list float)) (det : Detection)
  : option (list Point * list float) :=
  match acc with
  | None => None
  | Some (stacks_centers, stacks_y) =>
      let conf := match det_conf det with Some c => c | None => 0.0 end in
      if conf <? 0.30 then acc
      else
        match det_label det with
        | Some label =>
            if existsb (String.eqb label) TARGET_LABELS then
              match det_box det with
              | None | Some [] => acc
              | Some (b0 :: b1 :: b2 :: b3 :: _) =>
                  if ((w =? 0) || (h =? 0))%Z then None
                  else
                    let cx := (b0 + b2) / 2 / of_Z w in
                    let cy := (b1 + b3) / 2 / of_Z h in
                    let es_duplicado :=
                      existsb (fun e => hypot (cx - fst e) (cy - snd e)
                                        <? 0.05) stacks_centers in
                    if es_duplicado then acc
                    else Some (stacks_centers ++ [(cx, cy)],
                               stacks_y ++ [cy])
              | Some _ => None
              end
            else acc
        | None => acc
        end
  end.

(** The table format from the stabilized count and levels. *)
Definition formato (final_count final_levels : Z) : string :=
  if (6 <? final_count)%Z then "9-Max"
  else if (5 <=? final_levels)%Z then "9-Max"
  else "6-Max".

Definition process (self : Plugin) (state : State)
  : Outcome (Plugin * State) :=
  match st_frame state with
  | None => Returns (self, state)
  | Some (h, w) =>
      match fold_left (extraer_step w h) (st_detections state)
              (Some ([], [])) with
      | None => Raises
      | Some (stacks_centers, stacks_y) =>
          let count0 := Z.of_nat (List.length stacks_centers) in
          let hero_visible := existsb (fun y => 0.75 <? y) stacks_y in
          let count1 :=
            if negb hero_visible && (0 <? count0)%Z then (count0 + 1)%Z
            else count0 in
          let count := if (count1 <? 2)%Z then 2%Z else count1 in
          let niveles := contar_niveles_verticales stacks_y in
          let hc := deque_append 15 (history_count self) count in
          let hl := deque_append 15 (history_levels self) niveles in
          let final_count := most_common Z.eqb hc 0%Z in
          let final_levels := most_common Z.eqb hl 0%Z in
          let table_format := formato final_count final_levels in
          let gs := st_game_state state in
          let gs' :=
            mkGameState (gs_my_cards gs) (gs_board gs)
              (gs_opponents_cards gs) (gs_street gs)
              (gs_players_in_hand gs) (Some final_count)
              (Some table_format) (Some count) (Some niveles) in
          Returns
            (mkPlugin hc hl,
             mkState (st_frame state) (st_detections state) gs'
               (st_hero_active state) (st_confirmed_seats state)
               (st_total_seats_tracked state) (st_table_fmt_geo state)
               (Some final_count) (Some final_levels))
      end
  end.

End TableSizer.

(* ================================================================== *)
(** * HTP.py: the crop of main_loop *)
(* ================================================================== *)

Module Orchestrator.

Import PyFloat.
Local Open Scope float_scope.

Definition MONITOR_W : Z := 2560.
Definition MONITOR_H : Z := 1440.
Definition CAPTURE_W : Z := 1920.
Definition CAPTURE_H : Z := 1080.

(** [_init_hardware]: true division of two ints. *)
Definition scale_x : float := of_Z CAPTURE_W / of_Z MONITOR_W.
Definition scale_y : float := of_Z CAPTURE_H / of_Z MONITOR_H.

(** [int(x)] on a float: truncation toward zero; [None] where Python
    raises (NaN and the infinities). *)
Definition py_int (x : float) : option Z :=
  match Prim2SF x with
  | S754_zero _ => Some 0%Z
  | S754_finite s m e =>
      let v := if (0 <=? e)%Z then (Zpos m * 2 ^ e)%Z
               else (Zpos m / 2 ^ (- e))%Z in
      Some (if s then (- v)%Z else v)
  | S754_infinity _ | S754_nan => None
  end.

Definition Rect : Type := (Z * Z * Z * Z)%type.

(** "Aplicar factor de escala": [(sx, sy, sw, sh)] before the clamp. *)
Definition escalar (coords_2k : Rect) : option Rect :=
  let '(x, y, w, h) := coords_2k in
  match py_int (of_Z x * scale_x), py_int (of_Z y * scale_y),
        py_int (of_Z w * scale_x), py_int (of_Z h * scale_y) with
  | Some sx, Some sy, Some sw, Some sh => Some (sx, sy, sw, sh)
  | _, _, _, _ => None
  end.

(** "Protección de límites" on a frame of [w_img] by [h_img] pixels. *)
Definition limitar (w_img h_img : Z) (r : Rect) : Rect :=
  let '(sx0, sy0, sw0, sh0) := r in
  let sx := Z.max 0 (Z.min sx0 (w_img - 1)) in
  let sy := Z.max 0 (Z.min sy0 (h_img - 1)) in
  let sw := Z.max 1 (Z.min sw0 (w_img - sx)) in
  let sh := Z.max 1 (Z.min sh0 (h_img - sy)) in
  (sx, sy, sw, sh).

(** The scaled and clamped rectangle of one tick. *)
Definition rect_recorte (w_img h_img : Z) (coords_2k : Rect)
  : option Rect :=
  option_map (limitar w_img h_img) (escalar coords_2k).

(** The rectangle satisfies the bounds of an in-range, non-empty slice. *)
Definition en_rango (w_img h_img : Z) (r : Rect) : Prop :=
  let '(sx, sy, sw, sh) := r in
  (0 <= sx <= w_img - 1 /\ 0 <= sy <= h_img - 1 /\
   1 <= sw <= w_img - sx /\ 1 <= sh <= h_img - sy)%Z.

(** The crop itself: [state["window_rect"]] when the frame is cropped
    ([sw > 10 and sh > 10]), [None] when [vision_ok] is cleared. *)
Definition crop (w_img h_img : Z) (coords_2k : Rect) : option Rect :=
  match rect_recorte w_img h_img coords_2k with
  | Some (sx, sy, sw, sh) =>
      if ((10 <? sw) && (10 <? sh))%Z then Some (sx, sy, sw, sh) else None
  | None => None
  end.

(** ** The two stages that write the table format

    [main_loop] runs the stages of [load_order] on the shared state, each
    under [try]/[except]: a stage that raises leaves the state as it
    found it (both stages write at their end).  Between stages the
    capture side replaces the frame and the detections. *)

Record Sistema : Type := mkSistema {
  sizer : TableSizer.Plugin;
  detector : CardDetector.Plugin;
  estado : CardDetector.State
}.

Inductive Evento : Type :=
| Entrada (frame : option (Z * Z))
          (detections : list CardDetector.Detection)
| EtapaSizer
| EtapaDetector (clk : CardDetector.Clock).

Definition con_entrada (st : CardDetector.State) (frame : option (Z * Z))
  (detections : list CardDetector.Detection) : CardDetector.State :=
  CardDetector.mkState frame detections
    (CardDetector.st_game_state st) (CardDetector.st_hero_active st)
    (CardDetector.st_confirmed_seats st)
    (CardDetector.st_total_seats_tracked st)
    (CardDetector.st_table_fmt_geo st)
    (CardDetector.st_table_sizer_seats st)
    (CardDetector.st_table_sizer_levels st).

Definition avanzar (s : Sistema) (e : Evento) : Sistema :=
  match e with
  | Entrada frame detections =>
      mkSistema (sizer s) (detector s)
        (con_entrada (estado s) frame detections)
  | EtapaSizer =>
      match TableSizer.process (sizer s) (estado s) with
      | TableSizer.Returns (p, st) => mkSistema p (detector s) st
      | TableSizer.Raises => s
      end
  | EtapaDetector clk =>
      let r := CardDetector.process (detector s) (estado s) clk in
      mkSistema (sizer s) (fst r) (snd r)
  end.

(** [_init_shared_state] and the plugins as constructed. *)
Definition inicial : Sistema :=
  mkSistema TableSizer.Plugin_init CardDetector.Plugin_init
    (CardDetector.mkState None [] CardDetector.GameState_empty false
       None None None (Some 0%Z) None).

(** [state["game_state"].get("table_format")]. *)
Definition publicado (s : Sistema) : option string :=
  CardDetector.gs_table_format (CardDetector.st_game_state (estado s)).

End Orchestrator.

(* ================================================================== *)
(** * Properties stated about the code *)
(* ================================================================== *)

Module Props.

Import PyFloat PyList Classifier CardDetector Orchestrator.
Local Open Scope Z_scope.

(** The scale factors are exactly three quarters, and scaling a screen
    coordinate is the integer quotient of its triple by four.  The check
    runs over every coordinate below [COORD_MAX]. *)
Definition escala_exacta (x : Z) : bool :=
  match py_int (PyFloat.of_Z x * scale_x)%float,
        py_int (PyFloat.of_Z x * scale_y)%float with
  | Some vx, Some vy => (vx =? 3 * x / 4) && (vy =? 3 * x / 4)
  | _, _ => false
  end.

(** [f] holds on the [n] integers from [x] on. *)
Fixpoint todos_desde (f : Z -> bool) (n : nat) (x : Z) : bool :=
  match n with
  | O => true
  | S n' => f x && todos_desde f n' (x + 1)
  end.

(** Twice the width of an 8K display. *)
Definition COORD_MAX : Z := 16384.

(** Window geometry on a desktop of at most [COORD_MAX] pixels a side. *)
Definition coords_de_pantalla (c : Rect) : Prop :=
  let '(x, y, w, h) := c in
  0 <= x < COORD_MAX /\ 0 <= y < COORD_MAX /\
  0 <= w < COORD_MAX /\ 0 <= h < COORD_MAX.

(** The flag of a seat says whether its count has reached the threshold. *)
Definition coherente (s : Seat) : Prop :=
  is_confirmed s = (SEAT_CREATION_FRAMES <=? detection_count s)%Z.

(** [s'] is [origen] after some matches, and [origen] is a seat of [l] or
    a seat just created. *)
Definition procede_de (l : list Seat) (s' : Seat) : Prop :=
  exists origen ms,
    (In origen l \/ exists x y t, origen = Seat_init x y t) /\
    s' = Seat_updates origen ms.

(** [menor_score] never grows. *)
Definition no_mayor (a b : float) : Prop :=
  (a <? b)%float = true \/ a = b.

(** The order of the layout table: by number of coordinates. *)
Definition menos_asientos (a b : string * list Point) : Prop :=
  (List.length (snd a) <= List.length (snd b))%nat.

(** The distance from a detection to the centroid of a cluster. *)
Definition distancia (cl : Cluster) (it : Item) : float :=
  hypot (item_x it - fst (centro cl))%float
    (item_y it - snd (centro cl))%float.

(** C6 as stated: among the clusters in tolerance, the detection joins
    one at least distance. *)
Definition une_al_mas_cercano (clusters : list Cluster) (it : Item)
  : Prop :=
  existsb (fun cl => cerca cl it) clusters = true ->
  exists pre cl post,
    clusters = pre ++ cl :: post /\
    cerca cl it = true /\
    (forall cl', In cl' clusters -> cerca cl' it = true ->
                 (distancia cl it <=? distancia cl' it)%float = true) /\
    asignar clusters it = pre ++ unir cl it :: post.









(** The clock value of a match is one read for a cluster of this
    evaluation: for the cluster of index [k], from [k0] on, among [n]. *)
Definition de_este_tick (reloj : nat -> float) (k0 n : nat) (m : Match)
  : Prop :=
  exists k, (k0 <= k < k0 + n)%nat /\ snd m = reloj k.

(** [a] comes before [b] in the layout table. *)
Definition antes (a b : string * list Point) : Prop :=
  exists t1 t2 t3, GG_LAYOUTS = t1 ++ a :: t2 ++ b :: t3.

(** Two layouts of the table, each with a matched point, tie on [pts]:
    their scores compare equal, below the ceiling 3.0 and strictly below
    the score of every other layout with a matched point. *)
Definition empate (pts : list Point) (a b : string * list Point) : Prop :=
  In a GG_LAYOUTS /\ In b GG_LAYOUTS /\ fst a <> fst b /\
  0 < matches (snd a) (puntos_test pts) /\
  0 < matches (snd b) (puntos_test pts) /\
  (score (snd a) (puntos_test pts) =? score (snd b) (puntos_test pts))%float
    = true /\
  (score (snd a) (puntos_test pts) <? 3.0)%float = true /\
  forall n l, In (n, l) GG_LAYOUTS -> n <> fst a -> n <> fst b ->
              0 < matches l (puntos_test pts) ->
              (score (snd a) (puntos_test pts)
               <? score l (puntos_test pts))%float = true.

(** C8 as stated: on a tie the answer is the one of the two layouts that
    has fewer seats. *)
Definition gana_menos_asientos (pts : list Point) : Prop :=
  forall a b, empate pts a b ->
    (inferir_formato_geometrico pts = fst a /\
     (List.length (snd a) < List.length (snd b))%nat) \/
    (inferir_formato_geometrico pts = fst b /\
     (List.length (snd b) < List.length (snd a))%nat).

End Props.

(* ================================================================== *)
(** * Concrete tables, registries and ticks *)
(* ================================================================== *)

Module Ejemplos.

Import PyFloat PyList Classifier CardDetector Orchestrator.
Local Open Scope float_scope.

(** A registry with a stale candidate, a confirmed seat last matched 50 s
    ago and a confirmed seat last matched 400 s ago, evaluated at
    [now = 400] without detections. *)
Definition registro_ejemplo : Plugin :=
  mkPlugin 0.30 0.60 0.65 None None []
    [ mkSeat 300 400 390 3 false;
      mkSeat 900 300 350 12 true;
      mkSeat 1500 400 0 9 true ]
    0 DETECTANDO.

Definition reloj_ejemplo : nat -> float := fun _ => 400%float.

(** Twelve points at one spot left of the table: 3-Max and 4-Max tie,
    below every other layout, and 3-Max is the answer. *)
Definition puntos_empate : list Point :=
  repeat (0x1.edfe5ede3eb9ap-4, 0.47) 12.

(** The hero point with a stray point in a corner, and with the left
    seat of 3-Max. *)
Definition puntos_perdido : list Point := [(0.5, 0.68); (0.0, 0.0)].
Definition puntos_pareja : list Point := [(0.5, 0.68); (0.2, 0.35)].

(** Two clusters 40 pixels apart and a detection 25 pixels from the first
    and 15 from the second: it joins the first. *)
Definition clusters_ejemplo : list Cluster :=
  [mkCluster ["Ah"%string] 0 0 1; mkCluster ["Kd"%string] 40 0 1].

Definition deteccion_ejemplo : Item := (25, 0, "Qs"%string).

(** A table of 1920 by 1080 pixels: two hero cards (the right one
    detected first) and a face-down detection beside them, one board
    card, a lone face-down opponent card on the left and two opponent
    cards side by side on the right. *)
Definition det (label : string) (x1 y1 x2 y2 : float) : Detection :=
  mkDetection (Some 0.9) None (Some label) (Some [x1; y1; x2; y2]).

Definition estado_ejemplo : State :=
  mkState (Some (1080, 1920)%Z)
    [ det "Kd" 950 750 990 810; det "Ah" 900 750 940 810;
      det "card_back" 1000 750 1040 810; det "7s" 800 450 840 500;
      det "card_back" 300 200 340 260;
      det "Qh" 1500 200 1540 260; det "Js" 1550 200 1590 260 ]
    GameState_empty false None None None None None.

Definition reloj_fijo : Clock := mkClock 10 10 (fun _ => 10).

(** The plugin after a first call on that state. *)
Definition plugin_ejemplo : Plugin :=
  fst (process Plugin_init estado_ejemplo reloj_fijo).

(** A tick with one face-down opponent card at the top seat of 4-Max:
    the sizer publishes "6-Max" from the first tick on; the registry
    confirms the seat at its eighth match, on the ninth tick, and only
    then does the card detector replace the name. *)
Definition tick_ejemplo : list Evento :=
  [ Entrada (Some (1080, 1920)%Z)
      [mkDetection (Some 0.9%float) None (Some "card_back")
         (Some [940; 240; 980; 300]%float)];
    EtapaSizer;
    EtapaDetector (mkClock 10 10 (fun _ => 10%float)) ].

Definition ticks_ejemplo (n : nat) : list Evento :=
  List.concat (repeat tick_ejemplo n).

(** The entry of index [i] of the layout table. *)
Definition layout_n (i : nat) : string * list Point :=
  nth i GG_LAYOUTS (EmptyString, []).

(** One confirmed seat at the top, left of the middle: 8-Max and 9-Max,
    of nine coordinates each, tie below every other layout, and 8-Max is
    the answer. *)
Definition puntos_8_9 : list Point := [(0.35, 0.10)].

(** One face-down card at the seat of [registro_ejemplo] that was last
    matched 400 s ago. *)
Definition rival_ejemplo : list Item := [(1505, 402, "card_back"%string)].

End Ejemplos.

(* ================================================================== *)
(** * plugins/track_window.py: class WindowTracker *)
(* ================================================================== *)

Module Tracker.

(** A window as [pygetwindow] hands it over.  [cerrada] stands for a
    window whose attributes can no longer be read (the read raises). *)
Record Window : Type := mkWindow {
  cerrada : bool;
  isMinimized : bool;
  left : Z;
  top : Z;
  width : Z;
  height : Z
}.

(** [update_window_reference]: the first window whose title matches,
    [ventanas] being what [getWindowsWithTitle] returns. *)
Definition update_window_reference (ventanas : list Window)
  : option Window :=
  match ventanas with
  | [] => None
  | v :: _ => Some v
  end.

(** [get_crop_coords]: [self.target_window] after the call and the
    returned [(x, y, w, h)]. *)
Definition get_crop_coords (target_window : option Window)
  (ventanas : list Window) : option Window * option Orchestrator.Rect :=
  let target :=
    match target_window with
    | Some v => Some v
    | None => update_window_reference ventanas
    end in
  match target with
  | None => (None, None)
  | Some v =>
      if cerrada v then (None, None)
      else if isMinimized v then (Some v, None)
      else (Some v,
            Some (Z.max 0 (left v), Z.max 0 (top v),
                  Z.max 1 (width v), Z.max 1 (height v)))
  end.

End Tracker.

(* ================================================================== *)
(** * HTP.py: the rest of main_loop *)
(* ================================================================== *)

Module MainLoop.

Import PyFloat Orchestrator.
Local Open Scope float_scope.

(** [l[-n:]] for a positive [n]. *)
Definition ultimos {A : Type} (n : nat) (l : list A) : list A :=
  skipn (List.length l - n) l.

(** The [except] branch of the stage loop:
    [errs.append(msg); state["errors"] = errs[-50:]]. *)
Definition registrar_error (errs : list string) (msg : string)
  : list string :=
  ultimos 50 (errs ++ [msg]).

(** [max(a, b)] on floats: [a], unless [b] is strictly greater. *)
Definition py_max (a b : float) : float := if a <? b then b else a.

(** [x / y] on floats; [None] where Python raises [ZeroDivisionError]. *)
Definition py_div (x y : float) : option float :=
  if y =? 0 then None else Some (x / y).

(** [1.0 / max(fps, 0.1)], for [idle_interval] and [active_interval]. *)
Definition intervalo (fps : float) : option float :=
  py_div 1.0 (py_max fps 0.1).

(** The length of [a[start:stop]] on an axis of [n] entries, for indices
    that are not negative. *)
Definition slice_len (n start stop : Z) : Z :=
  Z.max 0 (Z.min stop n - Z.min start n).

(** What the capture step does with the frame it read. *)
Inductive Captura : Type :=
| Recortado (alto ancho : Z) (window_rect : Rect)
| Completo (alto ancho : Z)
| SinVision.

(** Step 1 of the loop body for a frame of shape [(h_img, w_img)] and the
    tracker's answer; [None] where [int(...)] raises. *)
Definition capturar (h_img w_img : Z) (coords_2k : option Rect)
  : option Captura :=
  match coords_2k with
  | None => Some (Completo h_img w_img)
  | Some c =>
      match rect_recorte w_img h_img c with
      | None => None
      | Some (sx, sy, sw, sh) =>
          if ((10 <? sw) && (10 <? sh))%Z
          then Some (Recortado (slice_len h_img sy (sy + sh))
                       (slice_len w_img sx (sx + sw)) (sx, sy, sw, sh))
          else Some SinVision
      end
  end.

End MainLoop.

(* ================================================================== *)
(** * plugins/main_player_decisions.py: the hero's position *)
(* ================================================================== *)

Module Decisions.

Definition POSICIONES : list string :=
  ["BTN"; "SB"; "BB"; "UTG"; "MP"; "CO"].

(** [_inferir_posicion_hero]: [dealer_seat] is
    [game_state.get("dealer_seat", -1)] and [hero_seat_index] is
    [layout_conf.get("hero_seat_index", 5)], [None] for an absent key. *)
Definition inferir_posicion_hero (dealer_seat hero_seat_index : option Z)
  : string :=
  let dealer := match dealer_seat with Some d => d | None => (-1)%Z end in
  let hero_idx := match hero_seat_index with Some i => i | None => 5%Z end in
  if (dealer <? 0)%Z then "BTN"
  else
    match ((hero_idx - dealer) mod 6)%Z with
    | 0%Z => "BTN"
    | 1%Z => "SB"
    | 2%Z => "BB"
    | 3%Z => "UTG"
    | 4%Z => "MP"
    | 5%Z => "CO"
    | _ => "BTN"
    end.

End Decisions.

(* ================================================================== *)
(** * Notions used to state what the rest of the code does *)
(* ================================================================== *)

Module Nociones.

Import PyFloat PyList CardDetector Orchestrator.
Local Open Scope Z_scope.

(** ** Counting and voting *)

(** How often [x] occurs in [l], by the equality test [eqb]. *)
Definition veces {A : Type} (eqb : A -> A -> bool) (x : A) (l : list A)
  : Z :=
  Z.of_nat (List.length (filter (eqb x) l)).

(** [c] is the counter of [l]: one entry for each value of the list, with
    the number of its occurrences, in the order of first occurrence. *)
Definition contador_de {A : Type} (eqb : A -> A -> bool)
  (c : list (A * Z)) (l : list A) : Prop :=
  NoDup (map fst c) /\
  (forall y k, In (y, k) c -> k = veces eqb y l) /\
  (forall y, In y l <-> In y (map fst c)) /\
  (forall y, In y (map fst c) ->
     exists K1 K2 pre post,
       map fst c = K1 ++ y :: K2 /\ l = pre ++ y :: post /\
       incl pre K1).

(** ** The detection buffer *)

(** The detections a list of clusters holds. *)
Definition total (cls : list Cluster) : Z :=
  fold_right (fun cl n => count cl + n) 0 cls.

(** A cluster's count is the number of its labels, and at least one. *)
Definition bien_formado (cl : Cluster) : Prop :=
  count cl = Z.of_nat (List.length (labels cl)) /\ 1 <= count cl.

(** [conf] as [process] reads it from a detection. *)
Definition confianza (det : Detection) : float :=
  match det_conf det with
  | Some c => c
  | None => match det_confidence det with Some c => c | None => 0.0%float end
  end.

(** The buffered entry behind a published card: an entry of region [r]
    with the label [c] in one of the frames of [history]. *)
Definition visto (history : list (list FrameItem)) (r : Region)
  (c : string) : Prop :=
  exists frame it, In frame history /\ In (it, r) frame /\ item_label it = c.

(** Every buffered entry carries a card label. *)
Definition historia_de_cartas (history : list (list FrameItem)) : Prop :=
  forall frame fi, In frame history -> In fi frame ->
                   In (item_label (fst fi)) CARD_LABELS.

(** ** The opponent grouping *)

(** The entries of [used] that are set. *)
Definition marcadas (used : list bool) : nat :=
  List.length (filter (fun b => b) used).

(** The state of the loop over [i] in [_agrupar_rivales] before index
    [k]: every earlier card is used, each group used one or two cards,
    and every card of a group is the label of an item. *)
Definition estado_agrupar (items : list Item) (k : nat)
  (acc : list bool * list (list string)) : Prop :=
  List.length (fst acc) = List.length items /\
  (forall k', (k' < k)%nat -> nth k' (fst acc) false = true) /\
  (List.length (snd acc) <= marcadas (fst acc)
   <= 2 * List.length (snd acc))%nat /\
  (forall g c, In g (snd acc) -> In c g -> In c (map item_label items)).

(** ** The seat registry *)

(** [dx] of the matching loop: the horizontal distance from a seat to a
    cluster. *)
Definition dist_x (s : Seat) (c : Point) : float :=
  fabs (center_x s - fst c)%float.

(** The seat at index [j] is the match for [c]: it is in tolerance, no
    seat in tolerance is strictly nearer in x, and every earlier seat in
    tolerance is strictly farther. *)
Definition mas_cercano (seats : list Seat) (w : Z) (c : Point) (j : nat)
  : Prop :=
  exists sj,
    nth_error seats j = Some sj /\ en_tolerancia w sj c = true /\
    forall k s, nth_error seats k = Some s -> en_tolerancia w s c = true ->
      (dist_x s c <? dist_x sj c)%float = false /\
      ((k < j)%nat -> (dist_x sj c <? dist_x s c)%float = true).

(** The state of the loop over [self.seats] after the seats [P]:
    [(matched_seat, min_dist)] and the index of the next seat. *)
Definition estado_buscar (w : Z) (c : Point) (P : list Seat)
  (acc : option nat * float * nat) : Prop :=
  snd acc = List.length P /\
  match fst (fst acc) with
  | None =>
      snd (fst acc) = infinity /\
      forall s, In s P -> en_tolerancia w s c = false
  | Some j =>
      exists sj,
        nth_error P j = Some sj /\ en_tolerancia w sj c = true /\
        snd (fst acc) = dist_x sj c /\
        forall k s, nth_error P k = Some s -> en_tolerancia w s c = true ->
          (dist_x s c <? dist_x sj c)%float = false /\
          ((k < j)%nat -> (dist_x sj c <? dist_x s c)%float = true)
  end.

(** ** The table sizer *)

(** A detection on which the loop body of the table sizer raises: one it
    uses (confidence, label) whose box has one to three entries, or has
    four and the frame has no width or no height. *)
Definition rompe (w h : Z) (det : Detection) : bool :=
  negb ((match det_conf det with Some c => c | None => 0.0 end)
        <? 0.30)%float
  && match det_label det with
     | Some label => existsb (String.eqb label) TableSizer.TARGET_LABELS
     | None => false
     end
  && match det_box det with
     | None | Some [] => false
     | Some (_ :: _ :: _ :: _ :: _) => (w =? 0) || (h =? 0)
     | Some _ => true
     end.

(** No centre is within 0.05 of a centre kept before it. *)
Definition separados (cs : list Point) : Prop :=
  forall pre c post, cs = pre ++ c :: post ->
    forall e, In e pre ->
      (hypot (fst c - fst e) (snd c - snd e) <? 0.05)%float = false.

(** [c] is the normalized centre of the box of a detection the table
    sizer uses. *)
Definition centro_de (w h : Z) (dets : list Detection) (c : Point) : Prop :=
  exists det label b0 b1 b2 b3 rest,
    In det dets /\
    ((match det_conf det with Some x => x | None => 0.0 end) <? 0.30)%float
      = false /\
    det_label det = Some label /\
    In label TableSizer.TARGET_LABELS /\
    det_box det = Some (b0 :: b1 :: b2 :: b3 :: rest) /\
    c = ((b0 + b2) / 2 / of_Z w, (b1 + b3) / 2 / of_Z h)%float.

(** ** The shared state over a run *)

(** The four streets. *)
Definition CALLES : list string :=
  ["PREFLOP"; "FLOP"; "TURN"; "RIVER"]%string.

(** A key that is absent or holds at least [n]. *)
Definition al_menos (n : Z) (o : option Z) : Prop :=
  forall a, o = Some a -> n <= a.

(** What the two stages keep true of the shared state. *)
Definition estado_ok (st : State) : Prop :=
  let gs := st_game_state st in
  al_menos 2 (gs_active_players gs) /\
  al_menos 0 (gs_players_in_hand gs) /\
  (forall s, gs_street gs = Some s -> In s CALLES) /\
  al_menos 2 (gs_raw_stacks_count gs) /\
  al_menos 0 (gs_raw_levels gs) /\
  (forall c, st_confirmed_seats st = Some c ->
     exists t, st_total_seats_tracked st = Some t /\ 0 <= c <= t).

(** What the two stages keep true of their own memory. *)
Definition memoria_ok (s : Sistema) : Prop :=
  (List.length (detection_history (detector s)) <= BUFFER_SIZE)%nat /\
  (List.length (TableSizer.history_count (sizer s)) <= 15)%nat /\
  List.length (TableSizer.history_levels (sizer s)) =
    List.length (TableSizer.history_count (sizer s)) /\
  Forall (fun n => 2 <= n) (TableSizer.history_count (sizer s)) /\
  Forall (fun n => 0 <= n) (TableSizer.history_levels (sizer s)).

Definition sistema_ok (s : Sistema) : Prop :=
  estado_ok (estado s) /\ memoria_ok s.

(** Every published card is a card label, and the hero's and the
    board's are not the face-down one. *)
Definition cartas_ok (s : Sistema) : Prop :=
  let gs := st_game_state (estado s) in
  historia_de_cartas (detection_history (detector s)) /\
  (forall cs c, gs_my_cards gs = Some cs -> In c cs ->
                In c CARD_LABELS /\ c <> card_back) /\
  (forall cs c, gs_board gs = Some cs -> In c cs ->
                In c CARD_LABELS /\ c <> card_back) /\
  (forall gr g c, gs_opponents_cards gs = Some gr -> In g gr -> In c g ->
                  In c CARD_LABELS).

(** ** The window *)

(** A window whose geometry is below [COORD_MAX] on every side (its
    left and top may be negative: the tracker clamps them). *)
Definition ventana_de_pantalla (v : Tracker.Window) : Prop :=
  Tracker.left v < Props.COORD_MAX /\ Tracker.top v < Props.COORD_MAX /\
  Tracker.width v < Props.COORD_MAX /\ Tracker.height v < Props.COORD_MAX.

End Nociones.

(* ================================================================== *)
(** * More concrete cases *)
(* ================================================================== *)

Module Casos.

Import PyFloat PyList CardDetector Orchestrator Ejemplos.
Local Open Scope float_scope.

(** Four detections of one card over four frames, read as "Ah", "Kd",
    "Kd", "Ah": one cluster, and a tie between the two labels. *)
Definition votos_ejemplo : list Item :=
  [ (100, 200, "Ah"%string); (101, 201, "Kd"%string);
    (102, 202, "Kd"%string); (103, 203, "Ah"%string) ].

Definition cluster_ejemplo : Cluster :=
  mkCluster ["Ah"; "Kd"; "Kd"; "Ah"]%string 406 806 4.

(** A maximized window, eight pixels off the screen on each side. *)
Definition ventana_ejemplo : Tracker.Window :=
  Tracker.mkWindow false false (-8) (-8) 2576 1416.

(** The system once the example frame has come in, and what the table
    sizer returns on it. *)
Definition sistema_ejemplo : Sistema :=
  avanzar inicial (Entrada (st_frame estado_ejemplo)
                     (st_detections estado_ejemplo)).

Definition sizer_ejemplo : TableSizer.Plugin * State :=
  match TableSizer.process (sizer sistema_ejemplo) (estado sistema_ejemplo)
  with
  | TableSizer.Returns r => r
  | TableSizer.Raises => (sizer sistema_ejemplo, estado sistema_ejemplo)
  end.

(** Three stack detections on a frame of 1920 by 1080 pixels, the second
    a repeat of the first a few pixels off. *)
Definition stacks_ejemplo : list Detection :=
  [ det "stack_text" 900 900 1000 940;
    det "stack_text" 904 902 1004 942;
    det "all_in_symbol" 200 300 300 340 ].

Definition centros_ejemplo : list Point * list float :=
  match fold_left (TableSizer.extraer_step 1920 1080) stacks_ejemplo
          (Some ([], [])) with
  | Some r => r
  | None => ([], [])
  end.

End Casos.

(* ================================================================== *)
(** * The order of binary64 numbers *)
(* ================================================================== *)

Module FloatFacts.

Import PyFloat.
Local Open Scope float_scope.

Lemma lexcmp_Lt a b : lexcmp a b = Lt <-> lexlt a b.
Proof.
  destruct a as [[a1 a2] a3], b as [[b1 b2] b3]; unfold lexcmp, lexlt.
  destruct (Z.compare_spec a1 b1), (Z.compare_spec a2 b2),
    (Z.compare_spec a3 b3); split; intros; try discriminate; try lia;
    reflexivity.
Qed.

Lemma lexcmp_Eq a b : lexcmp a b = Eq <-> a = b.
Proof.
  destruct a as [[a1 a2] a3], b as [[b1 b2] b3]; unfold lexcmp.
  destruct (Z.compare_spec a1 b1), (Z.compare_spec a2 b2),
    (Z.compare_spec a3 b3); split; intros E; try discriminate;
    try (injection E; intros; lia); subst; reflexivity.
Qed.

Lemma lexcmp_Gt a b : lexcmp a b = Gt <-> lexlt b a.
Proof.
  destruct a as [[a1 a2] a3], b as [[b1 b2] b3]; unfold lexcmp, lexlt.
  destruct (Z.compare_spec a1 b1), (Z.compare_spec a2 b2),
    (Z.compare_spec a3 b3); split; intros; try discriminate; try lia;
    reflexivity.
Qed.

Lemma lexlt_irrefl {a} : ~ lexlt a a.
Proof. destruct a as [[a1 a2] a3]; unfold lexlt; lia. Qed.

Lemma lexlt_trans {a b c} : lexlt a b -> lexlt b c -> lexlt a c.
Proof.
  destruct a as [[a1 a2] a3], b as [[b1 b2] b3], c as [[c1 c2] c3].
  unfold lexlt; lia.
Qed.

Lemma lexlt_total a b : lexlt a b \/ a = b \/ lexlt b a.
Proof.
  destruct a as [[a1 a2] a3], b as [[b1 b2] b3]; unfold lexlt.
  destruct (Z.lt_total a1 b1) as [|[|]], (Z.lt_total a2 b2) as [|[|]],
    (Z.lt_total a3 b3) as [|[|]]; subst; auto 8.
Qed.

(** The specification's comparison is the lexicographic one on keys. *)
Lemma SFcompare_key {f1 f2} :
  SFnum f1 -> SFnum f2 ->
  SFcompare f1 f2 = Some (lexcmp (SFkey f1) (SFkey f2)).
Proof.
  unfold SFnum; intros N1 N2.
  destruct f1 as [s1|s1| |s1 m1 e1], f2 as [s2|s2| |s2 m2 e2];
    try congruence;
    try destruct s1; try destruct s2; try reflexivity.
  cbn [SFcompare SFkey]. unfold lexcmp.
    rewrite Pos.compare_cont_spec. cbn [Pos.switch_Eq].
    change (-1 ?= -1)%Z with Eq. cbv iota.
    rewrite (Z.compare_opp e1 e2), (Z.compare_antisym e1 e2).
    destruct (e1 ?= e2)%Z; try reflexivity.
    simpl. destruct (m1 ?= m2)%positive; reflexivity.
Qed.

Lemma SFcompare_nan_l f : SFcompare S754_nan f = None.
Proof. reflexivity. Qed.

Lemma SFcompare_nan_r f : SFcompare f S754_nan = None.
Proof. destruct f as [s|s| |s m e]; reflexivity. Qed.

Lemma SFnum_dec f : {SFnum f} + {f = S754_nan}.
Proof.
  destruct f as [s|s| |s m e];
    solve [right; reflexivity | left; unfold SFnum; discriminate].
Qed.

Lemma is_num_spec x : is_num x = true <-> SFnum (Prim2SF x).
Proof.
  unfold is_num. rewrite eqb_spec. unfold SFeqb.
  destruct (SFnum_dec (Prim2SF x)) as [N | E].
  - rewrite (SFcompare_key N N).
    destruct (lexcmp_Eq (SFkey (Prim2SF x)) (SFkey (Prim2SF x))) as [_ R].
    rewrite (R eq_refl). tauto.
  - rewrite E. cbn. unfold SFnum. split; [discriminate | congruence].
Qed.

Lemma ltb_key x y :
  (x <? y) = true <->
  SFnum (Prim2SF x) /\ SFnum (Prim2SF y) /\ lexlt (fkey x) (fkey y).
Proof.
  rewrite ltb_spec. unfold SFltb, fkey.
  destruct (SFnum_dec (Prim2SF x)) as [Nx | Ex].
  - destruct (SFnum_dec (Prim2SF y)) as [Ny | Ey].
    + rewrite (SFcompare_key Nx Ny).
      destruct (lexcmp (SFkey (Prim2SF x)) (SFkey (Prim2SF y))) eqn:C.
      * split; [discriminate|]. intros (_ & _ & L).
        apply lexcmp_Lt in L. congruence.
      * apply lexcmp_Lt in C. tauto.
      * split; [discriminate|]. intros (_ & _ & L).
        apply lexcmp_Lt in L. congruence.
    + rewrite Ey, SFcompare_nan_r. unfold SFnum.
      split; [discriminate | intros (_ & N & _); congruence].
  - rewrite Ex, SFcompare_nan_l. unfold SFnum.
    split; [discriminate | intros (N & _); congruence].
Qed.

Lemma leb_key x y :
  (x <=? y) = true <->
  SFnum (Prim2SF x) /\ SFnum (Prim2SF y) /\
  (lexlt (fkey x) (fkey y) \/ fkey x = fkey y).
Proof.
  rewrite leb_spec. unfold SFleb, fkey.
  destruct (SFnum_dec (Prim2SF x)) as [Nx | Ex].
  - destruct (SFnum_dec (Prim2SF y)) as [Ny | Ey].
    + rewrite (SFcompare_key Nx Ny).
      destruct (lexcmp (SFkey (Prim2SF x)) (SFkey (Prim2SF y))) eqn:C.
      * apply lexcmp_Eq in C. tauto.
      * apply lexcmp_Lt in C. tauto.
      * apply lexcmp_Gt in C. split; [discriminate|].
        intros (_ & _ & [L | E]).
        -- exfalso. exact (lexlt_irrefl (lexlt_trans L C)).
        -- rewrite E in C. exfalso. exact (lexlt_irrefl C).
    + rewrite Ey, SFcompare_nan_r. unfold SFnum.
      split; [discriminate | intros (_ & N & _); congruence].
  - rewrite Ex, SFcompare_nan_l. unfold SFnum.
    split; [discriminate | intros (N & _); congruence].
Qed.

Lemma eqb_key x y :
  (x =? y) = true <->
  SFnum (Prim2SF x) /\ SFnum (Prim2SF y) /\ fkey x = fkey y.
Proof.
  rewrite eqb_spec. unfold SFeqb, fkey.
  destruct (SFnum_dec (Prim2SF x)) as [Nx | Ex].
  - destruct (SFnum_dec (Prim2SF y)) as [Ny | Ey].
    + rewrite (SFcompare_key Nx Ny).
      destruct (lexcmp (SFkey (Prim2SF x)) (SFkey (Prim2SF y))) eqn:C.
      * apply lexcmp_Eq in C. tauto.
      * split; [discriminate|]. intros (_ & _ & E).
        apply lexcmp_Eq in E. congruence.
      * split; [discriminate|]. intros (_ & _ & E).
        apply lexcmp_Eq in E. congruence.
    + rewrite Ey, SFcompare_nan_r. unfold SFnum.
      split; [discriminate | intros (_ & N & _); congruence].
  - rewrite Ex, SFcompare_nan_l. unfold SFnum.
    split; [discriminate | intros (N & _); congruence].
Qed.

(** [<] on floats is a strict order (NaN is below and above nothing). *)
Lemma ltb_irrefl x : (x <? x) = false.
Proof.
  destruct (x <? x) eqn:E; [|reflexivity].
  apply ltb_key in E. destruct E as (_ & _ & L).
  destruct (lexlt_irrefl L).
Qed.

Lemma ltb_asym {x y} : (x <? y) = true -> (y <? x) = false.
Proof.
  intros H. destruct (y <? x) eqn:E; [|reflexivity].
  apply ltb_key in H. apply ltb_key in E.
  destruct H as (_ & _ & L1), E as (_ & _ & L2).
  destruct (lexlt_irrefl (lexlt_trans L1 L2)).
Qed.

(** Equal numbers are not below one another. *)
Lemma eqb_ltb_false {x y} : (x =? y) = true -> (y <? x) = false.
Proof.
  intros H. destruct (y <? x) eqn:E; [|reflexivity].
  apply eqb_key in H. apply ltb_key in E.
  destruct H as (_ & _ & K), E as (_ & _ & L). rewrite K in L.
  destruct (lexlt_irrefl L).
Qed.

Lemma ltb_trans {x y z} :
  (x <? y) = true -> (y <? z) = true -> (x <? z) = true.
Proof.
  intros H1 H2. apply ltb_key in H1. apply ltb_key in H2.
  apply ltb_key. destruct H1 as (Nx & _ & L1), H2 as (_ & Nz & L2).
  repeat split; try assumption. exact (lexlt_trans L1 L2).
Qed.

Lemma ltb_is_num_l {x y} : (x <? y) = true -> is_num x = true.
Proof. intros H. apply ltb_key in H. apply is_num_spec. tauto. Qed.

Lemma ltb_is_num_r {x y} : (x <? y) = true -> is_num y = true.
Proof. intros H. apply ltb_key in H. apply is_num_spec. tauto. Qed.

(** [<=] is total and transitive on numbers. *)
Lemma ltb_false_leb {x y} :
  is_num x = true -> is_num y = true ->
  (y <? x) = false -> (x <=? y) = true.
Proof.
  intros Nx Ny H. apply is_num_spec in Nx. apply is_num_spec in Ny.
  apply leb_key. repeat split; try assumption.
  destruct (lexlt_total (fkey x) (fkey y)) as [L | [E | G]]; auto.
  assert (T : (y <? x) = true) by (apply ltb_key; tauto).
  congruence.
Qed.



Lemma leb_ltb_trans {x y z} :
  (x <=? y) = true -> (y <? z) = true -> (x <? z) = true.
Proof.
  intros H1 H2. apply leb_key in H1. apply ltb_key in H2.
  apply ltb_key. destruct H1 as (Nx & _ & L1), H2 as (_ & Nz & L2).
  repeat split; try assumption.
  destruct L1 as [L1 | E1].
  - exact (lexlt_trans L1 L2).
  - rewrite E1. exact L2.
Qed.

Lemma leb_ltb_false {x y} : (x <=? y) = true -> (y <? x) = false.
Proof.
  intros H. destruct (y <? x) eqn:E; [|reflexivity].
  pose proof (leb_ltb_trans H E) as C. rewrite ltb_irrefl in C.
  discriminate.
Qed.

Lemma eqb_sym {x y} : (x =? y) = true -> (y =? x) = true.
Proof.
  intros H. apply eqb_key in H. apply eqb_key.
  destruct H as (Nx & Ny & K). repeat split; auto.
Qed.

Lemma eqb_ltb_l {x y z} :
  (x =? y) = true -> (x <? z) = true -> (y <? z) = true.
Proof.
  intros H L. apply eqb_key in H. apply ltb_key in L. apply ltb_key.
  destruct H as (_ & Ny & K), L as (_ & Nz & L).
  repeat split; auto. rewrite <- K. exact L.
Qed.

End FloatFacts.

(* ================================================================== *)
(** * The crop rectangle stays inside the frame *)
(* ================================================================== *)

Module OrchestratorFacts.

Import Orchestrator Props.
Local Open Scope Z_scope.

Lemma limitar_en_rango (w_img h_img : Z) (r : Rect) :
  0 < w_img -> 0 < h_img -> en_rango w_img h_img (limitar w_img h_img r).
Proof.
  intros Hw Hh. destruct r as [[[sx0 sy0] sw0] sh0].
  unfold limitar, en_rango. lia.
Qed.

Lemma todos_desde_spec (f : Z -> bool) (n : nat) :
  forall x0, todos_desde f n x0 = true ->
  forall x, x0 <= x < x0 + Z.of_nat n -> f x = true.
Proof.
  induction n as [|n IH]; intros x0 H x Hx.
  - lia.
  - cbn [todos_desde] in H. apply andb_prop in H. destruct H as [H0 Hn].
    destruct (Z.eq_dec x x0) as [->|Hne]; [exact H0|].
    apply (IH (x0 + 1) Hn). lia.
Qed.

Lemma escala_tabla :
  todos_desde escala_exacta (Z.to_nat COORD_MAX) 0 = true.
Proof. vm_compute. reflexivity. Qed.

Lemma escala_coord (x : Z) :
  0 <= x < COORD_MAX ->
  py_int (PyFloat.of_Z x * scale_x)%float = Some (3 * x / 4) /\
  py_int (PyFloat.of_Z x * scale_y)%float = Some (3 * x / 4).
Proof.
  intros Hx.
  assert (E : escala_exacta x = true).
  { apply (todos_desde_spec _ _ 0 escala_tabla).
    rewrite Z2Nat.id by (unfold COORD_MAX; lia). lia. }
  unfold escala_exacta in E.
  destruct (py_int (PyFloat.of_Z x * scale_x)%float) as [vx|];
    [|discriminate].
  destruct (py_int (PyFloat.of_Z x * scale_y)%float) as [vy|];
    [|discriminate].
  apply andb_prop in E. destruct E as [Ex Ey].
  apply Z.eqb_eq in Ex. apply Z.eqb_eq in Ey. subst. split; reflexivity.
Qed.

Lemma escalar_total (c : Rect) :
  coords_de_pantalla c ->
  escalar c =
  Some (let '(x, y, w, h) := c in
        (3 * x / 4, 3 * y / 4, 3 * w / 4, 3 * h / 4)).
Proof.
  destruct c as [[[x y] w] h]. intros (Hx & Hy & Hw & Hh).
  unfold escalar.
  destruct (escala_coord x Hx) as [-> _].
  destruct (escala_coord y Hy) as [_ ->].
  destruct (escala_coord w Hw) as [-> _].
  destruct (escala_coord h Hh) as [_ ->].
  reflexivity.
Qed.

(** C9. On a frame of positive width and height, the clamp puts any
    scaled rectangle in range: 0 <= sx <= w-1, 0 <= sy <= h-1,
    1 <= sw <= w-sx and 1 <= sh <= h-sy.  So does every rectangle the
    loop computes, and for window coordinates below [COORD_MAX] the
    scaling does return one. *)
Theorem crop_rect_en_rango (w_img h_img : Z) (coords_2k : Rect) :
  0 < w_img -> 0 < h_img ->
  (forall r0, en_rango w_img h_img (limitar w_img h_img r0)) /\
  (forall r, rect_recorte w_img h_img coords_2k = Some r ->
             en_rango w_img h_img r) /\
  (coords_de_pantalla coords_2k ->
   exists r, rect_recorte w_img h_img coords_2k = Some r /\
             en_rango w_img h_img r).
Proof.
  intros Hw Hh. split; [|split].
  - intros r0. now apply limitar_en_rango.
  - intros r E. unfold rect_recorte in E.
    destruct (escalar coords_2k) as [r0|]; [|discriminate].
    injection E as <-. now apply limitar_en_rango.
  - intros Hc. unfold rect_recorte. rewrite (escalar_total _ Hc).
    eexists. split; [reflexivity|]. now apply limitar_en_rango.
Qed.

Lemma crop_rect_en_rango_witness :
  (forall r0, en_rango 1920 1080 (limitar 1920 1080 r0)) /\
  (forall r, rect_recorte 1920 1080 (3333, 1919, 1280, 7) = Some r ->
             en_rango 1920 1080 r) /\
  (coords_de_pantalla (3333, 1919, 1280, 7) ->
   exists r, rect_recorte 1920 1080 (3333, 1919, 1280, 7) = Some r /\
             en_rango 1920 1080 r).
Proof.
  apply (crop_rect_en_rango 1920 1080 (3333, 1919, 1280, 7)); lia.
Defined.

(** The rectangle of that tick: a window hanging over the lower right
    corner is cut down to the last pixel. *)
Example recorte_en_esquina :
  rect_recorte 1920 1080 (3333, 1919, 1280, 7) = Some (1919, 1079, 1, 1).
Proof. vm_compute. reflexivity. Qed.

End OrchestratorFacts.

(* ================================================================== *)
(** * The seat registry: promotion and expiry *)
(* ================================================================== *)

Module RegistryFacts.

Import PyFloat FloatFacts PyList CardDetector Props Ejemplos.

(** ** A seat through its matches *)

Lemma Seat_updates_cons (s : Seat) (m : Match) (ms : list Match) :
  Seat_updates s (m :: ms) = Seat_updates (Seat_apply s m) ms.
Proof. reflexivity. Qed.

Lemma Seat_updates_count (ms : list Match) :
  forall s, detection_count (Seat_updates s ms) =
            (detection_count s + Z.of_nat (List.length ms))%Z.
Proof.
  induction ms as [|m ms IH]; intros s.
  - cbn. lia.
  - rewrite Seat_updates_cons, IH. cbn [List.length Seat_apply Seat_update
      detection_count]. lia.
Qed.

Lemma coherente_init (x y t : float) : coherente (Seat_init x y t).
Proof. reflexivity. Qed.

Lemma coherente_update (s : Seat) (x y t : float) :
  coherente s -> coherente (Seat_update s x y t).
Proof.
  unfold coherente, Seat_update, SEAT_CREATION_FRAMES. cbn.
  intros ->.
  destruct (8 <=? detection_count s + 1)%Z eqn:E; [reflexivity|].
  apply Z.leb_gt in E. apply Z.leb_gt. lia.
Qed.

Lemma coherente_updates (ms : list Match) :
  forall s, coherente s -> coherente (Seat_updates s ms).
Proof.
  induction ms as [|m ms IH]; intros s H; [exact H|].
  rewrite Seat_updates_cons. apply IH. now apply coherente_update.
Qed.

Lemma confirmed_update (s : Seat) (x y t : float) :
  is_confirmed s = true -> is_confirmed (Seat_update s x y t) = true.
Proof.
  intros H. unfold Seat_update. cbn. rewrite H.
  now destruct (SEAT_CREATION_FRAMES <=? detection_count s + 1)%Z.
Qed.

Lemma confirmed_updates (ms : list Match) :
  forall s, is_confirmed s = true ->
            is_confirmed (Seat_updates s ms) = true.
Proof.
  induction ms as [|m ms IH]; intros s H; [exact H|].
  rewrite Seat_updates_cons. apply IH. now apply confirmed_update.
Qed.

(** ** Where the seats of the registry come from *)

Lemma In_set_nth {A : Type} (x a : A) (l : list A) :
  forall i, In a (set_nth i x l) -> a = x \/ In a l.
Proof.
  induction l as [|h l IH]; intros i H; [destruct i; destruct H|].
  destruct i as [|i]; cbn in H.
  - destruct H as [<-|H]; [now left | right; now right].
  - destruct H as [<-|H]; [right; now left|].
    destruct (IH i H) as [E|I]; [now left | right; now right].
Qed.

Lemma asignar_cluster_origen (seats : list Seat) (w : Z) (c : Point)
  (t : float) (s' : Seat) :
  In s' (asignar_cluster seats w c t) ->
  In s' seats \/
  (exists s, In s seats /\ s' = Seat_apply s (fst c, snd c, t)) \/
  s' = Seat_init (fst c) (snd c) t.
Proof.
  unfold asignar_cluster.
  destruct (buscar_asiento seats w c) as [i|].
  - destruct (nth_error seats i) as [s|] eqn:E; [|now left].
    intros H. apply In_set_nth in H. destruct H as [->|H]; [|now left].
    right; left. exists s. split; [|reflexivity].
    now apply nth_error_In with i.
  - intros H. apply in_app_or in H. destruct H as [H|H]; [now left|].
    cbn in H. destruct H as [<-|[]]. right; now right.
Qed.

Lemma asignar_clusters_origen (w : Z) (reloj : nat -> float)
  (cs : list Point) :
  forall seats k s',
    In s' (asignar_clusters seats w cs reloj k) -> procede_de seats s'.
Proof.
  induction cs as [|c cs IH]; intros seats k s' H.
  - exists s', []. split; [now left | reflexivity].
  - cbn [asignar_clusters] in H. apply IH in H.
    destruct H as (origen & ms & [I | F] & ->).
    + apply asignar_cluster_origen in I.
      destruct I as [I | [(s & I & ->) | ->]].
      * exists origen, ms. split; [now left | reflexivity].
      * exists s, ((fst c, snd c, reloj k) :: ms).
        split; [now left | reflexivity].
      * exists (Seat_init (fst c) (snd c) (reloj k)), ms.
        split; [right; eauto | reflexivity].
    + exists origen, ms. split; [now right | reflexivity].
Qed.

Lemma gestionar_asientos_origen (self : Plugin) (opp_raw : list Item)
  (w h : Z) (now : float) (reloj : nat -> float) (s' : Seat) :
  In s' (seats (fst (gestionar_asientos self opp_raw w h now reloj))) ->
  procede_de (seats self) s'.
Proof.
  unfold gestionar_asientos.
  destruct ((w <=? 0) || (h <=? 0))%Z.
  - cbn. intros H. exists s', []. split; [now left | reflexivity].
  - cbn [fst seats]. intros H. apply filter_In in H.
    destruct H as [H _]. now apply asignar_clusters_origen in H.
Qed.

(** C1. A seat's flag through its life: after its creation and any run of
    matches it is set exactly when the count (1 + number of matches) has
    reached 8, so it is set by the update that brings the count to 8 and
    by no earlier one; an update never clears it; and every seat of the
    registry after an evaluation is a seat it held before, or a new one,
    after zero or more updates, so no evaluation clears it either, and
    a registry whose flags agree with the counts stays so. *)
Theorem seat_confirmation_once :
  (forall x y t ms,
     detection_count (Seat_updates (Seat_init x y t) ms) =
       (1 + Z.of_nat (List.length ms))%Z /\
     is_confirmed (Seat_updates (Seat_init x y t) ms) =
       (SEAT_CREATION_FRAMES <=? 1 + Z.of_nat (List.length ms))%Z) /\
  (forall s x y t,
     (SEAT_CREATION_FRAMES <= detection_count s + 1)%Z ->
     is_confirmed (Seat_update s x y t) = true) /\
  (forall s ms,
     is_confirmed s = true -> is_confirmed (Seat_updates s ms) = true) /\
  (forall self opp_raw w h now reloj s',
     In s' (seats (fst (gestionar_asientos self opp_raw w h now reloj))) ->
     exists origen ms,
       (In origen (seats self) \/ exists x y t, origen = Seat_init x y t) /\
       s' = Seat_updates origen ms /\
       (is_confirmed origen = true -> is_confirmed s' = true)) /\
  (forall self opp_raw w h now reloj,
     Forall coherente (seats self) ->
     Forall coherente
       (seats (fst (gestionar_asientos self opp_raw w h now reloj)))).
Proof.
  split; [|split; [|split; [|split]]].
  - intros x y t ms. split.
    + now rewrite Seat_updates_count.
    + pose proof (coherente_updates ms _ (coherente_init x y t)) as C.
      unfold coherente in C. rewrite C, Seat_updates_count. reflexivity.
  - intros s x y t H. unfold Seat_update. cbn.
    apply Z.leb_le in H. now rewrite H.
  - intros s ms. apply confirmed_updates.
  - intros self opp_raw w h now reloj s' H.
    apply gestionar_asientos_origen in H.
    destruct H as (origen & ms & O & ->).
    exists origen, ms. split; [exact O|]. split; [reflexivity|].
    apply confirmed_updates.
  - intros self opp_raw w h now reloj C.
    apply Forall_forall. intros s' H.
    apply gestionar_asientos_origen in H.
    destruct H as (origen & ms & [I | (x & y & t & ->)] & ->);
      apply coherente_updates.
    + rewrite Forall_forall in C. now apply C.
    + apply coherente_init.
Qed.

Lemma seat_confirmation_once_witness :
  is_confirmed
    (Seat_updates (Seat_init 100 200 0)
       (repeat (101, 201, 1)%float 6)) = false /\
  is_confirmed
    (Seat_updates (Seat_init 100 200 0)
       (repeat (101, 201, 1)%float 7)) = true /\
  is_confirmed
    (Seat_updates (Seat_init 100 200 0)
       (repeat (101, 201, 1)%float 40)) = true.
Proof.
  destruct seat_confirmation_once as (H & _ & K & _ & _).
  split; [|split].
  - destruct (H 100 200 0 (repeat (101, 201, 1) 6))%float as [_ ->].
    reflexivity.
  - destruct (H 100 200 0 (repeat (101, 201, 1) 7))%float as [_ ->].
    reflexivity.
  - change (repeat (101, 201, 1)%float 40)
      with (repeat (101, 201, 1)%float 7 ++ repeat (101, 201, 1)%float 33).
    unfold Seat_updates. rewrite fold_left_app. apply K.
    destruct (H 100 200 0 (repeat (101, 201, 1) 7))%float as [_ E].
    exact E.
Defined.

(** ** Seats out of reach of every cluster *)

Lemma buscar_loop_Some (w : Z) (c : Point) (l : list Seat) :
  forall m d i j,
    fst (fst (fold_left (buscar_step w c) l (m, d, i))) = Some j ->
    m = Some j \/
    exists s, nth_error l (j - i) = Some s /\ (i <= j)%nat /\
              en_tolerancia w s c = true.
Proof.
  induction l as [|s l IH]; intros m d i j H.
  - now left.
  - cbn [fold_left] in H. unfold buscar_step at 2 in H.
    destruct (en_tolerancia w s c &&
              (fabs (center_x s - fst c) <? d)%float) eqn:T.
    + apply IH in H. destruct H as [H | (s' & N & L & E)].
      * injection H as <-. right. exists s.
        rewrite Nat.sub_diag. apply andb_prop in T. now repeat split.
      * right. exists s'. replace (j - i)%nat with (S (j - S i)) by lia.
        repeat split; auto. lia.
    + apply IH in H. destruct H as [H | (s' & N & L & E)]; [now left|].
      right. exists s'. replace (j - i)%nat with (S (j - S i)) by lia.
      repeat split; auto. lia.
Qed.

Lemma buscar_asiento_Some (seats : list Seat) (w : Z) (c : Point)
  (j : nat) :
  buscar_asiento seats w c = Some j ->
  exists s, nth_error seats j = Some s /\ en_tolerancia w s c = true.
Proof.
  unfold buscar_asiento. intros H. apply buscar_loop_Some in H.
  destruct H as [H | (s & N & _ & E)]; [discriminate|].
  rewrite Nat.sub_0_r in N. now exists s.
Qed.

Lemma set_nth_otro {A : Type} (x a b : A) (l : list A) :
  forall i, nth_error l i = Some b -> In a l -> a <> b ->
            In a (set_nth i x l).
Proof.
  induction l as [|h l IH]; intros i E I N; [destruct I|].
  destruct i as [|i]; cbn in *.
  - injection E as <-. destruct I as [-> | I]; [now destruct N | now right].
  - destruct I as [-> | I]; [now left | right; now apply IH].
Qed.

(** A seat too far from a cluster is left as it is by that cluster. *)
Lemma asignar_cluster_lejos (seats : list Seat) (w : Z) (c : Point)
  (t : float) (s : Seat) :
  In s seats -> en_tolerancia w s c = false ->
  In s (asignar_cluster seats w c t).
Proof.
  intros I F. unfold asignar_cluster.
  destruct (buscar_asiento seats w c) as [j|] eqn:B.
  - apply buscar_asiento_Some in B. destruct B as (b & N & E).
    rewrite N. apply set_nth_otro with b; auto. congruence.
  - apply in_or_app. now left.
Qed.

Lemma asignar_clusters_lejos (w : Z) (reloj : nat -> float)
  (cs : list Point) (s : Seat) :
  Forall (fun c => en_tolerancia w s c = false) cs ->
  forall seats k,
    In s seats -> In s (asignar_clusters seats w cs reloj k).
Proof.
  induction 1 as [|c cs F _ IH]; intros seats k I; [exact I|].
  cbn [asignar_clusters]. apply IH. now apply asignar_cluster_lejos.
Qed.

(** ** Expiry *)

Lemma set_nth_In {A : Type} (x : A) (l : list A) :
  forall i b, nth_error l i = Some b -> In x (set_nth i x l).
Proof.
  induction l as [|h l IH]; intros i b E.
  - destruct i; discriminate.
  - destruct i as [|i]; cbn.
    + now left.
    + right. cbn in E. now apply IH with b.
Qed.

Lemma set_nth_keep {A : Type} (x a : A) (l : list A) :
  forall i b, nth_error l i = Some b -> In a l ->
              In a (set_nth i x l) \/ a = b.
Proof.
  induction l as [|h l IH]; intros i b E I; [destruct I|].
  destruct i as [|i]; cbn in *.
  - injection E as <-. destruct I as [->|I]; [now right | left; now right].
  - destruct I as [->|I]; [left; now left|].
    destruct (IH i b E I) as [K | ->]; [left; now right | now right].
Qed.

(** A seat of the registry is still there after one cluster, as it was or
    after the update of this cluster. *)
Lemma asignar_cluster_persiste (seats : list Seat) (w : Z) (c : Point)
  (t : float) (s : Seat) :
  In s seats ->
  In s (asignar_cluster seats w c t) \/
  In (Seat_apply s (fst c, snd c, t)) (asignar_cluster seats w c t).
Proof.
  intros I. unfold asignar_cluster.
  destruct (buscar_asiento seats w c) as [i|].
  - destruct (nth_error seats i) as [b|] eqn:E; [|now left].
    destruct (set_nth_keep (Seat_update b (fst c) (snd c) t) s seats i b E I)
      as [K | ->]; [now left|].
    right. exact (set_nth_In _ seats i b E).
  - left. apply in_or_app. now left.
Qed.

Lemma asignar_clusters_persiste (w : Z) (reloj : nat -> float)
  (cs : list Point) :
  forall seats k s,
    In s seats ->
    exists ms, In (Seat_updates s ms) (asignar_clusters seats w cs reloj k).
Proof.
  induction cs as [|c cs IH]; intros seats k s I.
  - exists []. exact I.
  - cbn [asignar_clusters].
    destruct (asignar_cluster_persiste seats w c (reloj k) s I) as [K | K].
    + exact (IH _ (S k) s K).
    + destruct (IH _ (S k) _ K) as (ms & M).
      exists ((fst c, snd c, reloj k) :: ms). exact M.
Qed.

Lemma gestionar_asientos_seats (self : Plugin) (opp_raw : list Item)
  (w h : Z) (now : float) (reloj : nat -> float) :
  (0 < w)%Z -> (0 < h)%Z ->
  seats (fst (gestionar_asientos self opp_raw w h now reloj)) =
  filter (vigente now)
    (asignar_clusters (seats self) w (clusters_actuales opp_raw w) reloj 0).
Proof.
  intros Hw Hh. unfold gestionar_asientos.
  replace ((w <=? 0) || (h <=? 0))%Z with false; [reflexivity|].
  symmetry. apply orb_false_intro; apply Z.leb_gt; assumption.
Qed.

(** The filter of step 3, by the age of a seat as the registry holds it
    after the matching, on a frame of positive width and height.
    [matched] is the registry after the matching step of this evaluation:
    every seat it held before is in it, after the updates of the clusters
    that matched it, and as it was when every cluster is out of its
    tolerance.  A candidate of [matched] older than 2 s is not in the registry
    afterwards; a confirmed seat younger than 300 s is; a confirmed seat
    older than 300 s is not.  So no seat kept is older than its timeout,
    and the classifier sees the confirmed seats kept and nothing else. *)
Lemma expiracion_por_edad (self : Plugin) (opp_raw : list Item) (w h : Z)
  (now : float) (reloj : nat -> float) :
  (0 < w)%Z -> (0 < h)%Z ->
  let matched :=
    asignar_clusters (seats self) w (clusters_actuales opp_raw w) reloj 0 in
  let self' := fst (gestionar_asientos self opp_raw w h now reloj) in
  let age := fun s => (now - last_seen_time s)%float in
  (forall s, In s (seats self) -> exists ms, In (Seat_updates s ms) matched)
  /\ (forall s, In s (seats self) ->
        Forall (fun c => en_tolerancia w s c = false)
          (clusters_actuales opp_raw w) ->
        In s matched)
  /\ (forall s, In s matched -> is_confirmed s = false ->
        (SEAT_CANDIDATE_TIMEOUT <? age s)%float = true ->
        ~ In s (seats self'))
  /\ (forall s, In s matched -> is_confirmed s = true ->
        (age s <? SEAT_CONFIRMED_TIMEOUT)%float = true ->
        In s (seats self'))
  /\ (forall s, In s matched -> is_confirmed s = true ->
        (SEAT_CONFIRMED_TIMEOUT <? age s)%float = true ->
        ~ In s (seats self'))
  /\ (forall s, In s (seats self') ->
        In s matched /\
        (if is_confirmed s
         then (SEAT_CONFIRMED_TIMEOUT <? age s)%float = false
         else (SEAT_CANDIDATE_TIMEOUT <? age s)%float = false))
  /\ detected_table_format self' =
       Classifier.inferir_formato_geometrico (puntos_geom w h (seats self'))
  /\ (forall p, In p (puntos_geom w h (seats self')) ->
        exists s, In s (seats self') /\ is_confirmed s = true /\
                  p = punto_geom w h s).
Proof.
  intros Hw Hh matched self' age.
  assert (E : seats self' = filter (vigente now) matched)
    by (apply gestionar_asientos_seats; assumption).
  split; [|split; [|split; [|split; [|split; [|split; [|split]]]]]].
  - intros s I. now apply asignar_clusters_persiste.
  - intros s I F. now apply asignar_clusters_lejos.
  - intros s _ C T I. rewrite E in I. apply filter_In in I.
    destruct I as [_ V]. unfold vigente in V. rewrite C in V.
    apply ltb_asym in T. fold (age s) in V. congruence.
  - intros s I C T. rewrite E. apply filter_In. split; [exact I|].
    unfold vigente. now rewrite C.
  - intros s _ C T I. rewrite E in I. apply filter_In in I.
    destruct I as [_ V]. unfold vigente in V. rewrite C in V.
    apply ltb_asym in T. fold (age s) in V. congruence.
  - intros s I. rewrite E in I. apply filter_In in I.
    destruct I as [I V]. split; [exact I|].
    unfold vigente in V.
    destruct (is_confirmed s); now apply ltb_asym.
  - subst self'. unfold gestionar_asientos.
    replace ((w <=? 0) || (h <=? 0))%Z with false; [reflexivity|].
    symmetry. apply orb_false_intro; apply Z.leb_gt; assumption.
  - intros p I. unfold puntos_geom in I. apply in_map_iff in I.
    destruct I as (s & <- & I). apply filter_In in I.
    exists s. tauto.
Qed.

Lemma expiracion_por_edad_sin_detecciones :
  let self := registro_ejemplo in
  let matched :=
    asignar_clusters (seats self) 1920 (clusters_actuales [] 1920)
      reloj_ejemplo 0 in
  let self' :=
    fst (gestionar_asientos self [] 1920 1080 400 reloj_ejemplo) in
  let age := fun s => (400 - last_seen_time s)%float in
  (forall s, In s (seats self) -> exists ms, In (Seat_updates s ms) matched)
  /\ (forall s, In s (seats self) ->
        Forall (fun c => en_tolerancia 1920 s c = false)
          (clusters_actuales [] 1920) ->
        In s matched)
  /\ (forall s, In s matched -> is_confirmed s = false ->
        (SEAT_CANDIDATE_TIMEOUT <? age s)%float = true ->
        ~ In s (seats self'))
  /\ (forall s, In s matched -> is_confirmed s = true ->
        (age s <? SEAT_CONFIRMED_TIMEOUT)%float = true ->
        In s (seats self'))
  /\ (forall s, In s matched -> is_confirmed s = true ->
        (SEAT_CONFIRMED_TIMEOUT <? age s)%float = true ->
        ~ In s (seats self'))
  /\ (forall s, In s (seats self') ->
        In s matched /\
        (if is_confirmed s
         then (SEAT_CONFIRMED_TIMEOUT <? age s)%float = false
         else (SEAT_CANDIDATE_TIMEOUT <? age s)%float = false))
  /\ detected_table_format self' =
       Classifier.inferir_formato_geometrico
         (puntos_geom 1920 1080 (seats self'))
  /\ (forall p, In p (puntos_geom 1920 1080 (seats self')) ->
        exists s, In s (seats self') /\ is_confirmed s = true /\
                  p = punto_geom 1920 1080 s).
Proof.
  apply (expiracion_por_edad registro_ejemplo [] 1920 1080 400
           reloj_ejemplo); lia.
Defined.

(** On that evaluation only the seat matched 50 s ago is left. *)
Example registro_ejemplo_despues :
  seats (fst (gestionar_asientos registro_ejemplo [] 1920 1080 400
                reloj_ejemplo)) =
  [mkSeat 900 300 350 12 true].
Proof. vm_compute. reflexivity. Qed.

(** ** Degenerate frames *)

(** C5, as the code has it: on a frame of width or height 0 (or below)
    the evaluation does nothing at all: no matching, no expiry, no new
    classification; the registry is returned as it was, with count 0. *)
Theorem frame_degenerado_sin_efecto (self : Plugin) (opp_raw : list Item)
  (w h : Z) (now : float) (reloj : nat -> float) :
  (w <= 0 \/ h <= 0)%Z ->
  gestionar_asientos self opp_raw w h now reloj = (self, 0%Z).
Proof.
  intros H. unfold gestionar_asientos.
  replace ((w <=? 0) || (h <=? 0))%Z with true; [reflexivity|].
  symmetry. apply orb_true_iff.
  destruct H as [H|H]; [left | right]; now apply Z.leb_le.
Qed.

Lemma frame_degenerado_sin_efecto_witness :
  gestionar_asientos registro_ejemplo [] 0 1080 400 reloj_ejemplo =
  (registro_ejemplo, 0%Z).
Proof.
  apply (frame_degenerado_sin_efecto registro_ejemplo [] 0 1080 400
           reloj_ejemplo).
  left. lia.
Defined.

(** C5 as stated fails: the candidate last matched 10 s ago and the
    confirmed seat last matched 400 s ago are past their timeouts and a
    tick on a 1920x1080 frame removes them, but a tick on a frame of
    width 0 keeps both. *)
Lemma frame_degenerado_no_expira :
  let viejo := mkSeat 300 400 390 3 false in
  let perdido := mkSeat 1500 400 0 9 true in
  In viejo (seats registro_ejemplo) /\
  In perdido (seats registro_ejemplo) /\
  (SEAT_CANDIDATE_TIMEOUT <? 400 - last_seen_time viejo)%float = true /\
  (SEAT_CONFIRMED_TIMEOUT <? 400 - last_seen_time perdido)%float = true /\
  ~ In viejo (seats (fst (gestionar_asientos registro_ejemplo [] 1920 1080
                            400 reloj_ejemplo))) /\
  ~ In perdido (seats (fst (gestionar_asientos registro_ejemplo [] 1920 1080
                              400 reloj_ejemplo))) /\
  In viejo (seats (fst (gestionar_asientos registro_ejemplo [] 0 1080
                          400 reloj_ejemplo))) /\
  In perdido (seats (fst (gestionar_asientos registro_ejemplo [] 0 1080
                            400 reloj_ejemplo))).
Proof.
  cbv zeta. rewrite registro_ejemplo_despues.
  change (gestionar_asientos registro_ejemplo [] 0 1080 400 reloj_ejemplo)
    with (registro_ejemplo, 0%Z).
  cbn [fst seats registro_ejemplo].
  repeat split; try (vm_compute; reflexivity).
  - now left.
  - right; right; now left.
  - intros [E|[]]. discriminate E.
  - intros [E|[]]. discriminate E.
  - now left.
  - right; right; now left.
Qed.

End RegistryFacts.

(* ================================================================== *)
(** * The table-format classifier *)
(* ================================================================== *)

Module ClassifierFacts.

Import PyFloat FloatFacts Classifier Props Ejemplos.
Local Open Scope float_scope.

(** ** The scan over the layout table *)

Lemma scan_cons (pts : list Point) (e : string * list Point)
  (table : list (string * list Point)) (acc : string * float) :
  scan (e :: table) pts acc = scan table pts (scan_step pts acc e).
Proof. reflexivity. Qed.

Lemma scan_app (pts : list Point) (t1 t2 : list (string * list Point))
  (acc : string * float) :
  scan (t1 ++ t2) pts acc = scan t2 pts (scan t1 pts acc).
Proof. unfold scan. apply fold_left_app. Qed.

(** One step either keeps the accumulator or installs a layout that has a
    matched point and a strictly smaller score. *)
Lemma scan_step_cases (pts : list Point) (acc : string * float)
  (nombre : string) (layout : list Point) :
  (scan_step pts acc (nombre, layout) = acc /\
   ((matches layout pts <= 0)%Z \/
    (score layout pts <? snd acc) = false)) \/
  (scan_step pts acc (nombre, layout) = (nombre, score layout pts) /\
   (0 < matches layout pts)%Z /\
   (score layout pts <? snd acc) = true).
Proof.
  unfold scan_step.
  destruct (0 <? matches layout pts)%Z eqn:M.
  - apply Z.ltb_lt in M.
    destruct (score layout pts <? snd acc) eqn:L.
    + right. auto.
    + left. auto.
  - apply Z.ltb_ge in M. left. auto.
Qed.

Lemma no_mayor_trans {a b c : float} :
  no_mayor a b -> no_mayor b c -> no_mayor a c.
Proof.
  intros [H1 | ->] [H2 | ->]; unfold no_mayor; auto.
  left. exact (ltb_trans H1 H2).
Qed.

Lemma no_mayor_ltb_false {s a b : float} :
  no_mayor a b -> (s <? b) = false -> (s <? a) = false.
Proof.
  intros [H | ->] F; [|exact F].
  destruct (s <? a) eqn:E; [|reflexivity].
  rewrite (ltb_trans E H) in F. discriminate.
Qed.

(** After the scan: the result is the start value or a layout of the
    table with a matched point; its score is not above the start value;
    and no layout of the table with a matched point scores below it. *)
Lemma scan_inv (pts : list Point) (table : list (string * list Point)) :
  forall acc,
    (scan table pts acc = acc \/
     exists nombre layout,
       In (nombre, layout) table /\ (0 < matches layout pts)%Z /\
       (score layout pts <? snd acc) = true /\
       scan table pts acc = (nombre, score layout pts)) /\
    no_mayor (snd (scan table pts acc)) (snd acc) /\
    (forall nombre layout,
       In (nombre, layout) table -> (0 < matches layout pts)%Z ->
       (score layout pts <? snd (scan table pts acc)) = false).
Proof.
  induction table as [|[n l] table IH]; intros acc.
  - split; [now left|]. split; [now right|]. intros ? ? [].
  - rewrite scan_cons.
    destruct (IH (scan_step pts acc (n, l))) as (O & M & B).
    destruct (scan_step_cases pts acc n l) as [[E C] | (E & Hm & Hs)].
    + rewrite E in *. split; [|split].
      * destruct O as [O | (n' & l' & I & Hm' & Hs' & R)]; [now left|].
        right. exists n', l'. repeat split; auto. now right.
      * exact M.
      * intros n' l' [I | I] Hm'.
        -- injection I as <- <-. destruct C as [C | C]; [lia|].
           exact (no_mayor_ltb_false M C).
        -- now apply (B n' l').
    + rewrite E in *. cbn [snd] in *. split; [|split].
      * right.
        destruct O as [O | (n' & l' & I & Hm' & Hs' & R)].
        -- exists n, l. repeat split; auto. now left.
        -- exists n', l'. repeat split; auto.
           ++ now right.
           ++ exact (ltb_trans Hs' Hs).
      * apply (no_mayor_trans M). now left.
      * intros n' l' [I | I] Hm'.
        -- injection I as <- <-.
           exact (no_mayor_ltb_false M (ltb_irrefl (score l pts))).
        -- now apply (B n' l').
Qed.

(** The first layout whose score is strictly below everything before it
    and not above anything after it is the result. *)
Lemma scan_primero (pts : list Point) (nombre : string)
  (layout : list Point) (t2 : list (string * list Point)) :
  forall (t1 : list (string * list Point)) (acc : string * float),
    (0 < matches layout pts)%Z ->
    (score layout pts <? snd acc) = true ->
    (forall n l, In (n, l) t1 -> (0 < matches l pts)%Z ->
                 (score layout pts <? score l pts) = true) ->
    (forall n l, In (n, l) t2 -> (0 < matches l pts)%Z ->
                 (score l pts <? score layout pts) = false) ->
    scan (t1 ++ (nombre, layout) :: t2) pts acc =
    (nombre, score layout pts).
Proof.
  intros t1 acc Hm Hacc H1 H2. rewrite scan_app, scan_cons.
  assert (L : (score layout pts <? snd (scan t1 pts acc)) = true).
  { destruct (scan_inv pts t1 acc) as ([O | (n & l & I & Hm' & _ & R)] & _).
    - now rewrite O.
    - rewrite R. cbn [snd]. now apply (H1 n l). }
  destruct (scan_step_cases pts (scan t1 pts acc) nombre layout)
    as [[_ [C | C]] | (E & _ & _)]; [lia | congruence |].
  rewrite E.
  destruct (scan_inv pts t2 (nombre, score layout pts))
    as ([O | (n & l & I & Hm' & Hs' & _)] & _); [exact O|].
  cbn [snd] in Hs'. rewrite (H2 n l I Hm') in Hs'. discriminate.
Qed.

(** ** The layout table *)

Lemma GG_nombres (n : string) (l : list Point) :
  In (n, l) GG_LAYOUTS -> n <> DETECTANDO /\ n <> "Custom"%string.
Proof.
  assert (T : forallb (fun e => negb (String.eqb (fst e) DETECTANDO) &&
                               negb (String.eqb (fst e) "Custom"))
                GG_LAYOUTS = true) by reflexivity.
  rewrite forallb_forall in T. intros I. specialize (T _ I). cbn [fst] in T.
  apply andb_prop in T. destruct T as [T1 T2].
  apply negb_true_iff in T1, T2. apply String.eqb_neq in T1, T2. auto.
Qed.

Lemma inferir_no_vacio (pts : list Point) :
  pts <> [] ->
  inferir_formato_geometrico pts =
  if 3.0 <? snd (mejor pts) then DETECTANDO else fst (mejor pts).
Proof.
  intros N. unfold inferir_formato_geometrico.
  destruct pts as [|p ps]; [congruence|].
  now destruct (mejor (p :: ps)) as [f m].
Qed.


(** C7, as the code has it: the classifier answers "Detectando..." exactly
    when the input is empty or no layout with a matched point scores at
    most 3.0, the rejection ceiling; a matched point alone does not make a
    layout win.  Any other answer is the name of a layout of the table
    that has a matched point, a score of at most 3.0 and no competitor
    strictly below it. *)
Theorem unresolved_iff_sobre_techo (pts : list Point) :
  (inferir_formato_geometrico pts = DETECTANDO <->
   pts = [] \/
   forall n l, In (n, l) GG_LAYOUTS ->
               (0 < matches l (puntos_test pts))%Z ->
               (score l (puntos_test pts) <=? 3.0) = false) /\
  (inferir_formato_geometrico pts <> DETECTANDO ->
   exists l,
     In (inferir_formato_geometrico pts, l) GG_LAYOUTS /\
     (0 < matches l (puntos_test pts))%Z /\
     (score l (puntos_test pts) <=? 3.0) = true /\
     forall n' l', In (n', l') GG_LAYOUTS ->
                   (0 < matches l' (puntos_test pts))%Z ->
                   (score l' (puntos_test pts) <?
                    score l (puntos_test pts)) = false).
Proof.
  destruct pts as [|p ps].
  { split; [split; [now left | reflexivity]|]. intros H. now destruct H. }
  set (pts := p :: ps). assert (N : pts <> []) by discriminate.
  rewrite (inferir_no_vacio pts N).
  destruct (scan_inv (puntos_test pts) GG_LAYOUTS ("Custom"%string, inf))
    as (O & _ & B).
  fold (mejor pts) in O, B.
  destruct (3.0 <? snd (mejor pts)) eqn:T.
  - (* above the ceiling *)
    split; [|congruence]. split; [|reflexivity].
    intros _. right. intros n l I Hm.
    destruct (score l (puntos_test pts) <=? 3.0) eqn:L; [|reflexivity].
    specialize (B n l I Hm). rewrite (leb_ltb_trans L T) in B.
    discriminate B.
  - (* at or below the ceiling: a layout of the table won *)
    destruct O as [O | (n & l & I & Hm & Hs & R)].
    { rewrite O in T. discriminate T. }
    rewrite R in *. cbn [fst snd] in *.
    assert (L : (score l (puntos_test pts) <=? 3.0) = true).
    { apply ltb_false_leb; [exact (ltb_is_num_l Hs) | reflexivity | exact T]. }
    split.
    + split.
      * intros E. destruct (GG_nombres n l I) as [D _]. congruence.
      * intros [E | A]; [congruence|].
        rewrite (A n l I Hm) in L. discriminate.
    + intros _. exists l. auto.
Qed.

Lemma unresolved_iff_sobre_techo_witness :
  inferir_formato_geometrico puntos_perdido = DETECTANDO /\
  exists l,
    In (inferir_formato_geometrico puntos_pareja, l)
      GG_LAYOUTS /\
    (0 < matches l (puntos_test puntos_pareja))%Z /\
    (score l (puntos_test puntos_pareja) <=? 3.0) = true.
Proof.
  split.
  - apply (proj1 (unresolved_iff_sobre_techo puntos_perdido)).
    right. intros n l I _. cbn in I.
    repeat (destruct I as [I | I];
            [injection I as <- <-; vm_compute; reflexivity|]).
    destruct I.
  - destruct (proj2 (unresolved_iff_sobre_techo puntos_pareja))
      as (l & I & M & S & _).
    + vm_compute. discriminate.
    + exists l. auto.
Defined.

(** C7 as stated fails: with the hero point and one stray point, every
    layout has a matched point, and the classifier still answers
    "Detectando...". *)
Lemma unresolved_con_punto_casado :
  let pts := puntos_perdido in
  ~ (inferir_formato_geometrico pts = DETECTANDO <->
     forall n l, In (n, l) GG_LAYOUTS ->
                 matches l (puntos_test pts) = 0%Z).
Proof.
  intros pts [H _].
  assert (E : inferir_formato_geometrico pts = DETECTANDO)
    by (vm_compute; reflexivity).
  specialize (H E "3-Max"%string
                [(0.50, 0.68); (0.20, 0.35); (0.80, 0.35)]
                (or_introl eq_refl)).
  vm_compute in H. discriminate H.
Qed.

(** What happens there: one matched point, one unmatched, a score above
    5 for every layout. *)
Example scores_con_punto_casado :
  let pts := puntos_perdido in
  map (fun e => (matches (snd e) (puntos_test pts),
                 3.0 <? score (snd e) (puntos_test pts))) GG_LAYOUTS =
  repeat (1%Z, true) 6.
Proof. vm_compute. reflexivity. Qed.

(** ** Round trip on the layouts' own coordinates *)

(** C3 at its failing input.  The first five layouts are recognized from
    their own coordinates with score 0.  The 9-Max coordinates are not:
    the 6-Max layout matches all nine points, which makes its
    [empty_seats_penalty] (7 - 9) * 0.1 negative and its score negative,
    below the score 0 of 9-Max itself; the answer is "6-Max". *)
Theorem roundtrip_salvo_9max :
  map (fun e => (inferir_formato_geometrico (snd e), snd (mejor (snd e))))
    (firstn 5 GG_LAYOUTS) =
  map (fun e => (fst e, 0)) (firstn 5 GG_LAYOUTS) /\
  (forall l9 l6,
     In ("9-Max"%string, l9) GG_LAYOUTS ->
     In ("6-Max"%string, l6) GG_LAYOUTS ->
     puntos_test l9 = l9 /\
     inferir_formato_geometrico l9 = "6-Max"%string /\
     matches l6 l9 = 9%Z /\
     score l9 l9 = 0 /\
     (score l6 l9 <? 0) = true).
Proof.
  split; [vm_compute; reflexivity|].
  intros l9 l6 I9 I6.
  cbn in I9, I6.
  repeat (destruct I9 as [I9 | I9]; [try discriminate I9|]);
    [|destruct I9].
  repeat (destruct I6 as [I6 | I6]; [try discriminate I6|]);
    [|destruct I6].
  injection I9 as <-. injection I6 as <-.
  vm_compute. repeat split; reflexivity.
Qed.

(** ** Ties *)

Lemma lista_unica {A B : Type} (t : list (A * B)) :
  NoDup (map fst t) ->
  forall a b b', In (a, b) t -> In (a, b') t -> b = b'.
Proof.
  induction t as [|[a0 b0] t IH]; intros N a b b' I I'; [destruct I|].
  cbn in N. apply NoDup_cons_iff in N. destruct N as [N0 N].
  destruct I as [I | I], I' as [I' | I'].
  - congruence.
  - injection I as <- <-. destruct N0.
    change a0 with (fst (a0, b')). now apply in_map.
  - injection I' as <- <-. destruct N0.
    change a0 with (fst (a0, b)). now apply in_map.
  - now apply (IH N a).
Qed.

Lemma ordenada_antes {A : Type} (R : A -> A -> Prop) (a : A)
  (t2 : list A) :
  forall t1, StronglySorted R (t1 ++ a :: t2) ->
             forall x, In x t1 -> R x a.
Proof.
  induction t1 as [|y t1 IH]; intros S x I; [destruct I|].
  cbn in S. apply StronglySorted_inv in S. destruct S as [S F].
  destruct I as [<- | I].
  - rewrite Forall_forall in F. apply F. apply in_or_app. right. now left.
  - now apply IH.
Qed.

(** The table lists each name once, by ascending number of seats. *)
Lemma GG_nombres_NoDup : NoDup (map fst GG_LAYOUTS).
Proof.
  cbn. repeat constructor; cbn; intros H;
    repeat (destruct H as [H | H]; [discriminate H|]); exact H.
Qed.

Lemma GG_por_asientos : StronglySorted menos_asientos GG_LAYOUTS.
Proof.
  unfold GG_LAYOUTS, menos_asientos.
  repeat constructor; cbn; lia.
Qed.

Local Open Scope Z_scope.

Lemma dos_en_orden {A : Type} (a b : A) (l : list A) :
  In a l -> In b l -> a <> b ->
  (exists t1 t2 t3, l = t1 ++ a :: t2 ++ b :: t3) \/
  (exists t1 t2 t3, l = t1 ++ b :: t2 ++ a :: t3).
Proof.
  intros Ia Ib N. destruct (in_split _ _ Ia) as (l1 & l2 & E).
  rewrite E in Ib. apply in_app_or in Ib.
  destruct Ib as [Ib | [Ib | Ib]].
  - right. destruct (in_split _ _ Ib) as (t1 & t2 & E1).
    exists t1, t2, l2. rewrite E, E1, <- app_assoc. reflexivity.
  - congruence.
  - left. destruct (in_split _ _ Ib) as (t2 & t3 & E1).
    exists l1, t2, t3. rewrite E, E1. reflexivity.
Qed.

Lemma antes_menos_asientos (a b : string * list Point) :
  antes a b -> (List.length (snd a) <= List.length (snd b))%nat.
Proof.
  intros (t1 & t2 & t3 & E). pose proof GG_por_asientos as SO.
  rewrite E in SO.
  replace (t1 ++ a :: t2 ++ b :: t3) with ((t1 ++ a :: t2) ++ b :: t3) in SO
    by (rewrite <- app_assoc; reflexivity).
  apply (ordenada_antes menos_asientos b t3 (t1 ++ a :: t2) SO a).
  apply in_or_app. right. now left.
Qed.

Lemma antes_nombres (a b : string * list Point) :
  antes a b ->
  forall t1 t2 t3, GG_LAYOUTS = t1 ++ a :: t2 ++ b :: t3 ->
  (forall n l, In (n, l) (t1 ++ t2 ++ t3) -> n <> fst a /\ n <> fst b) /\
  fst a <> fst b.
Proof.
  intros _ t1 t2 t3 E. pose proof GG_nombres_NoDup as ND. rewrite E in ND.
  rewrite map_app in ND. cbn [map] in ND. rewrite map_app in ND.
  cbn [map] in ND.
  pose proof (NoDup_remove_2 _ _ _ ND) as Na.
  apply NoDup_remove_1 in ND.
  rewrite app_assoc in ND.
  pose proof (NoDup_remove_2 _ _ _ ND) as Nb.
  split.
  - intros n l I. split; intros ->.
    + apply Na. apply in_app_or in I. apply in_or_app.
      destruct I as [I | I]; [left; now apply (in_map fst _ (fst a, l)) |].
      right. apply in_app_or in I. apply in_or_app.
      destruct I as [I | I]; [left; now apply (in_map fst _ (fst a, l)) |].
      right. right. now apply (in_map fst _ (fst a, l)).
    + apply Nb. apply in_app_or in I. apply in_or_app.
      destruct I as [I | I].
      * left. apply in_or_app. left. now apply (in_map fst _ (fst b, l)).
      * apply in_app_or in I. destruct I as [I | I].
        -- left. apply in_or_app. right.
           now apply (in_map fst _ (fst b, l)).
        -- right. now apply (in_map fst _ (fst b, l)).
  - intros F. apply Na. apply in_or_app. right. apply in_or_app. right.
    left. now symmetry.
Qed.

(** The tie goes to the layout that comes first. *)
Lemma empate_primero (pts : list Point) (a b : string * list Point) :
  pts <> [] -> empate pts a b -> antes a b ->
  inferir_formato_geometrico pts = fst a.
Proof.
  intros N (Ia & Ib & Nab & Ma & Mb & Heq & Htecho & Hotros) Hab.
  destruct Hab as (t1 & t2 & t3 & E).
  destruct (antes_nombres a b (ex_intro _ t1 (ex_intro _ t2
              (ex_intro _ t3 E))) t1 t2 t3 E) as [U _].
  destruct a as [nA lA], b as [nB lB]. cbn [fst snd] in *.
  set (P := puntos_test pts) in *.
  assert (M : mejor pts = (nA, score lA P)).
  { unfold mejor. fold P. rewrite E. apply scan_primero.
    - exact Ma.
    - cbn [snd]. apply (ltb_trans (y := 3.0%float) Htecho).
      vm_compute. reflexivity.
    - intros n l I Hm.
      destruct (U n l) as [U1 U2]; [apply in_or_app; now left |].
      apply (Hotros n l); auto. rewrite E. apply in_or_app. now left.
    - intros n l I Hm. apply in_app_or in I.
      destruct I as [I | [I | I]].
      + destruct (U n l) as [U1 U2];
          [apply in_or_app; right; apply in_or_app; now left |].
        apply ltb_asym. apply (Hotros n l); auto.
        rewrite E. apply in_or_app. right. right. apply in_or_app. now left.
      + injection I as <- <-. exact (eqb_ltb_false Heq).
      + destruct (U n l) as [U1 U2];
          [apply in_or_app; right; apply in_or_app; now right |].
        apply ltb_asym. apply (Hotros n l); auto.
        rewrite E. apply in_or_app. right. right. apply in_or_app.
        right. now right. }
  rewrite (inferir_no_vacio pts N), M. cbn [fst snd].
  now rewrite (ltb_asym Htecho).
Qed.

Lemma empate_sym (pts : list Point) (a b : string * list Point) :
  empate pts a b -> empate pts b a.
Proof.
  intros (Ia & Ib & Nab & Ma & Mb & Heq & Htecho & Hotros).
  split; [exact Ib |]. split; [exact Ia |]. split; [congruence |].
  split; [exact Mb |]. split; [exact Ma |].
  split; [exact (eqb_sym Heq) |].
  split; [exact (eqb_ltb_l Heq Htecho) |].
  intros n l I N1 N2 Hm. apply (eqb_ltb_l Heq).
  apply (Hotros n l); assumption.
Qed.

(** C8, as the code has it.  Two layouts of the table tie on an input:
    each has a matched point, their scores compare equal, below the
    ceiling 3.0 and strictly below the score of every other layout with
    a matched point.  One of the two comes before the other in the
    table, and the classifier answers that one.  It never has more
    seats than the other, so whenever the two differ in seats the
    answer is the one with fewer; 8-Max and 9-Max hold nine coordinates
    each, and on a tie of these two the answer is 8-Max. *)
Theorem desempate_primero_en_tabla (pts : list Point)
  (a b : string * list Point) :
  pts <> [] -> empate pts a b ->
  (antes a b \/ antes b a) /\
  (antes a b -> inferir_formato_geometrico pts = fst a /\
                (List.length (snd a) <= List.length (snd b))%nat) /\
  (antes b a -> inferir_formato_geometrico pts = fst b /\
                (List.length (snd b) <= List.length (snd a))%nat) /\
  ((List.length (snd a) < List.length (snd b))%nat ->
   inferir_formato_geometrico pts = fst a) /\
  ((List.length (snd b) < List.length (snd a))%nat ->
   inferir_formato_geometrico pts = fst b) /\
  (fst a = "8-Max" -> fst b = "9-Max" ->
   inferir_formato_geometrico pts = "8-Max" /\
   List.length (snd a) = List.length (snd b)).
Proof.
  intros N T. pose proof T as (Ia & Ib & Nab & _).
  assert (Nab' : a <> b) by congruence.
  pose proof (dos_en_orden a b GG_LAYOUTS Ia Ib Nab') as O.
  assert (A1 : antes a b -> inferir_formato_geometrico pts = fst a /\
                (List.length (snd a) <= List.length (snd b))%nat).
  { intros H. split; [exact (empate_primero pts a b N T H) |
                      now apply antes_menos_asientos]. }
  assert (A2 : antes b a -> inferir_formato_geometrico pts = fst b /\
                (List.length (snd b) <= List.length (snd a))%nat).
  { intros H. split;
      [exact (empate_primero pts b a N (empate_sym pts a b T) H) |
       now apply antes_menos_asientos]. }
  split; [exact O |]. split; [exact A1 |]. split; [exact A2 |].
  split; [| split].
  - intros L. destruct O as [H | H]; [now apply A1 |].
    apply A2 in H. lia.
  - intros L. destruct O as [H | H]; [apply A1 in H; lia | now apply A2].
  - intros Ea Eb. destruct a as [nA lA], b as [nB lB].
    cbn [fst snd] in *. subst nA nB.
    assert (La : lA = snd (nth 4 GG_LAYOUTS ("", []))).
    { apply (lista_unica GG_LAYOUTS GG_nombres_NoDup "8-Max");
        [exact Ia |]. cbn. do 4 right. left. reflexivity. }
    assert (Lb : lB = snd (nth 5 GG_LAYOUTS ("", []))).
    { apply (lista_unica GG_LAYOUTS GG_nombres_NoDup "9-Max");
        [exact Ib |]. cbn. do 5 right. left. reflexivity. }
    assert (Hab : antes ("8-Max", lA) ("9-Max", lB)).
    { exists (firstn 4 GG_LAYOUTS), [], []. rewrite La, Lb. reflexivity. }
    destruct (A1 Hab) as [R _]. split; [exact R |].
    rewrite La, Lb. reflexivity.
Qed.

Ltac otros_por_encima :=
  let n := fresh "n" in let l := fresh "l" in let I := fresh "I" in
  let N1 := fresh "N" in let N2 := fresh "N" in
  intros n l I N1 N2 _; cbn in I, N1, N2;
  repeat (destruct I as [I | I];
          [injection I as <- <-; try congruence; vm_compute; reflexivity |]);
  destruct I.

Lemma empate_8_9 : empate puntos_8_9 (layout_n 4) (layout_n 5).
Proof.
  split; [apply nth_In; cbn; lia |]. split; [apply nth_In; cbn; lia |].
  split; [cbn; discriminate |].
  split; [vm_compute; reflexivity |]. split; [vm_compute; reflexivity |].
  split; [vm_compute; reflexivity |]. split; [vm_compute; reflexivity |].
  otros_por_encima.
Qed.

Lemma empate_3_4 : empate puntos_empate (layout_n 0) (layout_n 1).
Proof.
  split; [apply nth_In; cbn; lia |]. split; [apply nth_In; cbn; lia |].
  split; [cbn; discriminate |].
  split; [vm_compute; reflexivity |]. split; [vm_compute; reflexivity |].
  split; [vm_compute; reflexivity |]. split; [vm_compute; reflexivity |].
  otros_por_encima.
Qed.

Lemma desempate_primero_en_tabla_witness :
  let pts := puntos_8_9 in
  let a := layout_n 4 in
  let b := layout_n 5 in
  (antes a b \/ antes b a) /\
  (antes a b -> inferir_formato_geometrico pts = fst a /\
                (List.length (snd a) <= List.length (snd b))%nat) /\
  (antes b a -> inferir_formato_geometrico pts = fst b /\
                (List.length (snd b) <= List.length (snd a))%nat) /\
  ((List.length (snd a) < List.length (snd b))%nat ->
   inferir_formato_geometrico pts = fst a) /\
  ((List.length (snd b) < List.length (snd a))%nat ->
   inferir_formato_geometrico pts = fst b) /\
  (fst a = "8-Max" -> fst b = "9-Max" ->
   inferir_formato_geometrico pts = "8-Max" /\
   List.length (snd a) = List.length (snd b)).
Proof.
  apply (desempate_primero_en_tabla puntos_8_9 (layout_n 4) (layout_n 5)).
  - discriminate.
  - exact empate_8_9.
Defined.

(** One seat at (0.35, 0.10): 8-Max and 9-Max tie, and neither has fewer
    seats than the other, so the answer, 8-Max, is not the layout with
    fewer seats. *)
Lemma empate_sin_menos_asientos : ~ gana_menos_asientos puntos_8_9.
Proof.
  intros H.
  destruct (H (layout_n 4) (layout_n 5) empate_8_9) as [[_ L] | [_ L]];
    cbn in L; lia.
Qed.

Example empates_ejemplo :
  inferir_formato_geometrico puntos_8_9 = "8-Max" /\
  List.length (snd (layout_n 4)) = 9%nat /\
  List.length (snd (layout_n 5)) = 9%nat /\
  inferir_formato_geometrico puntos_empate = "3-Max" /\
  List.length (snd (layout_n 0)) = 3%nat /\
  List.length (snd (layout_n 1)) = 4%nat.
Proof. vm_compute. repeat split. Qed.

End ClassifierFacts.

(* ================================================================== *)
(** * The detection stabilizer *)
(* ================================================================== *)

Module StabilizerFacts.

Import PyFloat FloatFacts PyList CardDetector Props Ejemplos.
Local Open Scope float_scope.

(** ** Clustering *)

(** C6, as the code has it: a detection joins the first cluster, in
    creation order, whose centroid is less than 30 pixels away on both
    axes (labels extended, sums and count updated, the other clusters
    untouched); when there is none it starts a new cluster at the end. *)
Theorem asignar_primer_cercano (clusters : list Cluster) (it : Item) :
  (existsb (fun cl => cerca cl it) clusters = false ->
   asignar clusters it = clusters ++ [nuevo it]) /\
  (existsb (fun cl => cerca cl it) clusters = true ->
   exists pre cl post,
     clusters = pre ++ cl :: post /\
     forallb (fun c => negb (cerca c it)) pre = true /\
     cerca cl it = true /\
     asignar clusters it = pre ++ unir cl it :: post).
Proof.
  induction clusters as [|c clusters [IHn IHs]].
  - split; [reflexivity | discriminate].
  - cbn [existsb asignar]. destruct (cerca c it) eqn:C; cbn [orb].
    + split; [discriminate|]. intros _.
      exists [], c, clusters. repeat split; auto.
    + split.
      * intros H. now rewrite (IHn H).
      * intros H. destruct (IHs H) as (pre & cl & post & E & F & K & R).
        exists (c :: pre), cl, post. repeat split.
        -- now rewrite E.
        -- cbn [forallb]. now rewrite C, F.
        -- exact K.
        -- now rewrite R.
Qed.

Lemma asignar_primer_cercano_witness :
  asignar clusters_ejemplo (200, 0, "Qs"%string) =
    clusters_ejemplo ++ [nuevo (200, 0, "Qs"%string)] /\
  exists pre cl post,
    clusters_ejemplo = pre ++ cl :: post /\
    forallb (fun c => negb (cerca c deteccion_ejemplo)) pre = true /\
    cerca cl deteccion_ejemplo = true /\
    asignar clusters_ejemplo deteccion_ejemplo =
      pre ++ unir cl deteccion_ejemplo :: post.
Proof.
  split.
  - apply (proj1 (asignar_primer_cercano clusters_ejemplo
                    (200, 0, "Qs"%string))).
    vm_compute. reflexivity.
  - apply (proj2 (asignar_primer_cercano clusters_ejemplo
                    deteccion_ejemplo)).
    vm_compute. reflexivity.
Defined.

Example clusters_ejemplo_origen :
  agrupar [(0, 0, "Ah"%string); (40, 0, "Kd"%string)] = clusters_ejemplo /\
  agrupar [(0, 0, "Ah"%string); (40, 0, "Kd"%string); deteccion_ejemplo] =
  [mkCluster ["Ah"%string; "Qs"%string] 25 0 2;
   mkCluster ["Kd"%string] 40 0 1] /\
  map (fun cl => (cerca cl deteccion_ejemplo,
                  distancia cl deteccion_ejemplo)) clusters_ejemplo =
  [(true, 25); (true, 15)].
Proof. vm_compute. repeat split; reflexivity. Qed.

Lemma no_une_al_mas_cercano :
  ~ une_al_mas_cercano clusters_ejemplo deteccion_ejemplo.
Proof.
  intros H. destruct (H eq_refl) as (pre & cl & post & E & _ & Min & R).
  destruct pre as [|c1 pre].
  - injection E as <- <-.
    specialize (Min (mkCluster ["Kd"%string] 40 0 1)
                  (or_intror (or_introl eq_refl)) eq_refl).
    vm_compute in Min. discriminate Min.
  - destruct pre as [|c2 pre].
    + injection E as <- <- <-. vm_compute in R. discriminate R.
    + destruct pre; discriminate E.
Qed.

(** ** Sorting by a float key *)

Section Orden.

Context {A : Type} (key : A -> float).

Lemma insert_by_In (a x : A) (l : list A) :
  In x (insert_by key a l) <-> x = a \/ In x l.
Proof.
  induction l as [|b l IH]; cbn.
  - intuition.
  - destruct (key b <? key a); cbn; rewrite ?IH; intuition.
Qed.

Lemma sort_by_In (x : A) (l : list A) :
  In x (sort_by key l) <-> In x l.
Proof.
  induction l as [|a l IH]; cbn; [tauto|].
  rewrite insert_by_In, IH. intuition.
Qed.

Lemma insert_by_length (a : A) (l : list A) :
  List.length (insert_by key a l) = S (List.length l).
Proof.
  induction l as [|b l IH]; cbn; [reflexivity|].
  destruct (key b <? key a); cbn; [now rewrite IH | reflexivity].
Qed.

Lemma sort_by_length (l : list A) :
  List.length (sort_by key l) = List.length l.
Proof.
  induction l as [|a l IH]; cbn; [reflexivity|].
  now rewrite insert_by_length, IH.
Qed.



End Orden.

Lemma In_firstn {A : Type} (x : A) (n : nat) :
  forall l, In x (firstn n l) -> In x l.
Proof.
  induction n as [|n IH]; intros [|a l] I; cbn in I; try now destruct I.
  destruct I as [<- | I]; [now left | right; now apply IH].
Qed.



(** ** Hero and board *)


Lemma validos_In (n : nat) (raw : list Item) (x : Item) :
  In x (validos n raw) ->
  In x raw /\ String.eqb (item_label x) card_back = false.
Proof.
  unfold validos. intros I.
  assert (I' : In x (filter
                       (fun x => negb (String.eqb (item_label x) card_back))
                       (sort_by item_x raw))).
  { destruct (n <? List.length _)%nat; [now apply In_firstn in I | exact I]. }
  apply filter_In in I'. destruct I' as [I' B].
  apply (proj1 (sort_by_In item_x x raw)) in I'.
  apply negb_true_iff in B. auto.
Qed.



(** ** Opponent groups *)






(** ** The published observation *)


Example observacion_ejemplo :
  let gs' :=
    st_game_state (snd (process plugin_ejemplo estado_ejemplo reloj_fijo)) in
  gs_my_cards gs' = Some ["Ah"; "Kd"]%string /\
  gs_board gs' = Some ["7s"]%string /\
  gs_opponents_cards gs' =
    Some [["card_back"; "card_back"]; ["Qh"; "Js"]]%string.
Proof. vm_compute. repeat split; reflexivity. Qed.


End StabilizerFacts.

(* ================================================================== *)
(** * The published table format *)
(* ================================================================== *)

Module FormatFacts.

Import CardDetector Orchestrator Props Ejemplos.


















Example table_format_ejemplo :
  map (fun n =>
         let s := fold_left avanzar (ticks_ejemplo n) inicial in
         (publicado s, detected_table_format (detector s)))
    [0; 1; 8; 9]%nat =
  [ (None, DETECTANDO);
    (Some "6-Max"%string, DETECTANDO);
    (Some "6-Max"%string, DETECTANDO);
    (Some "4-Max"%string, "4-Max"%string) ].
Proof. vm_compute. reflexivity. Qed.

End FormatFacts.

(* ================================================================== *)
(** * More of the order of binary64 numbers *)
(* ================================================================== *)

Module FloatMore.

Import PyFloat FloatFacts.
Local Open Scope Z_scope.
Local Open Scope float_scope.

Lemma SFkey_max (f : spec_float) :
  SFkey f = (2, 0, 0)%Z \/ lexlt (SFkey f) (2, 0, 0)%Z.
Proof.
  destruct f as [[|] | [|] | | [|] m e]; simpl; auto; right; lia.
Qed.

Lemma ltb_inf {x y} : (x <? y) = true -> (x <? infinity) = true.
Proof.
  intros H. apply ltb_key in H. destruct H as (Nx & Ny & L).
  apply ltb_key. split; [exact Nx |]. split.
  - vm_compute. discriminate.
  - change (fkey infinity) with (2, 0, 0)%Z.
    destruct (SFkey_max (Prim2SF y)) as [E | M].
    + unfold fkey in L. rewrite E in L. exact L.
    + exact (lexlt_trans L M).
Qed.

Lemma ltb_leb_trans {x y z} :
  (x <? y) = true -> (y <=? z) = true -> (x <? z) = true.
Proof.
  intros H1 H2. apply ltb_key in H1. apply leb_key in H2.
  apply ltb_key. destruct H1 as (Nx & _ & L1), H2 as (_ & Nz & L2).
  repeat split; try assumption.
  destruct L2 as [L2 | E2].
  - exact (lexlt_trans L1 L2).
  - rewrite <- E2. exact L1.
Qed.

End FloatMore.

(* ================================================================== *)
(** * Bounded buffers and the most common value *)
(* ================================================================== *)

Module BufferFacts.

Import PyList MainLoop Nociones.
Local Open Scope Z_scope.

Lemma ultimos_length {A : Type} (n : nat) (l : list A) :
  List.length (ultimos n l) = Nat.min n (List.length l).
Proof. unfold ultimos. rewrite length_skipn. lia. Qed.

Lemma ultimos_corto {A : Type} (n : nat) (l : list A) :
  (List.length l <= n)%nat -> ultimos n l = l.
Proof.
  intros H. unfold ultimos.
  replace (List.length l - n)%nat with 0%nat by lia. reflexivity.
Qed.

Lemma ultimos_app {A : Type} (n : nat) (l r : list A) :
  ultimos n (ultimos n l ++ r) = ultimos n (l ++ r).
Proof.
  destruct (Nat.le_gt_cases (List.length l) n) as [H | H].
  - rewrite (ultimos_corto n l H). reflexivity.
  - unfold ultimos. rewrite !length_app, length_skipn.
    rewrite !skipn_app, length_skipn, skipn_skipn.
    f_equal; f_equal; lia.
Qed.

Lemma ultimos_sufijo {A : Type} (n : nat) (l : list A) :
  exists pre, l = pre ++ ultimos n l.
Proof.
  exists (firstn (List.length l - n) l). unfold ultimos.
  symmetry. apply firstn_skipn.
Qed.

Lemma ultimos_ultimo {A : Type} (n : nat) (l : list A) (x : A) :
  (0 < n)%nat -> exists pre, ultimos n (l ++ [x]) = pre ++ [x].
Proof.
  intros Hn. unfold ultimos. rewrite length_app. simpl.
  rewrite skipn_app.
  replace (List.length l + 1 - n - List.length l)%nat with 0%nat by lia.
  simpl. eexists. reflexivity.
Qed.

Lemma ultimos_fold {A : Type} (n : nat) (xs : list A) :
  forall d, ultimos n (fold_left (deque_append n) xs d) = ultimos n (d ++ xs).
Proof.
  induction xs as [| x xs IH]; intros d; simpl.
  - rewrite app_nil_r. reflexivity.
  - rewrite IH. change (deque_append n d x) with (ultimos n (d ++ [x])).
    rewrite ultimos_app, <- app_assoc. reflexivity.
Qed.

Lemma deque_append_length {A : Type} (n : nat) (d : list A) (x : A) :
  List.length (deque_append n d x) = Nat.min n (S (List.length d)).
Proof.
  change (deque_append n d x) with (ultimos n (d ++ [x])).
  rewrite ultimos_length, length_app. simpl. lia.
Qed.

Lemma deque_append_In {A : Type} (n : nat) (d : list A) (x y : A) :
  In y (deque_append n d x) -> In y d \/ y = x.
Proof.
  change (deque_append n d x) with (ultimos n (d ++ [x])).
  intros H. destruct (ultimos_sufijo n (d ++ [x])) as [pre E].
  assert (I : In y (d ++ [x])) by (rewrite E; apply in_or_app; now right).
  apply in_app_or in I. destruct I as [I | I]; [now left |].
  cbn in I. destruct I as [I | []]. now right.
Qed.

Lemma deque_append_no_vacio {A : Type} (n : nat) (d : list A) (x : A) :
  (0 < n)%nat -> In x (deque_append n d x).
Proof.
  intros Hn. change (deque_append n d x) with (ultimos n (d ++ [x])).
  destruct (ultimos_ultimo n d x Hn) as [pre E]. rewrite E.
  apply in_or_app. right. now left.
Qed.

Lemma deque_append_Forall {A : Type} (P : A -> Prop) (n : nat)
  (d : list A) (x : A) :
  Forall P d -> P x -> Forall P (deque_append n d x).
Proof.
  intros Hd Hx. apply Forall_forall. intros y I.
  apply deque_append_In in I. destruct I as [I | ->]; [| exact Hx].
  exact (proj1 (Forall_forall _ _) Hd y I).
Qed.

Lemma deque_fold {A : Type} (n : nat) (xs : list A) :
  forall d, (List.length d <= n)%nat ->
            fold_left (deque_append n) xs d = ultimos n (d ++ xs).
Proof.
  induction xs as [| x xs IH]; intros d H; simpl.
  - rewrite app_nil_r. symmetry. now apply ultimos_corto.
  - rewrite IH by (rewrite deque_append_length; lia).
    change (deque_append n d x) with (ultimos n (d ++ [x])).
    rewrite ultimos_app, <- app_assoc. reflexivity.
Qed.

Section Moda.

Context {A : Type} (eqb : A -> A -> bool).
Hypothesis eqb_eq : forall a b, eqb a b = true <-> a = b.

Lemma eqb_refl_de (a : A) : eqb a a = true.
Proof. now apply eqb_eq. Qed.

Lemma veces_app (y : A) (l r : list A) :
  veces eqb y (l ++ r) = veces eqb y l + veces eqb y r.
Proof. unfold veces. rewrite filter_app, length_app. lia. Qed.

Lemma veces_pos (y : A) (l : list A) : In y l <-> 0 < veces eqb y l.
Proof.
  unfold veces. split.
  - intros H. assert (I : In y (filter (eqb y) l)).
    { apply filter_In. split; [exact H | apply eqb_refl_de]. }
    destruct (filter (eqb y) l); [destruct I | simpl; lia].
  - intros H. destruct (filter (eqb y) l) as [| z t] eqn:E; [simpl in H; lia |].
    assert (I : In z (filter (eqb y) l)) by (rewrite E; now left).
    apply filter_In in I. destruct I as [I1 I2].
    apply eqb_eq in I2. now subst.
Qed.

Lemma counter_add_keys (x : A) (c : list (A * Z)) :
  map fst (counter_add eqb x c) =
  if existsb (eqb x) (map fst c) then map fst c else map fst c ++ [x].
Proof.
  induction c as [| [y n] c IH]; simpl; [reflexivity |].
  destruct (eqb x y) eqn:E; simpl; [reflexivity |].
  rewrite IH. destruct (existsb (eqb x) (map fst c)); reflexivity.
Qed.

Lemma existsb_eqb_In (x : A) (l : list A) :
  existsb (eqb x) l = true <-> In x l.
Proof.
  rewrite existsb_exists. split.
  - intros [y [I E]]. apply eqb_eq in E. now subst.
  - intros I. exists x. split; [exact I | apply eqb_refl_de].
Qed.

Lemma counter_add_In (x : A) (c : list (A * Z)) :
  NoDup (map fst c) ->
  forall y k, In (y, k) (counter_add eqb x c) ->
    (y <> x /\ In (y, k) c) \/
    (y = x /\ (In (x, k - 1) c \/ (k = 1 /\ ~ In x (map fst c)))).
Proof.
  induction c as [| [z n] c IH]; intros ND y k H; simpl in H.
  - destruct H as [H | []]. inversion H; subst. right. split; [reflexivity |].
    right. split; [reflexivity | intros []].
  - inversion ND as [| ? ? Hz ND']; subst.
    destruct (eqb x z) eqn:E.
    + apply eqb_eq in E. subst z. destruct H as [H | H].
      * inversion H; subst. right. split; [reflexivity |]. left. left.
        f_equal. lia.
      * left. split; [| now right]. intros ->. apply Hz.
        apply in_map_iff. exists (x, k). now split.
    + destruct H as [H | H].
      * inversion H; subst. left. split; [| now left].
        intros ->. rewrite eqb_refl_de in E. discriminate.
      * destruct (IH ND' y k H) as [[N I] | [-> [I | [K N]]]].
        -- left. split; [exact N | now right].
        -- right. split; [reflexivity |]. left. now right.
        -- right. split; [reflexivity |]. right. split; [exact K |].
           simpl. intros [F | F]; [| now apply N].
           subst z. rewrite eqb_refl_de in E. discriminate.
Qed.

Lemma contador_de_add (x : A) (c : list (A * Z)) (l : list A) :
  contador_de eqb c l -> contador_de eqb (counter_add eqb x c) (l ++ [x]).
Proof.
  intros (ND & CNT & KEYS & ORD).
  assert (V : forall y, veces eqb y (l ++ [x]) =
                        veces eqb y l + (if eqb y x then 1 else 0)).
  { intros y. rewrite veces_app. unfold veces at 2. simpl.
    destruct (eqb y x); reflexivity. }
  pose proof (counter_add_keys x c) as K.
  destruct (existsb (eqb x) (map fst c)) eqn:Ex.
  - apply existsb_eqb_In in Ex.
    split; [rewrite K; exact ND |]. split; [| split].
    + intros y k H. rewrite V.
      destruct (counter_add_In x c ND y k H) as [[N I] | [-> [I | [_ N]]]].
      * destruct (eqb y x) eqn:E; [apply eqb_eq in E; contradiction |].
        rewrite (CNT y k I). lia.
      * rewrite eqb_refl_de. rewrite <- (CNT x (k - 1) I). lia.
      * contradiction.
    + intros y. rewrite K, in_app_iff, KEYS. cbn.
      split; [intros [H | [<- | []]]; assumption | intros H; now left].
    + intros y Hy. rewrite K in Hy |- *.
      destruct (ORD y Hy) as (K1 & K2 & pre & post & E1 & E2 & I).
      exists K1, K2, pre, (post ++ [x]). split; [exact E1 |].
      split; [| exact I]. rewrite E2, <- app_assoc. reflexivity.
  - assert (Nx : ~ In x (map fst c)).
    { intros F. apply existsb_eqb_In in F. congruence. }
    split; [| split; [| split]].
    + rewrite K. apply NoDup_app_remove_l with (l := []). simpl.
      apply NoDup_rev in ND. rewrite <- (rev_involutive (map fst c ++ [x])).
      apply NoDup_rev. rewrite rev_app_distr. simpl. constructor.
      * rewrite <- in_rev. exact Nx.
      * exact ND.
    + intros y k H. rewrite V.
      destruct (counter_add_In x c ND y k H) as [[N I] | [-> [I | [-> _]]]].
      * destruct (eqb y x) eqn:E; [apply eqb_eq in E; contradiction |].
        rewrite (CNT y k I). lia.
      * exfalso. apply Nx. apply in_map_iff. exists (x, k - 1). now split.
      * rewrite eqb_refl_de.
        assert (Z0 : ~ 0 < veces eqb x l).
        { intros F. apply veces_pos in F. apply KEYS in F. contradiction. }
        assert (0 <= veces eqb x l) by (unfold veces; lia). lia.
    + intros y. rewrite K, !in_app_iff, KEYS. reflexivity.
    + intros y Hy. rewrite K in Hy |- *. apply in_app_or in Hy.
      destruct Hy as [Hy | Hy].
      * destruct (ORD y Hy) as (K1 & K2 & pre & post & E1 & E2 & I).
        exists K1, (K2 ++ [x]), pre, (post ++ [x]). split; [| split].
        -- rewrite E1, <- app_assoc. reflexivity.
        -- rewrite E2, <- app_assoc. reflexivity.
        -- exact I.
      * cbn in Hy. destruct Hy as [<- | []].
        exists (map fst c), [], l, []. split; [reflexivity |].
        split; [reflexivity |]. intros z Hz. now apply KEYS.
Qed.

Lemma contador_de_fold (r : list A) :
  forall c l, contador_de eqb c l ->
    contador_de eqb (fold_left (fun c x => counter_add eqb x c) r c)
      (l ++ r).
Proof.
  induction r as [| x r IH]; intros c l H; simpl.
  - rewrite app_nil_r. exact H.
  - replace (l ++ x :: r) with ((l ++ [x]) ++ r)
      by (rewrite <- app_assoc; reflexivity).
    apply IH. now apply contador_de_add.
Qed.

Lemma contador_de_Counter (l : list A) : contador_de eqb (Counter eqb l) l.
Proof.
  apply (contador_de_fold l [] []).
  split; [constructor |]. split; [intros ? ? [] |].
  split; [intros y; split; intros [] | intros ? []].
Qed.

Lemma max_primero (rest : list (A * Z)) :
  forall e,
    let m := fold_left (fun m e' => if (snd m <? snd e')%Z then e' else m)
               rest e in
    exists C1 C2, e :: rest = C1 ++ m :: C2 /\
      (forall e', In e' C1 -> snd e' < snd m) /\
      (forall e', In e' C2 -> snd e' <= snd m).
Proof.
  induction rest as [| e2 rest IH]; intros e; simpl.
  - exists [], []. split; [reflexivity |]. split; intros ? [].
  - destruct (Z.ltb_spec (snd e) (snd e2)) as [L | L].
    + specialize (IH e2). cbv zeta in IH.
      destruct IH as (C1 & C2 & E & H1 & H2).
      set (m := fold_left _ rest e2) in *. clearbody m.
      exists (e :: C1), C2. split; [simpl; f_equal; exact E |].
      split; [| exact H2]. intros e' [<- | I]; [| now apply H1].
      destruct C1 as [| c C1]; simpl in E; injection E as E1 E2.
      * rewrite <- E1. exact L.
      * subst c. specialize (H1 e2 (or_introl eq_refl)). lia.
    + specialize (IH e). cbv zeta in IH.
      destruct IH as (C1 & C2 & E & H1 & H2).
      set (m := fold_left _ rest e) in *. clearbody m.
      destruct C1 as [| c C1]; simpl in E; injection E as E1 E2.
      * exists [], (e2 :: C2).
        split; [simpl; rewrite <- E1, <- E2; reflexivity |].
        split; [intros ? [] |]. intros e' [<- | I]; [| now apply H2].
        rewrite <- E1. exact L.
      * subst c. exists (e :: e2 :: C1), C2.
        split; [simpl; rewrite <- E2; reflexivity |].
        split; [| exact H2]. intros e' [<- | [<- | I]].
        -- apply H1. now left.
        -- specialize (H1 e (or_introl eq_refl)). lia.
        -- apply H1. now right.
Qed.

Lemma NoDup_split_unique (y : A) (K1 : list A) :
  forall K2 K1' K2',
    NoDup (K1 ++ y :: K2) -> K1 ++ y :: K2 = K1' ++ y :: K2' -> K1 = K1'.
Proof.
  induction K1 as [| a K1 IH]; intros K2 K1' K2' ND E.
  - destruct K1' as [| b K1']; [reflexivity |].
    simpl in E. inversion E; subst. inversion ND as [| ? ? N _]; subst.
    exfalso. apply N. apply in_or_app. right. now left.
  - destruct K1' as [| b K1'].
    + simpl in E. inversion E; subst. inversion ND as [| ? ? N _]; subst.
      exfalso. apply N. apply in_or_app. right. now left.
    + simpl in E. inversion E; subst. f_equal.
      inversion ND; subst. eapply IH; eassumption.
Qed.

Lemma most_common_moda (l : list A) (dflt : A) :
  l <> [] ->
  let r := most_common eqb l dflt in
  In r l /\
  (forall y, veces eqb y l <= veces eqb r l) /\
  exists pre post,
    l = pre ++ r :: post /\ ~ In r pre /\
    forall y, In y pre -> veces eqb y l < veces eqb r l.
Proof.
  intros Hl r. subst r. unfold most_common.
  destruct (contador_de_Counter l) as (ND & CNT & KEYS & ORD).
  destruct (Counter eqb l) as [| e rest] eqn:EC.
  { destruct l as [| a l]; [congruence |].
    exfalso. apply (proj1 (KEYS a)). now left. }
  destruct (max_primero rest e) as (C1 & C2 & E & H1 & H2).
  cbv zeta in E, H1, H2. set (m := fold_left _ rest e) in *. clearbody m.
  assert (Im : In m (e :: rest)).
  { rewrite E. apply in_or_app. right. now left. }
  assert (Ik : In (fst m) (map fst (e :: rest))) by now apply in_map.
  assert (Vm : snd m = veces eqb (fst m) l).
  { apply CNT. now destruct m. }
  split; [now apply KEYS |]. split.
  - intros y. rewrite <- Vm.
    assert (Hy : 0 <= veces eqb y l) by (unfold veces; lia).
    destruct (Z.eq_dec (veces eqb y l) 0) as [Z0 | Z0].
    { rewrite Z0, Vm. unfold veces. lia. }
    assert (Iy : In y l) by (apply veces_pos; lia).
    apply KEYS in Iy. apply in_map_iff in Iy.
    destruct Iy as [[y' k] [Ey I]]. simpl in Ey. subst y'.
    rewrite <- (CNT y k I). rewrite E in I. apply in_app_or in I.
    destruct I as [I | [Em | I]].
    + specialize (H1 _ I). simpl in H1. lia.
    + rewrite Em. simpl. lia.
    + specialize (H2 _ I). simpl in H2. lia.
  - destruct (ORD _ Ik) as (K1 & K2 & pre & post & E1 & E2 & I).
    assert (EK : map fst (e :: rest) = map fst C1 ++ fst m :: map fst C2).
    { rewrite E, map_app. reflexivity. }
    assert (K1 = map fst C1).
    { eapply NoDup_split_unique; [| rewrite <- E1; exact EK].
      rewrite <- E1. exact ND. }
    subst K1. exists pre, post. split; [exact E2 |].
    assert (NDk : NoDup (map fst C1 ++ fst m :: map fst C2))
      by (rewrite <- EK; exact ND).
    split.
    + intros F. apply I in F. apply NoDup_remove_2 in NDk. apply NDk.
      apply in_or_app. now left.
    + intros y Hy. apply I in Hy. apply in_map_iff in Hy.
      destruct Hy as [[y' k] [Ey Iy]]. simpl in Ey. subst y'.
      rewrite <- Vm. specialize (H1 _ Iy). simpl in H1.
      rewrite <- (CNT y k); [exact H1 |].
      rewrite E. apply in_or_app. now left.
Qed.

End Moda.

End BufferFacts.

(* ================================================================== *)
(** * _consolidar_buffer: what the clusters hold *)
(* ================================================================== *)

Module ConsolidationFacts.

Import PyFloat PyList CardDetector Ejemplos Casos Nociones.
Import BufferFacts FloatFacts.
Local Open Scope Z_scope.

Lemma asignar_total (cls : list Cluster) (it : Item) :
  total (asignar cls it) = total cls + 1.
Proof.
  induction cls as [| cl cls IH]; simpl; [reflexivity |].
  destruct (cerca cl it); simpl; [lia | rewrite IH; lia].
Qed.

Lemma asignar_bien (cls : list Cluster) (it : Item) :
  Forall bien_formado cls -> Forall bien_formado (asignar cls it).
Proof.
  induction cls as [| cl cls IH]; intros H; simpl.
  - constructor; [| constructor]. split; simpl; lia.
  - inversion H as [| ? ? [H1 H2] H3]; subst. destruct (cerca cl it).
    + constructor; [| exact H3]. unfold bien_formado, unir. simpl.
      rewrite length_app. simpl. lia.
    + constructor; [now split | now apply IH].
Qed.

Lemma asignar_length (cls : list Cluster) (it : Item) :
  (List.length cls <= List.length (asignar cls it) <= S (List.length cls))%nat.
Proof.
  induction cls as [| cl cls IH]; simpl; [lia |].
  destruct (cerca cl it); simpl; lia.
Qed.

Lemma asignar_labels (cls : list Cluster) (it : Item) (cl : Cluster)
  (l : string) :
  In cl (asignar cls it) -> In l (labels cl) ->
  (exists cl0, In cl0 cls /\ In l (labels cl0)) \/ l = item_label it.
Proof.
  induction cls as [| c cls IH]; simpl.
  - intros [<- | []] H. simpl in H. destruct H as [<- | []]. now right.
  - destruct (cerca c it).
    + intros [<- | I] H.
      * simpl in H. apply in_app_or in H. destruct H as [H | H].
        -- left. exists c. split; [now left | exact H].
        -- cbn in H. destruct H as [<- | []]. now right.
      * left. exists cl. split; [now right | exact H].
    + intros [<- | I] H.
      * left. exists c. split; [now left | exact H].
      * destruct (IH I H) as [[cl0 [I0 H0]] | E]; [| now right].
        left. exists cl0. split; [now right | exact H0].
Qed.

Lemma agrupar_conserva_desde (items : list Item) :
  forall cls,
    Forall bien_formado cls ->
    let cls' := fold_left asignar items cls in
    total cls' = total cls + Z.of_nat (List.length items) /\
    Forall bien_formado cls' /\
    (List.length cls' <= List.length cls + List.length items)%nat /\
    (forall cl l, In cl cls' -> In l (labels cl) ->
       (exists cl0, In cl0 cls /\ In l (labels cl0)) \/
       In l (map item_label items)).
Proof.
  induction items as [| it items IH]; intros cls H;
    cbn [fold_left List.length map].
  - split; [simpl; lia |]. split; [exact H |]. split; [lia |].
    intros cl l I L. left. now exists cl.
  - destruct (IH (asignar cls it) (asignar_bien cls it H))
      as (T & B & N & P).
    split; [rewrite T, asignar_total; lia |]. split; [exact B |].
    split; [pose proof (asignar_length cls it); lia |].
    intros cl l I L. destruct (P cl l I L) as [[cl0 [I0 L0]] | E].
    + destruct (asignar_labels cls it cl0 l I0 L0) as [E | E];
        [now left | right; now left].
    + right. now right.
Qed.

Lemma total_filtrado (k : Z) (cls : list Cluster) :
  Forall bien_formado cls ->
  k * Z.of_nat (List.length (filter (fun cl => (k <=? count cl)%Z) cls))
  <= total cls.
Proof.
  induction cls as [| cl cls IH]; intros H; simpl; [lia |].
  inversion H as [| ? ? [H1 H2] H3]; subst. specialize (IH H3).
  destruct (Z.leb_spec k (count cl)); cbn [List.length]; simpl total;
    [rewrite Nat2Z.inj_succ; nia | lia].
Qed.

Lemma candidates_In (history : list (list FrameItem)) (r : Region)
  (it : Item) :
  In it (candidates history r) <->
  exists frame, In frame history /\ In (it, r) frame.
Proof.
  unfold candidates. rewrite in_map_iff. split.
  - intros [[it' r'] [E I]]. simpl in E. subst it'.
    apply filter_In in I. destruct I as [I R]. simpl in R.
    apply in_concat in I. destruct I as [frame [F I]].
    exists frame. split; [exact F |].
    destruct r', r; simpl in R; try discriminate; exact I.
  - intros [frame [F I]]. exists (it, r). split; [reflexivity |].
    apply filter_In. split.
    + apply in_concat. now exists frame.
    + simpl. destruct r; reflexivity.
Qed.

Lemma consolidar_region_In (history : list (list FrameItem)) (r : Region)
  (it : Item) :
  In it (consolidar_region history r) ->
  exists cl,
    In cl (agrupar (candidates history r)) /\ 2 <= count cl /\
    bien_formado cl /\ it = resolver cl /\
    (forall l, In l (labels cl) -> visto history r l).
Proof.
  unfold consolidar_region. intros H. apply in_map_iff in H.
  destruct H as [cl [E I]]. apply filter_In in I. destruct I as [I C].
  destruct (agrupar_conserva_desde (candidates history r) [] (Forall_nil _))
    as (_ & B & _ & P).
  exists cl. split; [exact I |]. split.
  { unfold CONFIRMATION_THRESHOLD in C. lia. }
  split; [exact (proj1 (Forall_forall _ _) B cl I) |].
  split; [now symmetry |]. intros l L.
  destruct (P cl l I L) as [[cl0 [[] _]] | M].
  apply in_map_iff in M. destruct M as [it0 [E0 I0]].
  apply candidates_In in I0. destruct I0 as [frame [F I0]].
  exists frame, it0. now split.
Qed.

Lemma resolver_label (cl : Cluster) :
  bien_formado cl ->
  In (item_label (resolver cl)) (labels cl) /\
  forall l, veces String.eqb l (labels cl)
            <= veces String.eqb (item_label (resolver cl)) (labels cl).
Proof.
  intros [B1 B2]. unfold resolver, item_label. simpl.
  assert (N : labels cl <> []).
  { intros E. rewrite E in B1. simpl in B1. lia. }
  destruct (most_common_moda String.eqb String.eqb_eq (labels cl) ""%string N)
    as (I & M & _).
  split; [exact I | exact M].
Qed.

Lemma consolidar_region_visto (history : list (list FrameItem))
  (r : Region) (it : Item) :
  In it (consolidar_region history r) -> visto history r (item_label it).
Proof.
  intros H. destruct (consolidar_region_In history r it H)
    as (cl & _ & _ & B & -> & V).
  apply V. exact (proj1 (resolver_label cl B)).
Qed.

Lemma consolidar_region_length (history : list (list FrameItem))
  (r : Region) :
  (2 * List.length (consolidar_region history r)
   <= List.length (candidates history r))%nat.
Proof.
  unfold consolidar_region. rewrite length_map.
  destruct (agrupar_conserva_desde (candidates history r) [] (Forall_nil _))
    as (T & B & _ & _).
  pose proof (total_filtrado 2 _ B) as H.
  unfold agrupar, CONFIRMATION_THRESHOLD. simpl in T. lia.
Qed.

(** X1. The label of a consolidated detection is the vote of its
    cluster: a label of the cluster, no label of the cluster occurs more
    often, and every label read before its first occurrence occurs
    strictly less often (on a tie the label read first wins). *)
Theorem etiqueta_mas_votada (items : list Item) (cl : Cluster) :
  In cl (agrupar items) ->
  let r := item_label (resolver cl) in
  In r (labels cl) /\
  (forall l, veces String.eqb l (labels cl)
             <= veces String.eqb r (labels cl)) /\
  exists pre post,
    labels cl = pre ++ r :: post /\ ~ In r pre /\
    forall l, In l pre ->
              veces String.eqb l (labels cl) < veces String.eqb r (labels cl).
Proof.
  intros I r.
  destruct (agrupar_conserva_desde items [] (Forall_nil _))
    as (_ & B & _ & _).
  pose proof (proj1 (Forall_forall _ _) B cl I) as [B1 B2].
  assert (N : labels cl <> []).
  { intros E. rewrite E in B1. simpl in B1. lia. }
  exact (most_common_moda String.eqb String.eqb_eq (labels cl) ""%string N).
Qed.

Lemma etiqueta_mas_votada_witness :
  let r := item_label (resolver cluster_ejemplo) in
  In r (labels cluster_ejemplo) /\
  (forall l, veces String.eqb l (labels cluster_ejemplo)
             <= veces String.eqb r (labels cluster_ejemplo)) /\
  exists pre post,
    labels cluster_ejemplo = pre ++ r :: post /\ ~ In r pre /\
    forall l, In l pre ->
              veces String.eqb l (labels cluster_ejemplo)
              < veces String.eqb r (labels cluster_ejemplo).
Proof.
  apply (etiqueta_mas_votada votos_ejemplo cluster_ejemplo).
  vm_compute. left. reflexivity.
Defined.

(** X2. Consolidation loses no detection and invents none: the counts of
    the clusters of a region add up to the number of buffered entries of
    that region, each cluster's count is the number of its labels (at
    least one), there are no more clusters than entries, every resolved
    detection comes from a cluster of at least two entries, and so a
    region yields at most half as many detections as it has buffered
    entries. *)
Theorem consolidacion_conserva (history : list (list FrameItem))
  (r : Region) :
  let items := candidates history r in
  total (agrupar items) = Z.of_nat (List.length items) /\
  Forall bien_formado (agrupar items) /\
  (List.length (agrupar items) <= List.length items)%nat /\
  (2 * List.length (consolidar_region history r)
   <= List.length items)%nat /\
  (forall it, In it (consolidar_region history r) ->
     exists cl, In cl (agrupar items) /\ 2 <= count cl /\
                it = resolver cl).
Proof.
  intros items.
  destruct (agrupar_conserva_desde items [] (Forall_nil _))
    as (T & B & L & _).
  split; [exact T |]. split; [exact B |]. split; [exact L |].
  split; [apply consolidar_region_length |].
  intros it I. destruct (consolidar_region_In history r it I)
    as (cl & I1 & C & _ & E & _).
  exists cl. auto.
Qed.

End ConsolidationFacts.

(* ================================================================== *)
(** * process, step 1: what is collected from a frame *)
(* ================================================================== *)

Module CollectFacts.

Import PyFloat PyList CardDetector Ejemplos Casos Nociones.
Import BufferFacts FloatFacts.
Local Open Scope Z_scope.
Local Open Scope float_scope.

Lemma recolectar_Some (self : Plugin) (w h : Z) (det : Detection)
  (it : Item) (r : Region) :
  recolectar self w h det = Some (it, r) ->
  det_label det = Some (item_label it) /\
  es_label_carta (item_label it) = true /\
  (confianza det <?
   (if String.eqb (item_label it) card_back then MIN_CONFIDENCE_BACK
    else MIN_CONFIDENCE_NORMAL)) = false /\
  (exists x1 y1 x2 y2,
     det_box det = Some [x1; y1; x2; y2] /\
     item_x it = (x1 + x2) / 2.0 /\ item_y it = (y1 + y2) / 2.0) /\
  r = match clasificar_por_layout self (item_x it) (item_y it) w h with
      | Some r' => r'
      | None => match clasificar_por_fallback self (item_y it) h with
                | Some r' => r'
                | None => opponent
                end
      end.
Proof.
  unfold recolectar. fold (confianza det).
  destruct (det_label det) as [l |].
  - destruct (confianza det <? _) eqn:C; [discriminate |].
    destruct (det_box det) as [[| x1 [| y1 [| x2 [| y2 [| ? ?]]]]] |];
      try discriminate.
    destruct (es_label_carta l) eqn:L; [| discriminate].
    intros H. injection H as <- <-. unfold item_label, item_x, item_y.
    simpl. split; [reflexivity |]. split; [exact L |].
    split; [exact C |]. split; [| reflexivity].
    exists x1, y1, x2, y2. repeat split.
  - destruct (confianza det <? _); discriminate.
Qed.

Lemma frame_items_In (self : Plugin) (w h : Z) (dets : list Detection)
  (fi : FrameItem) :
  In fi (frame_items self w h dets) <->
  exists det, In det dets /\ recolectar self w h det = Some fi.
Proof.
  unfold frame_items. rewrite in_flat_map. split.
  - intros [det [I H]]. exists det. split; [exact I |].
    destruct (recolectar self w h det) as [fi' |]; [| destruct H].
    destruct H as [<- | []]. reflexivity.
  - intros [det [I H]]. exists det. split; [exact I |].
    rewrite H. now left.
Qed.

Lemma recolectar_bajo (self : Plugin) (w h : Z) (det : Detection) :
  (confianza det <? MIN_CONFIDENCE_BACK) = true ->
  recolectar self w h det = None.
Proof.
  intros C. destruct (recolectar self w h det) as [[it r] |] eqn:E;
    [| reflexivity].
  destruct (recolectar_Some self w h det it r E) as (_ & _ & F & _).
  destruct (String.eqb (item_label it) card_back); [congruence |].
  assert (T : (confianza det <? MIN_CONFIDENCE_NORMAL) = true).
  { apply (ltb_trans C). vm_compute. reflexivity. }
  congruence.
Qed.

Lemma es_label_carta_In (l : string) :
  es_label_carta l = true <-> In l CARD_LABELS.
Proof.
  unfold es_label_carta. rewrite orb_true_iff, existsb_exists. split.
  - intros [[y [I E]] | E].
    + apply String.eqb_eq in E. now subst.
    + apply String.eqb_eq in E. subst. unfold CARD_LABELS, card_back.
      repeat (try (left; reflexivity); right).
  - intros I. left. exists l. split; [exact I | apply String.eqb_refl].
Qed.

Local Open Scope Z_scope.

(** X3. The confidence filter of the collecting loop.  A detection below
    0.25 is never collected; one below 0.40 is collected only with the
    face-down label.  Every collected entry comes from a detection of the
    frame with the same label, a card label, whose confidence is not
    below 0.25, and not below 0.40 unless the label is the face-down
    one; the loop collects at most one entry per detection. *)
Theorem filtro_de_confianza (self : Plugin) (w h : Z)
  (dets : list Detection) :
  (forall det, (confianza det <? MIN_CONFIDENCE_BACK)%float = true ->
               recolectar self w h det = None) /\
  (forall det, det_label det <> Some card_back ->
               (confianza det <? MIN_CONFIDENCE_NORMAL)%float = true ->
               recolectar self w h det = None) /\
  (forall fi, In fi (frame_items self w h dets) ->
     exists det,
       In det dets /\ recolectar self w h det = Some fi /\
       det_label det = Some (item_label (fst fi)) /\
       In (item_label (fst fi)) CARD_LABELS /\
       (confianza det <? MIN_CONFIDENCE_BACK)%float = false /\
       (item_label (fst fi) <> card_back ->
        (confianza det <? MIN_CONFIDENCE_NORMAL)%float = false)) /\
  (List.length (frame_items self w h dets) <= List.length dets)%nat.
Proof.
  split; [intros det; apply recolectar_bajo |]. split; [| split].
  - intros det L C.
    destruct (recolectar self w h det) as [[it r] |] eqn:E; [| reflexivity].
    destruct (recolectar_Some self w h det it r E) as (El & _ & F & _).
    destruct (String.eqb (item_label it) card_back) eqn:B; [| congruence].
    apply String.eqb_eq in B. rewrite B in El. contradiction.
  - intros [it r] I. apply frame_items_In in I. destruct I as [det [I E]].
    exists det. split; [exact I |]. split; [exact E |].
    destruct (recolectar_Some self w h det it r E) as (El & Lc & F & _).
    split; [exact El |]. split; [now apply es_label_carta_In |].
    cbn [fst]. split.
    + destruct (confianza det <? MIN_CONFIDENCE_BACK)%float eqn:C;
        [| reflexivity].
      rewrite (recolectar_bajo self w h det C) in E. discriminate.
    + intros N. destruct (String.eqb (item_label it) card_back) eqn:B;
        [| exact F].
      apply String.eqb_eq in B. contradiction.
  - unfold frame_items. induction dets as [| d dets IH]; simpl; [lia |].
    rewrite length_app. destruct (recolectar self w h d); simpl; lia.
Qed.

(** X4. On a frame without height neither the layout nor the fallback
    assigns a region: every collected card is an opponent card. *)
Theorem frame_sin_alto (self : Plugin) (ancho alto : Z)
  (dets : list Detection) :
  alto <= 0 ->
  Forall (fun fi => snd fi = opponent) (frame_items self ancho alto dets).
Proof.
  intros H. apply Forall_forall. intros [it r] I.
  apply frame_items_In in I. destruct I as [det [_ E]].
  destruct (recolectar_Some self ancho alto det it r E) as (_ & _ & _ & _ & R).
  cbn [snd]. rewrite R.
  unfold clasificar_por_layout, clasificar_por_fallback.
  replace (alto <=? 0) with true by (symmetry; apply Z.leb_le; exact H).
  rewrite orb_true_r. reflexivity.
Qed.

Lemma frame_sin_alto_witness :
  Forall (fun fi => snd fi = opponent)
    (frame_items Plugin_init 1920 0 (st_detections estado_ejemplo)).
Proof.
  apply (frame_sin_alto Plugin_init 1920 0 (st_detections estado_ejemplo)).
  lia.
Defined.

End CollectFacts.

(* ================================================================== *)
(** * _agrupar_rivales: how many groups, and of what *)
(* ================================================================== *)

Module GroupingFacts.

Import PyFloat PyList CardDetector Nociones.
Import BufferFacts FloatFacts StabilizerFacts.
Local Open Scope Z_scope.

Lemma set_nth_length {A : Type} (x : A) (l : list A) :
  forall i, List.length (set_nth i x l) = List.length l.
Proof.
  induction l as [| a l IH]; intros [| i]; simpl; try reflexivity.
  now rewrite IH.
Qed.

Lemma nth_set_nth_true (l : list bool) :
  forall i k, nth k l false = true -> nth k (set_nth i true l) false = true.
Proof.
  induction l as [| a l IH]; intros [| i] [| k] H; simpl in *;
    try discriminate; try reflexivity; try assumption.
  now apply IH.
Qed.

Lemma nth_set_nth_eq (l : list bool) :
  forall i, (i < List.length l)%nat -> nth i (set_nth i true l) false = true.
Proof.
  induction l as [| a l IH]; intros [| i] H; simpl in *; try lia;
    try reflexivity.
  apply IH. lia.
Qed.

Lemma marcadas_set_nth (l : list bool) :
  forall i,
    (marcadas l <= marcadas (set_nth i true l) <= S (marcadas l))%nat /\
    ((i < List.length l)%nat -> nth i l false = false ->
     marcadas (set_nth i true l) = S (marcadas l)).
Proof.
  unfold marcadas.
  induction l as [| a l IH]; intros [| i]; simpl.
  - split; [lia | intros; lia].
  - split; [lia | intros; lia].
  - destruct a; simpl; split; try lia; intros _ H; try discriminate;
      reflexivity.
  - destruct (IH i) as [H1 H2]. destruct a; simpl; split; try lia.
    + intros L N. rewrite H2; [reflexivity | lia | exact N].
    + intros L N. apply H2; [lia | exact N].
Qed.

Lemma marcadas_todas (l : list bool) :
  (forall k, (k < List.length l)%nat -> nth k l false = true) ->
  marcadas l = List.length l.
Proof.
  unfold marcadas. induction l as [| a l IH]; intros H; simpl;
    [reflexivity |].
  assert (a = true) by (apply (H 0%nat); simpl; lia). subst a. simpl.
  f_equal. apply IH. intros k L. apply (H (S k)). simpl. lia.
Qed.

Lemma mejor_pareja_Some (items : list Item) (used : list bool)
  (dist_thresh : float) (i j : nat) :
  mejor_pareja items used dist_thresh i = Some j ->
  (i < j < List.length items)%nat /\ nth j used false = false.
Proof.
  unfold mejor_pareja.
  set (f := fun (acc : option nat * float) (j : nat) => _).
  assert (G : forall l acc,
             fst (fold_left f l acc) = Some j ->
             fst acc = Some j \/ (In j l /\ nth j used false = false)).
  { induction l as [| k l IH]; intros acc H; simpl in H; [now left |].
    destruct (IH _ H) as [E | [I N]]; [| right; split; [now right | exact N]].
    unfold f in E. destruct (nth k used false) eqn:U; [now left |].
    destruct (_ && _); [| now left].
    simpl in E. injection E as ->. right. split; [now left | exact U]. }
  intros H. destruct (G _ _ H) as [E | [I N]]; [discriminate |].
  apply in_seq in I. split; [lia | exact N].
Qed.

Lemma cartas_de_In (grupo : list Item) (c : string) :
  In c (cartas_de grupo) -> In c (map item_label grupo).
Proof.
  unfold cartas_de. intros H.
  assert (I : In c (map item_label (sort_by item_x grupo))).
  { destruct (map item_label (sort_by item_x grupo)) as [| a [| b t]];
      [exact H | | exact H].
    destruct H as [<- | [<- | []]]; now left. }
  apply in_map_iff in I. destruct I as [it [E I]].
  apply in_map_iff. exists it. split; [exact E |].
  now apply (proj1 (sort_by_In item_x it grupo)).
Qed.

Lemma agrupar_step_inv (items : list Item) (dist_thresh : float)
  (acc : list bool * list (list string)) (i : nat) :
  (i < List.length items)%nat ->
  estado_agrupar items i acc ->
  estado_agrupar items (S i) (agrupar_step items dist_thresh acc i).
Proof.
  intros Li (L & T & M & P). destruct acc as [used grupos]. simpl in *.
  unfold agrupar_step.
  destruct (nth i used false) eqn:U.
  - split; [exact L |]. split; [| split; [exact M | exact P]].
    intros k' Hk. destruct (Nat.eq_dec k' i) as [-> | N]; [exact U |].
    apply T. lia.
  - destruct (marcadas_set_nth used i) as [_ M1].
    specialize (M1 ltac:(lia) U).
    assert (I1 : In (nth i items item0) items) by (apply nth_In; lia).
    assert (T1 : forall k', (k' < S i)%nat ->
                            nth k' (set_nth i true used) false = true).
    { intros k' Hk. destruct (Nat.eq_dec k' i) as [-> | N].
      - apply nth_set_nth_eq. lia.
      - apply nth_set_nth_true. apply T. lia. }
    destruct (mejor_pareja items (set_nth i true used) dist_thresh i)
      as [j |] eqn:E; unfold estado_agrupar; cbn [fst snd].
    + destruct (mejor_pareja_Some _ _ _ _ _ E) as [Lj _].
      assert (I2 : In (nth j items item0) items) by (apply nth_In; lia).
      destruct (marcadas_set_nth (set_nth i true used) j) as [M2 _].
      split; [now rewrite !set_nth_length |]. split; [| split].
      * intros k' Hk. apply nth_set_nth_true. now apply T1.
      * rewrite length_app. simpl. lia.
      * intros g c Hg Hc. apply in_app_or in Hg.
        destruct Hg as [Hg | Hg]; [now apply (P g c) |].
        destruct Hg as [Hg | []]. rewrite <- Hg in Hc.
        apply cartas_de_In in Hc. apply in_map_iff in Hc.
        destruct Hc as [it [Ec Ic]]. apply in_map_iff. exists it.
        split; [exact Ec |]. cbn in Ic.
        destruct Ic as [<- | [<- | []]]; assumption.
    + split; [now rewrite set_nth_length |]. split; [exact T1 | split].
      * rewrite length_app. simpl. lia.
      * intros g c Hg Hc. apply in_app_or in Hg.
        destruct Hg as [Hg | Hg]; [now apply (P g c) |].
        destruct Hg as [Hg | []]. rewrite <- Hg in Hc.
        apply cartas_de_In in Hc. apply in_map_iff in Hc.
        destruct Hc as [it [Ec Ic]]. apply in_map_iff. exists it.
        split; [exact Ec |]. cbn in Ic.
        destruct Ic as [<- | []]; assumption.
Qed.

Lemma agrupar_loop_inv (items : list Item) (dist_thresh : float) :
  forall len a acc,
    (a + len = List.length items)%nat ->
    estado_agrupar items a acc ->
    estado_agrupar items (a + len)
      (fold_left (agrupar_step items dist_thresh) (seq a len) acc).
Proof.
  induction len as [| len IH]; intros a acc E H; simpl.
  - now rewrite Nat.add_0_r.
  - replace (a + S len)%nat with (S a + len)%nat by lia.
    apply IH; [lia |]. apply agrupar_step_inv; [lia | exact H].
Qed.

Lemma agrupar_ordenados_cuenta (items : list Item) (ancho : Z) :
  let g := agrupar_ordenados items ancho in
  (List.length g <= List.length items <= 2 * List.length g)%nat /\
  (forall grupo c, In grupo g -> In c grupo -> In c (map item_label items)).
Proof.
  unfold agrupar_ordenados.
  set (acc0 := (repeat false (List.length items), @nil (list string))).
  assert (H0 : estado_agrupar items 0 acc0).
  { split; [apply repeat_length |]. split; [intros ? F; lia |].
    split; [| intros ? ? []]. simpl.
    assert (Z0 : marcadas (repeat false (List.length items)) = 0%nat).
    { unfold marcadas. induction (List.length items); simpl; auto. }
    rewrite Z0. lia. }
  pose proof (agrupar_loop_inv items (PyFloat.of_Z ancho * 0.18)%float
                (List.length items) 0 acc0 eq_refl H0) as (L & T & M & P).
  simpl in L, T, M, P |- *.
  set (r := fold_left _ _ acc0) in *.
  rewrite (marcadas_todas (fst r)) in M.
  - rewrite L in M. split; [exact M | exact P].
  - intros k Hk. apply T. lia.
Qed.

Lemma agrupar_rivales_cuenta (items : list Item) (ancho : Z) :
  let g := fst (agrupar_rivales items ancho) in
  (List.length g <= List.length items <= 2 * List.length g)%nat /\
  (forall grupo c, In grupo g -> In c grupo -> In c (map item_label items)).
Proof.
  unfold agrupar_rivales. destruct items as [| it items].
  - simpl. split; [lia | intros ? ? []].
  - set (l := it :: items).
    destruct (agrupar_ordenados_cuenta (sort_by item_x l) ancho) as [C P].
    rewrite sort_by_length in C. cbn [fst]. split; [exact C |].
    intros grupo c Hg Hc. specialize (P grupo c Hg Hc).
    apply in_map_iff in P. destruct P as [x [E I]].
    apply in_map_iff. exists x. split; [exact E |].
    now apply (proj1 (sort_by_In item_x x l)).
Qed.

(** X5. The opponent grouping makes between n/2 and n groups out of n
    cards (every card is in exactly one group of one or two), none out
    of none, and every card shown in a group is the label of one of the
    items. *)
Theorem grupos_de_rivales (items : list Item) (ancho : Z) :
  let g := fst (agrupar_rivales items ancho) in
  (List.length g <= List.length items <= 2 * List.length g)%nat /\
  (forall grupo c, In grupo g -> In c grupo ->
                   In c (map item_label items)) /\
  (g = [] <-> items = []).
Proof.
  intros g. destruct (agrupar_rivales_cuenta items ancho) as [C P].
  fold g in C, P. split; [exact C |]. split; [exact P |]. split.
  - intros E. rewrite E in C. simpl in C. destruct items; [reflexivity |].
    simpl in C. lia.
  - intros E. rewrite E in C. simpl in C. destruct g; [reflexivity |].
    simpl in C. lia.
Qed.

End GroupingFacts.

(* ================================================================== *)
(** * _gestionar_asientos: the match of a cluster, the size of the registry *)
(* ================================================================== *)

Module RegistryMore.

Import PyFloat PyList CardDetector Props Ejemplos Nociones.
Import FloatFacts FloatMore RegistryFacts StabilizerFacts GroupingFacts.
Local Open Scope Z_scope.
Local Open Scope float_scope.

Lemma en_tolerancia_num (w : Z) (s : Seat) (c : Point) :
  en_tolerancia w s c = true ->
  is_num (dist_x s c) = true /\ (dist_x s c <? infinity) = true.
Proof.
  unfold en_tolerancia. fold (dist_x s c). intros H.
  apply andb_true_iff in H. destruct H as [H _].
  split; [exact (ltb_is_num_l H) | exact (ltb_inf H)].
Qed.

Lemma nth_error_snoc {A : Type} (P : list A) (s x : A) (k : nat) :
  nth_error (P ++ [s]) k = Some x ->
  (nth_error P k = Some x /\ (k < List.length P)%nat) \/
  (k = List.length P /\ x = s).
Proof.
  intros H. destruct (Nat.lt_ge_cases k (List.length P)) as [L | G].
  - rewrite nth_error_app1 in H by exact L. now left.
  - rewrite nth_error_app2 in H by exact G.
    destruct (k - List.length P)%nat as [| n] eqn:E.
    + simpl in H. injection H as <-. right. split; [lia | reflexivity].
    + simpl in H. destruct n; discriminate.
Qed.

Lemma buscar_step_inv (w : Z) (c : Point) (P : list Seat) (s : Seat)
  (acc : option nat * float * nat) :
  estado_buscar w c P acc ->
  estado_buscar w c (P ++ [s]) (buscar_step w c acc s).
Proof.
  destruct acc as [[m d] i]. unfold estado_buscar, buscar_step. simpl.
  fold (dist_x s c). intros [Ei H]. subst i.
  destruct (en_tolerancia w s c) eqn:T; simpl.
  - destruct (en_tolerancia_num w s c T) as [Ns Is].
    destruct (dist_x s c <? d) eqn:D; simpl.
    + split; [rewrite length_app; simpl; lia |].
      exists s. split; [rewrite nth_error_app2, Nat.sub_diag by lia;
                        reflexivity |].
      split; [exact T |]. split; [reflexivity |].
      intros k s' Hk Tk. apply nth_error_snoc in Hk.
      destruct Hk as [[Hk Lk] | [-> ->]].
      * destruct m as [j |].
        -- destruct H as (sj & Hj & Tj & -> & Hmin).
           destruct (Hmin k s' Hk Tk) as [F _].
           destruct (en_tolerancia_num w s' c Tk) as [Nk _].
           destruct (en_tolerancia_num w sj c Tj) as [Nj _].
           pose proof (ltb_leb_trans D (ltb_false_leb Nj Nk F)) as G.
           split; [exact (ltb_asym G) | intros _; exact G].
        -- destruct H as [_ H]. apply nth_error_In in Hk.
           rewrite (H s' Hk) in Tk. discriminate.
      * split; [apply ltb_irrefl | intros F; lia].
    + split; [rewrite length_app; simpl; lia |].
      destruct m as [j |].
      * destruct H as (sj & Hj & Tj & -> & Hmin).
        assert (Lj : (j < List.length P)%nat).
        { apply nth_error_Some. congruence. }
        exists sj. split; [rewrite nth_error_app1 by exact Lj; exact Hj |].
        split; [exact Tj |]. split; [reflexivity |].
        intros k s' Hk Tk. apply nth_error_snoc in Hk.
        destruct Hk as [[Hk Lk] | [-> ->]].
        -- exact (Hmin k s' Hk Tk).
        -- split; [exact D | intros F; lia].
      * destruct H as [-> _]. congruence.
  - split; [rewrite length_app; simpl; lia |].
    destruct m as [j |].
    + destruct H as (sj & Hj & Tj & -> & Hmin).
      assert (Lj : (j < List.length P)%nat).
      { apply nth_error_Some. congruence. }
      exists sj. split; [rewrite nth_error_app1 by exact Lj; exact Hj |].
      split; [exact Tj |]. split; [reflexivity |].
      intros k s' Hk Tk. apply nth_error_snoc in Hk.
      destruct Hk as [[Hk Lk] | [-> ->]].
      * exact (Hmin k s' Hk Tk).
      * congruence.
    + destruct H as [-> H]. split; [reflexivity |].
      intros s' I. apply in_app_or in I. destruct I as [I | I].
      * now apply H.
      * cbn in I. destruct I as [<- | []]. exact T.
Qed.

Lemma buscar_loop_inv (w : Z) (c : Point) (l : list Seat) :
  forall P acc,
    estado_buscar w c P acc ->
    estado_buscar w c (P ++ l) (fold_left (buscar_step w c) l acc).
Proof.
  induction l as [| s l IH]; intros P acc H; simpl.
  - rewrite app_nil_r. exact H.
  - replace (P ++ s :: l) with ((P ++ [s]) ++ l)
      by (rewrite <- app_assoc; reflexivity).
    apply IH. now apply buscar_step_inv.
Qed.

Lemma buscar_asiento_spec (seats : list Seat) (w : Z) (c : Point) :
  match buscar_asiento seats w c with
  | None => forall s, In s seats -> en_tolerancia w s c = false
  | Some j => mas_cercano seats w c j
  end.
Proof.
  unfold buscar_asiento.
  assert (H0 : estado_buscar w c [] (None, infinity, 0%nat)).
  { split; [reflexivity |]. split; [reflexivity | intros ? []]. }
  pose proof (buscar_loop_inv w c seats [] _ H0) as [_ H].
  simpl in H. change PyFloat.inf with infinity.
  destruct (fst (fst (fold_left _ seats _))) as [j |].
  - destruct H as (sj & Hj & Tj & _ & Hmin). exists sj. auto.
  - exact (proj2 H).
Qed.

Lemma asignar_cluster_length (seats : list Seat) (w : Z) (c : Point)
  (t : float) :
  List.length (asignar_cluster seats w c t) =
  if existsb (fun s => en_tolerancia w s c) seats
  then List.length seats else S (List.length seats).
Proof.
  unfold asignar_cluster. pose proof (buscar_asiento_spec seats w c) as H.
  destruct (buscar_asiento seats w c) as [j |].
  - destruct H as (sj & Hj & Tj & _). rewrite Hj, set_nth_length.
    replace (existsb _ seats) with true; [reflexivity |].
    symmetry. apply existsb_exists. exists sj.
    split; [exact (nth_error_In _ _ Hj) | exact Tj].
  - replace (existsb _ seats) with false.
    + rewrite length_app. simpl. lia.
    + symmetry. apply not_true_is_false. intros F.
      apply existsb_exists in F. destruct F as [s [I T]].
      rewrite (H s I) in T. discriminate.
Qed.

Lemma asignar_clusters_length (w : Z) (reloj : nat -> float)
  (cs : list Point) :
  forall seats k,
    (List.length seats
     <= List.length (asignar_clusters seats w cs reloj k)
     <= List.length seats + List.length cs)%nat.
Proof.
  induction cs as [| c cs IH]; intros seats k; simpl; [lia |].
  specialize (IH (asignar_cluster seats w c (reloj k)) (S k)).
  rewrite asignar_cluster_length in IH.
  destruct (existsb _ seats); lia.
Qed.

Lemma clusters_loop_length (umbral : float) (items : list Item) :
  forall grupo cur,
    grupo <> [] ->
    (List.length cur + 1
     <= List.length (clusters_loop umbral items grupo cur)
     <= List.length cur + 1 + List.length items)%nat.
Proof.
  induction items as [| it items IH]; intros grupo cur N; simpl.
  - destruct grupo; [congruence |]. rewrite length_app. simpl. lia.
  - destruct (_ <? umbral).
    + assert (N' : grupo ++ [it] <> []) by (destruct grupo; discriminate).
      specialize (IH _ cur N'). lia.
    + assert (N' : [it] <> []) by discriminate.
      specialize (IH _ (cur ++ [promedio grupo]) N').
      rewrite length_app in IH. simpl in IH. lia.
Qed.

Lemma clusters_actuales_length (opp_raw : list Item) (w : Z) :
  (List.length (clusters_actuales opp_raw w) <= List.length opp_raw)%nat /\
  (opp_raw <> [] -> (1 <= List.length (clusters_actuales opp_raw w))%nat).
Proof.
  unfold clusters_actuales.
  pose proof (sort_by_length item_x opp_raw) as L.
  destruct (sort_by item_x opp_raw) as [| first rest].
  - split; [simpl; lia |]. intros N. destruct opp_raw; [congruence |].
    simpl in L. discriminate.
  - assert (N : [first] <> []) by discriminate.
    pose proof (clusters_loop_length
                  (PyFloat.of_Z w * MIN_SEAT_DISTANCE) rest [first] [] N) as H.
    simpl in H, L. split; [lia | intros _; lia].
Qed.

Lemma filter_length_le {A : Type} (f : A -> bool) (l : list A) :
  (List.length (filter f l) <= List.length l)%nat.
Proof.
  induction l as [| a l IH]; simpl; [lia |]. destruct (f a); simpl; lia.
Qed.

Lemma gestionar_asientos_cota (self : Plugin) (opp_raw : list Item)
  (w h : Z) (now : float) (reloj : nat -> float) :
  let r := gestionar_asientos self opp_raw w h now reloj in
  (List.length (seats (fst r))
   <= List.length (seats self) + List.length opp_raw)%nat /\
  (0 <= snd r <= Z.of_nat (List.length (seats (fst r))))%Z /\
  ((0 < w)%Z -> (0 < h)%Z ->
   snd r = Z.of_nat (List.length (filter is_confirmed (seats (fst r)))) /\
   snd r = Z.of_nat (List.length (puntos_geom w h (seats (fst r)))) /\
   (snd r = 0%Z -> detected_table_format (fst r) = DETECTANDO)).
Proof.
  unfold gestionar_asientos.
  destruct ((w <=? 0)%Z || (h <=? 0)%Z) eqn:G; simpl.
  - split; [lia |]. split; [lia |]. intros Hw Hh.
    apply orb_true_iff in G. destruct G as [G | G];
      apply Z.leb_le in G; lia.
  - set (cs := clusters_actuales opp_raw w).
    set (matched := asignar_clusters (seats self) w cs reloj 0).
    pose proof (asignar_clusters_length w reloj cs (seats self) 0%nat) as L.
    pose proof (proj1 (clusters_actuales_length opp_raw w)) as C.
    pose proof (filter_length_le (vigente now) matched) as F.
    pose proof (filter_length_le is_confirmed (filter (vigente now) matched))
      as F2.
    fold cs in C. fold matched in L.
    split; [lia |]. split; [lia |]. intros _ _.
    split; [reflexivity |]. split.
    + unfold puntos_geom. rewrite length_map. reflexivity.
    + intros Z0. unfold puntos_geom.
      destruct (filter is_confirmed (filter (vigente now) matched));
        [reflexivity | simpl in Z0; lia].
Qed.

Local Open Scope Z_scope.

(** X6. The matching of one cluster.  No seat is matched exactly when no
    seat is in tolerance, and then a fresh seat at the cluster is
    appended.  Otherwise the matched seat is in tolerance, no seat in
    tolerance is strictly nearer to the cluster in x, every earlier seat
    in tolerance is strictly farther; that seat is updated in place and
    every other seat, and the length of the registry, stay as they
    were. *)
Theorem asiento_mas_cercano (seats : list Seat) (w : Z) (c : Point)
  (t : float) :
  (buscar_asiento seats w c = None <->
   forall s, In s seats -> en_tolerancia w s c = false) /\
  (buscar_asiento seats w c = None ->
   asignar_cluster seats w c t = seats ++ [Seat_init (fst c) (snd c) t]) /\
  (forall j, buscar_asiento seats w c = Some j ->
     mas_cercano seats w c j /\
     exists sj,
       nth_error seats j = Some sj /\
       asignar_cluster seats w c t =
         set_nth j (Seat_update sj (fst c) (snd c) t) seats /\
       nth_error (asignar_cluster seats w c t) j =
         Some (Seat_update sj (fst c) (snd c) t) /\
       List.length (asignar_cluster seats w c t) = List.length seats /\
       forall k, k <> j ->
                 nth_error (asignar_cluster seats w c t) k =
                 nth_error seats k).
Proof.
  pose proof (buscar_asiento_spec seats w c) as H.
  split; [| split].
  - split.
    + intros E. rewrite E in H. exact H.
    + intros N. destruct (buscar_asiento seats w c) as [j |];
        [| reflexivity].
      destruct H as (sj & Hj & Tj & _).
      rewrite (N sj (nth_error_In _ _ Hj)) in Tj. discriminate.
  - intros E. unfold asignar_cluster. rewrite E. reflexivity.
  - intros j E. rewrite E in H. split; [exact H |].
    destruct H as (sj & Hj & _). exists sj. split; [exact Hj |].
    unfold asignar_cluster. rewrite E, Hj. split; [reflexivity |].
    split; [| split; [apply set_nth_length |]].
    + clear E. revert j Hj. induction seats as [| a l IH]; intros [| j] Hj;
        simpl in *; try discriminate; [reflexivity | now apply IH].
    + intros k. clear E Hj. revert j k.
      induction seats as [| a l IH]; intros [| j] [| k] N; simpl;
        try reflexivity; try congruence.
      apply IH. congruence.
Qed.

(** X7. One evaluation of the registry: the detections give at most as
    many clusters as there are detections (at least one, if any), the
    registry grows by at most one seat per detection, and the returned
    count lies between 0 and the number of seats tracked.  On a frame of
    positive width and height the count is the number of confirmed seats
    kept, which is the number of points the classifier is given, and a
    count of 0 leaves the detected format unresolved. *)
Theorem registro_acotado (self : Plugin) (opp_raw : list Item)
  (w h : Z) (now : float) (reloj : nat -> float) :
  let r := gestionar_asientos self opp_raw w h now reloj in
  (List.length (clusters_actuales opp_raw w) <= List.length opp_raw)%nat /\
  (opp_raw <> [] -> (1 <= List.length (clusters_actuales opp_raw w))%nat) /\
  (List.length (seats (fst r))
   <= List.length (seats self) + List.length opp_raw)%nat /\
  (0 <= snd r <= Z.of_nat (List.length (seats (fst r)))) /\
  (0 < w -> 0 < h ->
   snd r = Z.of_nat (List.length (filter is_confirmed (seats (fst r)))) /\
   snd r = Z.of_nat (List.length (puntos_geom w h (seats (fst r)))) /\
   (snd r = 0 -> detected_table_format (fst r) = DETECTANDO)).
Proof.
  intros r. destruct (clusters_actuales_length opp_raw w) as [C1 C2].
  destruct (gestionar_asientos_cota self opp_raw w h now reloj)
    as (L & N & P).
  split; [exact C1 |]. split; [exact C2 |]. split; [exact L |].
  split; [exact N | exact P].
Qed.

Lemma last_seen_update (s : Seat) (x y t : float) :
  last_seen_time (Seat_update s x y t) = t.
Proof. reflexivity. Qed.

Lemma last_seen_updates (ms : list Match) :
  forall s m, last_seen_time (Seat_updates s (ms ++ [m])) = snd m.
Proof.
  intros s m. unfold Seat_updates. rewrite fold_left_app. reflexivity.
Qed.

Lemma asignar_clusters_app (w : Z) (reloj : nat -> float)
  (l1 l2 : list Point) :
  forall seats k0,
    asignar_clusters seats w (l1 ++ l2) reloj k0 =
    asignar_clusters (asignar_clusters seats w l1 reloj k0) w l2 reloj
      (k0 + List.length l1).
Proof.
  induction l1 as [| c l1 IH]; intros seats k0; simpl.
  - rewrite Nat.add_0_r. reflexivity.
  - rewrite IH. f_equal. lia.
Qed.

(** Every seat of the registry after the matching is a seat it held
    before, as it was, or carries a clock value read in this matching. *)
Lemma asignar_clusters_reloj (w : Z) (reloj : nat -> float)
  (cs : list Point) :
  forall seats k0 s',
    In s' (asignar_clusters seats w cs reloj k0) ->
    In s' seats \/
    exists k, (k0 <= k < k0 + List.length cs)%nat /\
              last_seen_time s' = reloj k.
Proof.
  induction cs as [| c cs IH]; intros seats k0 s' H; simpl in H.
  - now left.
  - destruct (IH _ _ _ H) as [I | (k & Hk & E)].
    + destruct (asignar_cluster_origen seats w c (reloj k0) s' I)
        as [I0 | [(s & _ & ->) | ->]].
      * now left.
      * right. exists k0. simpl. split; [lia | reflexivity].
      * right. exists k0. simpl. split; [lia | reflexivity].
    + right. exists k. simpl. split; [lia | exact E].
Qed.

(** Every seat held before is in the registry after the matching, after
    the matches of this matching that fell on it. *)
Lemma asignar_clusters_sigue (w : Z) (reloj : nat -> float)
  (cs : list Point) :
  forall seats k0 s,
    In s seats ->
    exists ms,
      In (Seat_updates s ms) (asignar_clusters seats w cs reloj k0) /\
      Forall (de_este_tick reloj k0 (List.length cs)) ms.
Proof.
  induction cs as [| c cs IH]; intros seats k0 s I; simpl.
  - exists []. split; [exact I | constructor].
  - destruct (asignar_cluster_persiste seats w c (reloj k0) s I) as [H | H].
    + destruct (IH _ (S k0) _ H) as (ms & Hm & F). exists ms.
      split; [exact Hm |]. eapply Forall_impl; [| exact F].
      intros m (k & Hk & E). exists k. split; [lia | exact E].
    + destruct (IH _ (S k0) _ H) as (ms & Hm & F).
      exists ((fst c, snd c, reloj k0) :: ms). split; [exact Hm |].
      constructor.
      * exists k0. split; [lia | reflexivity].
      * eapply Forall_impl; [| exact F].
        intros m (k & Hk & E). exists k. split; [lia | exact E].
Qed.

(** What the matching does with the cluster of index [k]. *)
Lemma asignar_clusters_en (w : Z) (reloj : nat -> float) (cs : list Point)
  (seats : list Seat) (k : nat) (c : Point) :
  nth_error cs k = Some c ->
  let reg := asignar_clusters seats w (firstn k cs) reloj 0 in
  let matched := asignar_clusters seats w cs reloj 0 in
  ((exists s, In s reg /\ en_tolerancia w s c = true) ->
   exists j sj ms,
     mas_cercano reg w c j /\ nth_error reg j = Some sj /\
     In (Seat_updates sj ((fst c, snd c, reloj k) :: ms)) matched) /\
  ((forall s, In s reg -> en_tolerancia w s c = false) ->
   exists ms,
     In (Seat_updates (Seat_init (fst c) (snd c) (reloj k)) ms) matched).
Proof.
  intros Hk reg matched.
  assert (Lk : (k < List.length cs)%nat).
  { apply nth_error_Some. congruence. }
  assert (Ecs : cs = firstn k cs ++ c :: skipn (S k) cs).
  { rewrite <- (firstn_skipn k cs) at 1. f_equal.
    clear - Hk. revert k Hk. induction cs as [| a cs IH]; intros [| k] Hk;
      simpl in *; try discriminate.
    - now injection Hk as ->.
    - now apply IH. }
  assert (Em : matched =
               asignar_clusters (asignar_cluster reg w c (reloj k)) w
                 (skipn (S k) cs) reloj (S k)).
  { unfold matched. rewrite Ecs at 1. rewrite asignar_clusters_app.
    simpl. fold reg. rewrite length_firstn.
    replace (Nat.min k (List.length cs)) with k by lia. reflexivity. }
  pose proof (buscar_asiento_spec reg w c) as B.
  split.
  - intros (s & Is & Ts).
    destruct (buscar_asiento reg w c) as [j |] eqn:Eb.
    + pose proof B as (sj & Hj & _).
      assert (Iu : In (Seat_update sj (fst c) (snd c) (reloj k))
                     (asignar_cluster reg w c (reloj k))).
      { unfold asignar_cluster. rewrite Eb, Hj.
        exact (set_nth_In _ reg j sj Hj). }
      destruct (asignar_clusters_persiste w reloj (skipn (S k) cs)
                  _ (S k) _ Iu) as (ms & Hm).
      exists j, sj, ms. split; [exact B |]. split; [exact Hj |].
      rewrite Em. exact Hm.
    + rewrite (B s Is) in Ts. discriminate.
  - intros Hn.
    destruct (buscar_asiento reg w c) as [j |] eqn:Eb.
    + destruct B as (sj & Hj & Tj & _).
      rewrite (Hn sj (nth_error_In _ _ Hj)) in Tj. discriminate.
    + assert (Iu : In (Seat_init (fst c) (snd c) (reloj k))
                     (asignar_cluster reg w c (reloj k))).
      { unfold asignar_cluster. rewrite Eb. apply in_or_app. right.
        now left. }
      destruct (asignar_clusters_persiste w reloj (skipn (S k) cs)
                  _ (S k) _ Iu) as (ms & Hm).
      exists ms. rewrite Em. exact Hm.
Qed.

Lemma vigente_reciente (now : float) (s : Seat) :
  (now - last_seen_time s <? SEAT_CANDIDATE_TIMEOUT)%float = true ->
  vigente now s = true.
Proof.
  intros H. unfold vigente. destruct (is_confirmed s); [| exact H].
  apply (ltb_trans H). vm_compute. reflexivity.
Qed.

(** C2. One evaluation on a frame of positive width and height.  The
    time of a seat's last match is [last_seen_time]: the creation and
    every update set it to the clock they read.  For each cluster of the
    evaluation, if a seat of the registry as it then is lies in
    tolerance, the nearest such seat is updated with the clock read for
    that cluster, and otherwise a seat is created with it; [matched] is
    the registry after all clusters.  Every seat held before is in
    [matched], after the matches of this evaluation that fell on it, and
    as it was when every cluster is out of its tolerance; every seat of
    [matched] is a seat held before, untouched, or was last matched at a
    clock value of this evaluation.  A candidate of [matched] last
    matched more than 2 s before [now] is not in the registry afterwards;
    a confirmed seat last matched less than 300 s before is; a confirmed
    seat last matched more than 300 s before is not; a seat last matched
    less than 2 s before is kept, confirmed or not.  So no seat kept is
    older than its timeout, and the classifier sees the confirmed seats
    kept and nothing else. *)
Theorem expiracion_desde_ultimo_match (self : Plugin) (opp_raw : list Item)
  (w h : Z) (now : float) (reloj : nat -> float) :
  0 < w -> 0 < h ->
  let cs := clusters_actuales opp_raw w in
  let matched := asignar_clusters (seats self) w cs reloj 0 in
  let self' := fst (gestionar_asientos self opp_raw w h now reloj) in
  let age := fun s => (now - last_seen_time s)%float in
  (forall s x y t,
     last_seen_time (Seat_update s x y t) = t /\
     last_seen_time (Seat_init x y t) = t) /\
  (forall s ms m, last_seen_time (Seat_updates s (ms ++ [m])) = snd m) /\
  (forall k c, nth_error cs k = Some c ->
     let reg := asignar_clusters (seats self) w (firstn k cs) reloj 0 in
     ((exists s, In s reg /\ en_tolerancia w s c = true) ->
      exists j sj ms,
        mas_cercano reg w c j /\ nth_error reg j = Some sj /\
        In (Seat_updates sj ((fst c, snd c, reloj k) :: ms)) matched) /\
     ((forall s, In s reg -> en_tolerancia w s c = false) ->
      exists ms,
        In (Seat_updates (Seat_init (fst c) (snd c) (reloj k)) ms)
          matched)) /\
  (forall s, In s (seats self) ->
     exists ms, In (Seat_updates s ms) matched /\
                Forall (de_este_tick reloj 0 (List.length cs)) ms) /\
  (forall s, In s (seats self) ->
     Forall (fun c => en_tolerancia w s c = false) cs -> In s matched) /\
  (forall s', In s' matched ->
     In s' (seats self) \/
     exists k, (k < List.length cs)%nat /\ last_seen_time s' = reloj k) /\
  (forall s, In s matched -> is_confirmed s = false ->
     (SEAT_CANDIDATE_TIMEOUT <? age s)%float = true ->
     ~ In s (seats self')) /\
  (forall s, In s matched -> is_confirmed s = true ->
     (age s <? SEAT_CONFIRMED_TIMEOUT)%float = true ->
     In s (seats self')) /\
  (forall s, In s matched -> is_confirmed s = true ->
     (SEAT_CONFIRMED_TIMEOUT <? age s)%float = true ->
     ~ In s (seats self')) /\
  (forall s, In s matched ->
     (age s <? SEAT_CANDIDATE_TIMEOUT)%float = true ->
     In s (seats self')) /\
  (forall s, In s (seats self') ->
     In s matched /\
     (if is_confirmed s
      then (SEAT_CONFIRMED_TIMEOUT <? age s)%float = false
      else (SEAT_CANDIDATE_TIMEOUT <? age s)%float = false)) /\
  detected_table_format self' =
    Classifier.inferir_formato_geometrico (puntos_geom w h (seats self')) /\
  (forall p, In p (puntos_geom w h (seats self')) ->
     exists s, In s (seats self') /\ is_confirmed s = true /\
               p = punto_geom w h s).
Proof.
  intros Hw Hh cs matched self' age.
  destruct (expiracion_por_edad self opp_raw w h now reloj Hw Hh)
    as (_ & O2 & O3 & O4 & O5 & O6 & O7 & O8).
  split; [intros; split; reflexivity |].
  split; [intros s ms m; apply last_seen_updates |].
  split; [intros k c Hk; exact (asignar_clusters_en w reloj cs (seats self)
                                  k c Hk) |].
  split; [intros s I; exact (asignar_clusters_sigue w reloj cs (seats self)
                               0%nat s I) |].
  split; [exact O2 |].
  split.
  { intros s' I.
    destruct (asignar_clusters_reloj w reloj cs (seats self) 0%nat s' I)
      as [H | (k & Hk & E)]; [now left |].
    right. exists k. split; [lia | exact E]. }
  split; [exact O3 |]. split; [exact O4 |]. split; [exact O5 |].
  split.
  { intros s I A. unfold self'.
    rewrite (gestionar_asientos_seats self opp_raw w h now reloj Hw Hh).
    apply filter_In. split; [exact I |]. now apply vigente_reciente. }
  split; [exact O6 |]. split; [exact O7 | exact O8].
Qed.

Lemma expiracion_desde_ultimo_match_witness :
  let self := registro_ejemplo in
  let w := 1920 in
  let h := 1080 in
  let now := 400%float in
  let reloj := reloj_ejemplo in
  let cs := clusters_actuales rival_ejemplo w in
  let matched := asignar_clusters (seats self) w cs reloj 0 in
  let self' := fst (gestionar_asientos self rival_ejemplo w h now reloj) in
  let age := fun s => (now - last_seen_time s)%float in
  (forall s x y t,
     last_seen_time (Seat_update s x y t) = t /\
     last_seen_time (Seat_init x y t) = t) /\
  (forall s ms m, last_seen_time (Seat_updates s (ms ++ [m])) = snd m) /\
  (forall k c, nth_error cs k = Some c ->
     let reg := asignar_clusters (seats self) w (firstn k cs) reloj 0 in
     ((exists s, In s reg /\ en_tolerancia w s c = true) ->
      exists j sj ms,
        mas_cercano reg w c j /\ nth_error reg j = Some sj /\
        In (Seat_updates sj ((fst c, snd c, reloj k) :: ms)) matched) /\
     ((forall s, In s reg -> en_tolerancia w s c = false) ->
      exists ms,
        In (Seat_updates (Seat_init (fst c) (snd c) (reloj k)) ms)
          matched)) /\
  (forall s, In s (seats self) ->
     exists ms, In (Seat_updates s ms) matched /\
                Forall (de_este_tick reloj 0 (List.length cs)) ms) /\
  (forall s, In s (seats self) ->
     Forall (fun c => en_tolerancia w s c = false) cs -> In s matched) /\
  (forall s', In s' matched ->
     In s' (seats self) \/
     exists k, (k < List.length cs)%nat /\ last_seen_time s' = reloj k) /\
  (forall s, In s matched -> is_confirmed s = false ->
     (SEAT_CANDIDATE_TIMEOUT <? age s)%float = true ->
     ~ In s (seats self')) /\
  (forall s, In s matched -> is_confirmed s = true ->
     (age s <? SEAT_CONFIRMED_TIMEOUT)%float = true ->
     In s (seats self')) /\
  (forall s, In s matched -> is_confirmed s = true ->
     (SEAT_CONFIRMED_TIMEOUT <? age s)%float = true ->
     ~ In s (seats self')) /\
  (forall s, In s matched ->
     (age s <? SEAT_CANDIDATE_TIMEOUT)%float = true ->
     In s (seats self')) /\
  (forall s, In s (seats self') ->
     In s matched /\
     (if is_confirmed s
      then (SEAT_CONFIRMED_TIMEOUT <? age s)%float = false
      else (SEAT_CANDIDATE_TIMEOUT <? age s)%float = false)) /\
  detected_table_format self' =
    Classifier.inferir_formato_geometrico (puntos_geom w h (seats self')) /\
  (forall p, In p (puntos_geom w h (seats self')) ->
     exists s, In s (seats self') /\ is_confirmed s = true /\
               p = punto_geom w h s).
Proof.
  apply (expiracion_desde_ultimo_match registro_ejemplo rival_ejemplo
           1920 1080 400 reloj_ejemplo); lia.
Defined.

(** The registry of the example with its lost seat matched again: the
    seat is back at age 0 and kept, the stale candidate goes, the other
    confirmed seat stays. *)
Example registro_ejemplo_con_match :
  clusters_actuales rival_ejemplo 1920 = [(1505, 402)%float] /\
  buscar_asiento (seats registro_ejemplo) 1920 (1505, 402)%float
  = Some 2%nat /\
  map (fun s => (last_seen_time s, detection_count s, is_confirmed s))
    (seats (fst (gestionar_asientos registro_ejemplo rival_ejemplo
                   1920 1080 400 reloj_ejemplo))) =
  [(350%float, 12, true); (400%float, 10, true)].
Proof. vm_compute. repeat split. Qed.

End RegistryMore.

(* ================================================================== *)
(** * TableSizerPlugin: levels, failures and the published count *)
(* ================================================================== *)

Module SizerFacts.

Import PyFloat PyList CardDetector Orchestrator Ejemplos Casos.
Import Nociones BufferFacts FloatFacts StabilizerFacts.
Local Open Scope Z_scope.
Local Open Scope float_scope.

Lemma nivel_fold (l : list float) :
  forall n u k,
    (1 <= n <= k)%Z ->
    (1 <= fst (fold_left TableSizer.nivel_step l (n, u))
     <= k + Z.of_nat (List.length l))%Z.
Proof.
  induction l as [| y l IH]; intros n u k H; cbn [fold_left List.length].
  - simpl. lia.
  - rewrite Nat2Z.inj_succ.
    remember (TableSizer.nivel_step (n, u) y) as acc eqn:E.
    unfold TableSizer.nivel_step in E. cbv beta iota zeta in E.
    destruct (u =? -1.0).
    + subst acc. specialize (IH 1%Z y (k + 1)%Z ltac:(lia)). lia.
    + destruct (0.05 <? _).
      * subst acc. specialize (IH (n + 1)%Z y (k + 1)%Z ltac:(lia)). lia.
      * subst acc. specialize (IH n u (k + 1)%Z ltac:(lia)). lia.
Qed.

Lemma niveles_cota (puntos_y : list float) :
  (0 <= TableSizer.contar_niveles_verticales puntos_y
   <= Z.of_nat (List.length puntos_y))%Z /\
  (puntos_y <> [] ->
   (1 <= TableSizer.contar_niveles_verticales puntos_y)%Z).
Proof.
  unfold TableSizer.contar_niveles_verticales.
  destruct puntos_y as [| y0 l0]; [simpl; split; [lia | congruence] |].
  pose proof (sort_by_length (fun y : float => y) (y0 :: l0)) as L.
  destruct (sort_by (fun y : float => y) (y0 :: l0)) as [| y l];
    [discriminate |].
  cbn [fold_left].
  change (TableSizer.nivel_step (0%Z, -1.0) y) with (1%Z, y).
  pose proof (nivel_fold l 1%Z y 1%Z ltac:(lia)) as H.
  rewrite <- L. cbn [List.length]. split; [lia | intros _; lia].
Qed.

Lemma extraer_None (w h : Z) (dets : list Detection) :
  fold_left (TableSizer.extraer_step w h) dets None = None.
Proof. induction dets; simpl; auto. Qed.

Lemma extraer_step_rompe (w h : Z) (acc : list Point * list float)
  (det : Detection) :
  (TableSizer.extraer_step w h (Some acc) det = None <->
   rompe w h det = true) /\
  (rompe w h det = false ->
   exists acc',
     TableSizer.extraer_step w h (Some acc) det = Some acc' /\
     (List.length (fst acc) <= List.length (fst acc')
      <= S (List.length (fst acc)))%nat /\
     List.length (snd acc') - List.length (fst acc')
     = List.length (snd acc) - List.length (fst acc))%nat.
Proof.
  destruct acc as [cs ys]. unfold TableSizer.extraer_step, rompe.
  destruct (_ <? 0.30); cbn [negb andb].
  { split; [split; discriminate |]. intros _. eexists. split; [reflexivity |].
    simpl. lia. }
  destruct (det_label det) as [label |]; cbn [negb andb].
  2:{ split; [split; discriminate |]. intros _. eexists.
      split; [reflexivity |]. simpl. lia. }
  destruct (existsb _ TableSizer.TARGET_LABELS); cbn [negb andb].
  2:{ split; [split; discriminate |]. intros _. eexists.
      split; [reflexivity |]. simpl. lia. }
  destruct (det_box det) as [[| b0 [| b1 [| b2 [| b3 rest]]]] |];
    try (split; [split; [reflexivity | reflexivity] | discriminate]);
    try (split; [split; discriminate |]; intros _; eexists;
         split; [reflexivity |]; simpl; lia).
  destruct ((w =? 0)%Z || (h =? 0)%Z).
  - split; [split; reflexivity | discriminate].
  - cbv beta iota zeta.
    match goal with |- context [existsb ?f cs] => destruct (existsb f cs) end.
    + split; [split; discriminate |]. intros _. eexists.
      split; [reflexivity |]. simpl. lia.
    + split; [split; discriminate |]. intros _. eexists.
      split; [reflexivity |]. simpl. rewrite !length_app. simpl. lia.
Qed.

Lemma extraer_rompe (w h : Z) (dets : list Detection) :
  forall acc,
    fold_left (TableSizer.extraer_step w h) dets (Some acc) = None <->
    existsb (rompe w h) dets = true.
Proof.
  induction dets as [| det dets IH]; intros acc; cbn [fold_left existsb].
  - split; discriminate.
  - destruct (extraer_step_rompe w h acc det) as [R1 R2].
    destruct (rompe w h det) eqn:R; cbn [orb].
    + rewrite (proj2 R1 eq_refl), extraer_None. tauto.
    + destruct (R2 eq_refl) as (acc' & E & _). rewrite E. apply IH.
Qed.

Lemma extraer_longitud (w h : Z) (dets : list Detection) :
  forall acc acc',
    fold_left (TableSizer.extraer_step w h) dets (Some acc) = Some acc' ->
    (List.length (snd acc') - List.length (fst acc')
     = List.length (snd acc) - List.length (fst acc))%nat /\
    (List.length (fst acc') <= List.length (fst acc) + List.length dets)%nat.
Proof.
  induction dets as [| det dets IH]; intros acc acc' H;
    cbn [fold_left] in H.
  - injection H as <-. simpl. lia.
  - destruct (extraer_step_rompe w h acc det) as [R1 R2].
    destruct (rompe w h det) eqn:R.
    + rewrite (proj2 R1 eq_refl), extraer_None in H. discriminate.
    + destruct (R2 eq_refl) as (acc1 & E & L1 & L2). rewrite E in H.
      destruct (IH _ _ H) as [I1 I2]. simpl. lia.
Qed.

Lemma most_common_Z (l : list Z) (d : Z) :
  l <> [] ->
  In (most_common Z.eqb l d) l /\
  forall y, veces Z.eqb y l <= veces Z.eqb (most_common Z.eqb l d) l.
Proof.
  intros N. destruct (most_common_moda Z.eqb Z.eqb_eq l d N) as (I & M & _).
  split; assumption.
Qed.

(** What a call of the table sizer that returns on a frame has done. *)
Lemma sizer_process_Returns (self : TableSizer.Plugin) (state : State)
  (h w : Z) (p : TableSizer.Plugin) (st' : State) :
  st_frame state = Some (h, w) ->
  TableSizer.process self state = TableSizer.Returns (p, st') ->
  exists count niveles,
    (2 <= count <= Z.of_nat (List.length (st_detections state)) + 2)%Z /\
    (0 <= niveles)%Z /\
    TableSizer.history_count p =
      deque_append 15 (TableSizer.history_count self) count /\
    TableSizer.history_levels p =
      deque_append 15 (TableSizer.history_levels self) niveles /\
    st_game_state st' =
      mkGameState (gs_my_cards (st_game_state state))
        (gs_board (st_game_state state))
        (gs_opponents_cards (st_game_state state))
        (gs_street (st_game_state state))
        (gs_players_in_hand (st_game_state state))
        (Some (most_common Z.eqb (TableSizer.history_count p) 0%Z))
        (Some (TableSizer.formato
                 (most_common Z.eqb (TableSizer.history_count p) 0%Z)
                 (most_common Z.eqb (TableSizer.history_levels p) 0%Z)))
        (Some count) (Some niveles) /\
    st_frame st' = st_frame state /\
    st_detections st' = st_detections state /\
    st_hero_active st' = st_hero_active state /\
    st_confirmed_seats st' = st_confirmed_seats state /\
    st_total_seats_tracked st' = st_total_seats_tracked state /\
    st_table_fmt_geo st' = st_table_fmt_geo state.
Proof.
  intros F. unfold TableSizer.process. rewrite F.
  destruct (fold_left _ (st_detections state) (Some ([], [])))
    as [[cs ys] |] eqn:E; [| discriminate].
  intros H. injection H as <- <-.
  destruct (extraer_longitud _ _ _ _ _ E) as [_ L]. simpl in L.
  pose proof (niveles_cota ys) as [N _].
  eexists _, _. split; [| split; [| repeat split]].
  - destruct (negb _ && _); destruct (_ <? 2)%Z eqn:C;
      try apply Z.ltb_lt in C; try apply Z.ltb_ge in C; lia.
  - lia.
Qed.

Local Open Scope Z_scope.

Lemma separados_snoc (cs : list Point) (c : Point) :
  separados cs ->
  (forall e, In e cs ->
     (hypot (fst c - fst e) (snd c - snd e) <? 0.05)%float = false) ->
  separados (cs ++ [c]).
Proof.
  intros S N pre x post E e I.
  destruct post as [| p post'].
  - apply app_inj_tail in E. destruct E as [-> ->]. now apply N.
  - assert (Np : p :: post' <> []) by discriminate.
    destruct (exists_last Np) as (q & y & Eq). rewrite Eq in E.
    rewrite app_comm_cons, app_assoc in E.
    apply app_inj_tail in E. destruct E as [E _].
    exact (S pre x q E e I).
Qed.

Lemma extraer_step_centros (w h : Z) (cs : list Point) (ys : list float)
  (det : Detection) (cs' : list Point) (ys' : list float) :
  TableSizer.extraer_step w h (Some (cs, ys)) det = Some (cs', ys') ->
  (cs' = cs /\ ys' = ys) \/
  exists c,
    cs' = cs ++ [c] /\ ys' = ys ++ [snd c] /\
    centro_de w h [det] c /\
    forall e, In e cs ->
      (hypot (fst c - fst e) (snd c - snd e) <? 0.05)%float = false.
Proof.
  unfold TableSizer.extraer_step.
  destruct (_ <? 0.30)%float eqn:C.
  { intros E. injection E as <- <-. now left. }
  destruct (det_label det) as [label |] eqn:L.
  2:{ intros E. injection E as <- <-. now left. }
  destruct (existsb _ TableSizer.TARGET_LABELS) eqn:T.
  2:{ intros E. injection E as <- <-. now left. }
  destruct (det_box det) as [[| b0 [| b1 [| b2 [| b3 rest]]]] |] eqn:B;
    try discriminate;
    try (intros E; injection E as <- <-; now left).
  destruct ((w =? 0) || (h =? 0)); [discriminate |].
  cbv beta iota zeta.
  match goal with |- context [existsb ?f cs] =>
    destruct (existsb f cs) eqn:D end.
  { intros E. injection E as <- <-. now left. }
  intros E. injection E as <- <-. right. eexists. split; [reflexivity |].
  split; [reflexivity |]. split.
  - exists det, label, b0, b1, b2, b3, rest.
    split; [now left |]. split; [exact C |]. split; [exact L |].
    split; [| split; [exact B | reflexivity]].
    apply existsb_exists in T. destruct T as [x [I Ex]].
    apply String.eqb_eq in Ex. now subst.
  - intros e I. cbn [fst snd].
    destruct (hypot _ _ <? 0.05)%float eqn:F; [| reflexivity].
    match type of D with
    | existsb ?f cs = false => assert (X : existsb f cs = true)
    end.
    { apply existsb_exists. exists e. split; [exact I | exact F]. }
    congruence.
Qed.

Lemma extraer_centros (w h : Z) (dets : list Detection) :
  forall cs ys cs' ys',
    separados cs -> ys = map snd cs ->
    fold_left (TableSizer.extraer_step w h) dets (Some (cs, ys))
    = Some (cs', ys') ->
    separados cs' /\ ys' = map snd cs' /\
    forall c, In c cs' -> In c cs \/ centro_de w h dets c.
Proof.
  induction dets as [| det dets IH]; intros cs ys cs' ys' S Y E;
    cbn [fold_left] in E.
  - injection E as <- <-. split; [exact S |]. split; [exact Y |]. auto.
  - destruct (TableSizer.extraer_step w h (Some (cs, ys)) det)
      as [[cs1 ys1] |] eqn:E1;
      [| rewrite extraer_None in E; discriminate].
    assert (W : forall c, centro_de w h dets c ->
                          centro_de w h (det :: dets) c).
    { intros c (d & l & b0 & b1 & b2 & b3 & r & I & R).
      exists d, l, b0, b1, b2, b3, r. split; [now right | exact R]. }
    destruct (extraer_step_centros w h cs ys det cs1 ys1 E1)
      as [[-> ->] | (c & -> & -> & Cd & N)].
    + destruct (IH _ _ _ _ S Y E) as (S' & Y' & P).
      split; [exact S' |]. split; [exact Y' |].
      intros c I. destruct (P c I) as [H | H]; [now left | right; now apply W].
    + assert (Y1 : ys ++ [snd c] = map snd (cs ++ [c])).
      { rewrite map_app, Y. reflexivity. }
      destruct (IH _ _ _ _ (separados_snoc cs c S N) Y1 E) as (S' & Y' & P).
      split; [exact S' |]. split; [exact Y' |].
      intros c0 I. destruct (P c0 I) as [H | H]; [| right; now apply W].
      apply in_app_or in H. destruct H as [H | H]; [now left |].
      cbn in H. destruct H as [<- | []]. right.
      destruct Cd as (d & l & b0 & b1 & b2 & b3 & r & I0 & R).
      exists d, l, b0, b1, b2, b3, r. split; [| exact R].
      cbn in I0. destruct I0 as [<- | []]. now left.
Qed.


(** X8. The number of vertical levels is 0 exactly on an empty list, and
    otherwise between 1 and the number of heights. *)
Theorem niveles_verticales_cota (puntos_y : list float) :
  (0 <= TableSizer.contar_niveles_verticales puntos_y
   <= Z.of_nat (List.length puntos_y)) /\
  (puntos_y <> [] -> 1 <= TableSizer.contar_niveles_verticales puntos_y) /\
  (TableSizer.contar_niveles_verticales puntos_y = 0 <-> puntos_y = []).
Proof.
  destruct (niveles_cota puntos_y) as [B P].
  split; [exact B |]. split; [exact P |]. split.
  - intros E. destruct puntos_y as [| y l]; [reflexivity |].
    assert (N : y :: l <> []) by discriminate. specialize (P N). lia.
  - intros ->. reflexivity.
Qed.

(** X9. The table sizer raises exactly when it has a frame and some
    detection it uses (confidence not below 0.30, one of its two labels)
    has a box of one to three entries, or a box of four or more on a
    frame without width or height.  Without a frame it returns and
    changes nothing; with a frame and no such detection it returns. *)
Theorem sizer_falla_exactamente (self : TableSizer.Plugin) (state : State) :
  (TableSizer.process self state = TableSizer.Raises <->
   exists h w, st_frame state = Some (h, w) /\
               existsb (rompe w h) (st_detections state) = true) /\
  (st_frame state = None ->
   TableSizer.process self state = TableSizer.Returns (self, state)) /\
  (forall h w, st_frame state = Some (h, w) ->
     existsb (rompe w h) (st_detections state) = false ->
     exists p st', TableSizer.process self state
                   = TableSizer.Returns (p, st')).
Proof.
  split; [| split].
  - unfold TableSizer.process.
    destruct (st_frame state) as [[h w] |].
    + pose proof (extraer_rompe w h (st_detections state) ([], [])) as R.
      destruct (fold_left _ (st_detections state) (Some ([], [])))
        as [[cs ys] |].
      * split; [discriminate |]. intros (h' & w' & E & B).
        injection E as <- <-. apply R in B. discriminate.
      * split; [| reflexivity]. intros _. exists h, w.
        split; [reflexivity |]. now apply R.
    + split; [discriminate |]. intros (h & w & E & _). discriminate.
  - intros F. unfold TableSizer.process. rewrite F. reflexivity.
  - intros h w F B. unfold TableSizer.process. rewrite F.
    pose proof (extraer_rompe w h (st_detections state) ([], [])) as R.
    destruct (fold_left _ (st_detections state) (Some ([], [])))
      as [[cs ys] |].
    + eexists _, _. reflexivity.
    + rewrite (proj1 R eq_refl) in B. discriminate.
Qed.

(** X10. A call of the table sizer that returns on a frame appends one
    raw count to its history, at least 2 and at most the number of
    detections plus 2, keeps at most 15 counts, and publishes as
    [active_players] a count of the history that no other count of the
    history outnumbers. *)
Theorem sizer_publica_moda (self : TableSizer.Plugin) (state : State)
  (h w : Z) (p : TableSizer.Plugin) (st' : State) :
  st_frame state = Some (h, w) ->
  TableSizer.process self state = TableSizer.Returns (p, st') ->
  exists count niveles m,
    2 <= count <= Z.of_nat (List.length (st_detections state)) + 2 /\
    0 <= niveles /\
    TableSizer.history_count p =
      deque_append 15 (TableSizer.history_count self) count /\
    TableSizer.history_levels p =
      deque_append 15 (TableSizer.history_levels self) niveles /\
    gs_raw_stacks_count (st_game_state st') = Some count /\
    gs_raw_levels (st_game_state st') = Some niveles /\
    gs_active_players (st_game_state st') = Some m /\
    st_table_sizer_seats st' = Some m /\
    In m (TableSizer.history_count p) /\
    (forall y, veces Z.eqb y (TableSizer.history_count p)
               <= veces Z.eqb m (TableSizer.history_count p)) /\
    (List.length (TableSizer.history_count p) <= 15)%nat.
Proof.
  intros F R.
  destruct (sizer_process_Returns self state h w p st' F R)
    as (count & niveles & C & N & Hc & Hl & G & _).
  exists count, niveles,
    (most_common Z.eqb (TableSizer.history_count p) 0).
  split; [exact C |]. split; [exact N |]. split; [exact Hc |].
  split; [exact Hl |]. rewrite G.
  cbn [gs_raw_stacks_count gs_raw_levels gs_active_players].
  split; [reflexivity |]. split; [reflexivity |]. split; [reflexivity |].
  assert (Nv : TableSizer.history_count p <> []).
  { rewrite Hc. intros Z0.
    pose proof (deque_append_no_vacio 15 (TableSizer.history_count self)
                  count ltac:(lia)) as I.
    rewrite Z0 in I. destruct I. }
  destruct (most_common_Z _ 0 Nv) as [I M].
  split.
  { unfold TableSizer.process in R. rewrite F in R.
    destruct (fold_left _ (st_detections state) (Some ([], [])))
      as [[cs ys] |]; [| discriminate].
    injection R as <- <-. reflexivity. }
  split; [exact I |]. split; [exact M |].
  rewrite Hc, deque_append_length. lia.
Qed.

Lemma sizer_publica_moda_witness :
  exists count niveles m,
    2 <= count
      <= Z.of_nat (List.length (st_detections (estado sistema_ejemplo))) + 2 /\
    0 <= niveles /\
    TableSizer.history_count (fst sizer_ejemplo) =
      deque_append 15 (TableSizer.history_count (sizer sistema_ejemplo))
        count /\
    TableSizer.history_levels (fst sizer_ejemplo) =
      deque_append 15 (TableSizer.history_levels (sizer sistema_ejemplo))
        niveles /\
    gs_raw_stacks_count (st_game_state (snd sizer_ejemplo)) = Some count /\
    gs_raw_levels (st_game_state (snd sizer_ejemplo)) = Some niveles /\
    gs_active_players (st_game_state (snd sizer_ejemplo)) = Some m /\
    st_table_sizer_seats (snd sizer_ejemplo) = Some m /\
    In m (TableSizer.history_count (fst sizer_ejemplo)) /\
    (forall y, veces Z.eqb y (TableSizer.history_count (fst sizer_ejemplo))
               <= veces Z.eqb m
                    (TableSizer.history_count (fst sizer_ejemplo))) /\
    (List.length (TableSizer.history_count (fst sizer_ejemplo)) <= 15)%nat.
Proof.
  apply (sizer_publica_moda (sizer sistema_ejemplo) (estado sistema_ejemplo)
           1080 1920 (fst sizer_ejemplo) (snd sizer_ejemplo)).
  - reflexivity.
  - vm_compute. reflexivity.
Defined.

(** X23. The stacks the table sizer counts in a frame: no centre kept
    is within 0.05 (5% of the frame, by the distance of the code) of a
    centre kept before it, the heights are those of the centres, there
    are at most as many as detections, and each is the normalized centre
    of the box of a detection with one of the two labels and a
    confidence not below 0.30. *)
Theorem stacks_sin_duplicados (w h : Z) (dets : list Detection)
  (cs : list Point) (ys : list float) :
  fold_left (TableSizer.extraer_step w h) dets (Some ([], []))
  = Some (cs, ys) ->
  separados cs /\ ys = map snd cs /\
  (List.length cs <= List.length dets)%nat /\
  forall c, In c cs -> centro_de w h dets c.
Proof.
  intros E.
  assert (S0 : separados []).
  { intros pre c post E0. destruct pre; discriminate. }
  destruct (extraer_centros w h dets [] [] cs ys S0 eq_refl E)
    as (S & Y & P).
  split; [exact S |]. split; [exact Y |]. split.
  - destruct (extraer_longitud w h dets ([], []) (cs, ys) E) as [_ L].
    simpl in L. exact L.
  - intros c I. destruct (P c I) as [[] | H]. exact H.
Qed.

Lemma stacks_sin_duplicados_witness :
  separados (fst centros_ejemplo) /\
  snd centros_ejemplo = map snd (fst centros_ejemplo) /\
  (List.length (fst centros_ejemplo) <= List.length stacks_ejemplo)%nat /\
  forall c, In c (fst centros_ejemplo) ->
            centro_de 1920 1080 stacks_ejemplo c.
Proof.
  apply (stacks_sin_duplicados 1920 1080 stacks_ejemplo
           (fst centros_ejemplo) (snd centros_ejemplo)).
  vm_compute. reflexivity.
Defined.

Example centros_ejemplo_dos : List.length (fst centros_ejemplo) = 2%nat.
Proof. vm_compute. reflexivity. Qed.

End SizerFacts.

(* ================================================================== *)
(** * CardDetectorPlugin.process: what a call publishes *)
(* ================================================================== *)

Module ProcessFacts.

Import PyFloat PyList CardDetector Orchestrator Ejemplos Casos Nociones.
Import BufferFacts FloatFacts StabilizerFacts ConsolidationFacts.
Import CollectFacts GroupingFacts RegistryMore SizerFacts.
Local Open Scope Z_scope.

Lemma gestionar_asientos_historia (self : Plugin) (opp_raw : list Item)
  (w h : Z) (now : float) (reloj : nat -> float) :
  detection_history (fst (gestionar_asientos self opp_raw w h now reloj)) =
  detection_history self.
Proof.
  unfold gestionar_asientos. destruct (_ || _); reflexivity.
Qed.

Lemma paso_historia (self : Plugin) (alto ancho : Z)
  (dets : list Detection) (clk : Clock) :
  detection_history (self_out (paso self alto ancho dets clk)) =
  historial self alto ancho dets.
Proof.
  unfold paso. cbn [self_out]. rewrite gestionar_asientos_historia.
  reflexivity.
Qed.

Lemma paso_asientos (self : Plugin) (alto ancho : Z)
  (dets : list Detection) (clk : Clock) :
  let r := paso self alto ancho dets clk in
  (0 <= confirmed_opponents_seats r
   <= Z.of_nat (List.length (seats (self_out r))))%Z.
Proof.
  unfold paso. cbn [self_out confirmed_opponents_seats].
  match goal with
  | |- context [gestionar_asientos ?s ?o ?w ?h ?n ?k] =>
      destruct (gestionar_asientos_cota s o w h n k) as (_ & H & _)
  end.
  exact H.
Qed.

Lemma historial_In (self : Plugin) (alto ancho : Z)
  (dets : list Detection) (frame : list FrameItem) :
  In frame (historial self alto ancho dets) ->
  In frame (detection_history self) \/
  frame = frame_items self ancho alto dets.
Proof. unfold historial. apply deque_append_In. Qed.

Lemma frame_items_cartas (self : Plugin) (w h : Z) (dets : list Detection)
  (fi : FrameItem) :
  In fi (frame_items self w h dets) -> In (item_label (fst fi)) CARD_LABELS.
Proof.
  intros H. apply frame_items_In in H. destruct H as [det [_ R]].
  destruct fi as [it r]. apply recolectar_Some in R.
  apply es_label_carta_In. simpl. tauto.
Qed.

Lemma historial_de_cartas (self : Plugin) (alto ancho : Z)
  (dets : list Detection) :
  historia_de_cartas (detection_history self) ->
  historia_de_cartas (historial self alto ancho dets).
Proof.
  intros H frame fi F I. apply historial_In in F. destruct F as [F | ->].
  - exact (H frame fi F I).
  - exact (frame_items_cartas _ _ _ _ _ I).
Qed.

Lemma visto_carta (history : list (list FrameItem)) (r : Region)
  (c : string) :
  historia_de_cartas history -> visto history r c -> In c CARD_LABELS.
Proof.
  intros H (frame & it & F & I & <-). exact (H frame (it, r) F I).
Qed.

(** The cards one call publishes, traced to the buffer. *)
Lemma paso_vistos (self : Plugin) (alto ancho : Z)
  (dets : list Detection) (clk : Clock) :
  let r := paso self alto ancho dets clk in
  let history := historial self alto ancho dets in
  (forall c, In c (map item_label (hero_valid r)) ->
             visto history hero c /\ c <> card_back) /\
  (forall c, In c (map item_label (board_valid r)) ->
             visto history board c /\ c <> card_back) /\
  (forall g c, In g (opponents_grouped r) -> In c g ->
               visto history opponent c).
Proof.
  unfold paso. cbn [hero_valid board_valid opponents_grouped].
  unfold consolidar_buffer. cbn [fst snd].
  assert (V : forall n reg c,
            In c (map item_label
                    (validos n (consolidar_region
                                  (historial self alto ancho dets) reg))) ->
            visto (historial self alto ancho dets) reg c /\ c <> card_back).
  { intros n reg c H. apply in_map_iff in H. destruct H as [it [<- I]].
    apply validos_In in I. destruct I as [I B]. split.
    - now apply consolidar_region_visto.
    - intros E. rewrite E, String.eqb_refl in B. discriminate. }
  split; [apply V |]. split; [apply V |].
  intros g c Hg Hc.
  destruct (agrupar_rivales_cuenta
              (consolidar_region (historial self alto ancho dets) opponent)
              ancho) as [_ P].
  specialize (P g c Hg Hc). apply in_map_iff in P.
  destruct P as [it [<- I]]. now apply consolidar_region_visto.
Qed.

Lemma calle_valida (gs : GameState) (nb : nat) :
  (forall s, gs_street gs = Some s -> In s CALLES) ->
  In (calle gs nb) CALLES.
Proof.
  intros H. unfold calle.
  assert (D : In (match gs_street gs with
                  | Some s => s
                  | None => "PREFLOP"%string
                  end) CALLES).
  { destruct (gs_street gs) as [s |]; [now apply H | now left]. }
  destruct nb as [| [| [| [| [| [| n]]]]]]; try exact D;
    unfold CALLES; simpl; auto 6.
Qed.

Lemma detector_estado_ok (self : Plugin) (state : State) (clk : Clock) :
  estado_ok state -> estado_ok (snd (process self state clk)).
Proof.
  intros (A & P & S & R1 & R2 & C). unfold process.
  destruct (st_frame state) as [[alto ancho] |]; [| repeat split; assumption].
  cbn [snd]. unfold estado_ok.
  cbn [st_game_state gs_active_players gs_players_in_hand gs_street
       gs_raw_stacks_count gs_raw_levels st_confirmed_seats
       st_total_seats_tracked].
  split; [| split; [| split; [| split; [| split]]]].
  - intros a E. injection E as <-.
    destruct (_ <? 2)%Z eqn:L; [lia | apply Z.ltb_ge in L; exact L].
  - intros a E. injection E as <-.
    destruct (_ && _); [lia |].
    destruct (0 <? _)%nat; lia.
  - intros s E. injection E as <-. now apply calle_valida.
  - exact R1.
  - exact R2.
  - intros c E. injection E as <-. eexists. split; [reflexivity |].
    apply paso_asientos.
Qed.

Lemma process_fst (self : Plugin) (state : State) (clk : Clock) :
  fst (process self state clk) =
  match st_frame state with
  | None => self
  | Some (alto, ancho) =>
      self_out (paso self alto ancho (st_detections state) clk)
  end.
Proof.
  unfold process. destruct (st_frame state) as [[alto ancho] |]; reflexivity.
Qed.

Lemma gestionar_asientos_hero (self : Plugin) (opp_raw : list Item)
  (w h : Z) (now : float) (reloj : nat -> float) :
  last_hero_seen_time (fst (gestionar_asientos self opp_raw w h now reloj)) =
  last_hero_seen_time self.
Proof.
  unfold gestionar_asientos. destruct (_ || _); reflexivity.
Qed.

Lemma process_hero_activo (self : Plugin) (state : State) (clk : Clock) :
  st_hero_active state = true ->
  st_hero_active (snd (process self state clk)) = true.
Proof.
  intros H. unfold process.
  destruct (st_frame state) as [[alto ancho] |]; [| exact H].
  cbn [snd st_hero_active]. rewrite H.
  destruct (_ <=? _)%nat; [reflexivity |].
  destruct (_ <? 3.0)%float; reflexivity.
Qed.

Lemma detector_conteo (self : Plugin) (state : State) (clk : Clock)
  (alto ancho : Z) :
  st_frame state = Some (alto, ancho) ->
  let r := paso self alto ancho (st_detections state) clk in
  let gs' := st_game_state (snd (process self state clk)) in
  let hay_hero := if (0 <? List.length (hero_valid r))%nat then 1 else 0 in
  let rivales := Z.of_nat (List.length (opponents_grouped r)) in
  let stack_count :=
    match gs_active_players (st_game_state state) with
    | Some n => n
    | None => 0
    end in
  exists a p,
    gs_active_players gs' = Some a /\ gs_players_in_hand gs' = Some p /\
    a = Z.max 2 (Z.max p
                   (Z.max stack_count
                      (confirmed_opponents_seats r + hay_hero))) /\
    (board_valid r <> [] -> p = Z.max 2 (rivales + hay_hero)) /\
    (board_valid r = [] -> p = rivales + hay_hero) /\
    st_confirmed_seats (snd (process self state clk)) =
      Some (confirmed_opponents_seats r) /\
    st_total_seats_tracked (snd (process self state clk)) =
      Some (Z.of_nat (List.length (seats (self_out r)))) /\
    0 <= confirmed_opponents_seats r
      <= Z.of_nat (List.length (seats (self_out r))).
Proof.
  intros F. unfold process. rewrite F. cbn [snd st_game_state].
  cbn [gs_active_players gs_players_in_hand st_confirmed_seats
       st_total_seats_tracked]. rewrite !length_map.
  set (r := paso self alto ancho (st_detections state) clk).
  set (hh := if (0 <? List.length (hero_valid r))%nat then 1 else 0).
  set (pih0 := Z.of_nat (List.length (opponents_grouped r)) + hh).
  set (nb := List.length (board_valid r)).
  set (sc := match gs_active_players (st_game_state state) with
             | Some n => n | None => 0 end).
  cbv zeta. eexists _, _.
  split; [reflexivity |]. split; [reflexivity |].
  assert (Hnb : (board_valid r <> [] -> nb <> 0%nat) /\
                (board_valid r = [] -> nb = 0%nat)).
  { subst nb. destruct (board_valid r); simpl; split; congruence. }
  split.
  { set (p := if (pih0 <? 2) && (0 <? nb)%nat then 2 else pih0).
    set (f0 := Z.max sc (confirmed_opponents_seats r + hh)).
    clearbody p f0.
    destruct (Z.ltb_spec f0 p);
      [destruct (Z.ltb_spec p 2) | destruct (Z.ltb_spec f0 2)]; lia. }
  split; [| split; [| split; [reflexivity |
                              split; [reflexivity | apply paso_asientos]]]].
  - intros N. apply Hnb in N. destruct nb; [congruence |].
    destruct (Z.ltb_spec pih0 2); simpl; lia.
  - intros E. apply Hnb in E. rewrite E. rewrite andb_false_r. reflexivity.
Qed.


Lemma process_crudos (self : Plugin) (state : State) (clk : Clock) :
  gs_raw_stacks_count (st_game_state (snd (process self state clk))) =
    gs_raw_stacks_count (st_game_state state) /\
  gs_raw_levels (st_game_state (snd (process self state clk))) =
    gs_raw_levels (st_game_state state).
Proof.
  unfold process. destruct (st_frame state) as [[alto ancho] |];
    split; reflexivity.
Qed.


(** X11. The cards one call publishes are cards it has seen: every hero
    card, board card and opponent card is the label of an entry of the
    same region in one of the at most six frames of the buffer as the
    call leaves it, and no hero or board card is the face-down label. *)
Theorem cartas_publicadas_vistas (self : Plugin) (state : State)
  (clk : Clock) (alto ancho : Z) :
  st_frame state = Some (alto, ancho) ->
  let history := historial self alto ancho (st_detections state) in
  let gs' := st_game_state (snd (process self state clk)) in
  detection_history (fst (process self state clk)) = history /\
  (forall cs c, gs_my_cards gs' = Some cs -> In c cs ->
                visto history hero c /\ c <> card_back) /\
  (forall cs c, gs_board gs' = Some cs -> In c cs ->
                visto history board c /\ c <> card_back) /\
  (forall gr g c, gs_opponents_cards gs' = Some gr -> In g gr -> In c g ->
                  visto history opponent c).
Proof.
  intros F history gs'. subst history gs'.
  rewrite process_fst. unfold process. rewrite F.
  cbn [snd st_game_state gs_my_cards gs_board gs_opponents_cards].
  destruct (paso_vistos self alto ancho (st_detections state) clk)
    as (V1 & V2 & V3).
  split; [apply paso_historia |]. split; [| split].
  - intros cs c E. injection E as <-. apply V1.
  - intros cs c E. injection E as <-. apply V2.
  - intros gr g c E. injection E as <-. apply V3.
Qed.

Lemma cartas_publicadas_vistas_witness :
  let history :=
    historial plugin_ejemplo 1080 1920 (st_detections estado_ejemplo) in
  let gs' :=
    st_game_state (snd (process plugin_ejemplo estado_ejemplo reloj_fijo)) in
  detection_history (fst (process plugin_ejemplo estado_ejemplo reloj_fijo))
  = history /\
  (forall cs c, gs_my_cards gs' = Some cs -> In c cs ->
                visto history hero c /\ c <> card_back) /\
  (forall cs c, gs_board gs' = Some cs -> In c cs ->
                visto history board c /\ c <> card_back) /\
  (forall gr g c, gs_opponents_cards gs' = Some gr -> In g gr -> In c g ->
                  visto history opponent c).
Proof.
  apply (cartas_publicadas_vistas plugin_ejemplo estado_ejemplo reloj_fijo
           1080 1920).
  reflexivity.
Defined.

(** X12. The player counts one call publishes.  [active_players] is the
    largest of 2, [players_in_hand], the count found in the state (0 if
    absent) and the confirmed opponent seats plus one for a visible
    hero; [players_in_hand] is the number of opponent groups plus one for
    a visible hero, raised to 2 when the board shows a card; and the
    confirmed seats published never exceed the seats tracked. *)
Theorem conteo_de_jugadores (self : Plugin) (state : State) (clk : Clock)
  (alto ancho : Z) :
  st_frame state = Some (alto, ancho) ->
  let r := paso self alto ancho (st_detections state) clk in
  let gs' := st_game_state (snd (process self state clk)) in
  let hay_hero := if (0 <? List.length (hero_valid r))%nat then 1 else 0 in
  let rivales := Z.of_nat (List.length (opponents_grouped r)) in
  let stack_count :=
    match gs_active_players (st_game_state state) with
    | Some n => n
    | None => 0
    end in
  exists a p,
    gs_active_players gs' = Some a /\ gs_players_in_hand gs' = Some p /\
    a = Z.max 2 (Z.max p
                   (Z.max stack_count
                      (confirmed_opponents_seats r + hay_hero))) /\
    (board_valid r <> [] -> p = Z.max 2 (rivales + hay_hero)) /\
    (board_valid r = [] -> p = rivales + hay_hero) /\
    st_confirmed_seats (snd (process self state clk)) =
      Some (confirmed_opponents_seats r) /\
    st_total_seats_tracked (snd (process self state clk)) =
      Some (Z.of_nat (List.length (seats (self_out r)))) /\
    0 <= confirmed_opponents_seats r
      <= Z.of_nat (List.length (seats (self_out r))).
Proof. exact (detector_conteo self state clk alto ancho). Qed.

Lemma conteo_de_jugadores_witness :
  let r :=
    paso plugin_ejemplo 1080 1920 (st_detections estado_ejemplo)
      reloj_fijo in
  let gs' :=
    st_game_state (snd (process plugin_ejemplo estado_ejemplo reloj_fijo)) in
  let hay_hero := if (0 <? List.length (hero_valid r))%nat then 1 else 0 in
  let rivales := Z.of_nat (List.length (opponents_grouped r)) in
  let stack_count :=
    match gs_active_players (st_game_state estado_ejemplo) with
    | Some n => n
    | None => 0
    end in
  exists a p,
    gs_active_players gs' = Some a /\ gs_players_in_hand gs' = Some p /\
    a = Z.max 2 (Z.max p
                   (Z.max stack_count
                      (confirmed_opponents_seats r + hay_hero))) /\
    (board_valid r <> [] -> p = Z.max 2 (rivales + hay_hero)) /\
    (board_valid r = [] -> p = rivales + hay_hero) /\
    st_confirmed_seats
      (snd (process plugin_ejemplo estado_ejemplo reloj_fijo)) =
      Some (confirmed_opponents_seats r) /\
    st_total_seats_tracked
      (snd (process plugin_ejemplo estado_ejemplo reloj_fijo)) =
      Some (Z.of_nat (List.length (seats (self_out r)))) /\
    0 <= confirmed_opponents_seats r
      <= Z.of_nat (List.length (seats (self_out r))).
Proof.
  apply (conteo_de_jugadores plugin_ejemplo estado_ejemplo reloj_fijo
           1080 1920).
  reflexivity.
Defined.

End ProcessFacts.

(* ================================================================== *)
(** * main_loop: the capture step, the intervals and the error log *)
(* ================================================================== *)

Module LoopFacts.

Import PyFloat PyList Orchestrator MainLoop Tracker Props Casos.
Import Nociones BufferFacts FloatFacts FloatMore OrchestratorFacts.
Local Open Scope Z_scope.

Lemma registrar_fold (msgs : list string) (errs : list string) :
  msgs <> [] ->
  fold_left registrar_error msgs errs = ultimos 50 (errs ++ msgs).
Proof.
  destruct msgs as [| m msgs]; [congruence |]. intros _. simpl.
  change registrar_error with (@deque_append string 50).
  rewrite deque_fold by (rewrite deque_append_length; lia).
  change (deque_append 50 errs m) with (ultimos 50 (errs ++ [m])).
  rewrite ultimos_app, <- app_assoc. reflexivity.
Qed.

Lemma limitar_identidad (w_img h_img : Z) (r : Rect) :
  en_rango w_img h_img r -> limitar w_img h_img r = r.
Proof.
  destruct r as [[[sx sy] sw] sh]. unfold en_rango, limitar.
  intros (Hx & Hy & Hw & Hh).
  replace (Z.max 0 (Z.min sx (w_img - 1))) with sx by lia.
  replace (Z.max 0 (Z.min sy (h_img - 1))) with sy by lia.
  replace (Z.max 1 (Z.min sw (w_img - sx))) with sw by lia.
  replace (Z.max 1 (Z.min sh (h_img - sy))) with sh by lia.
  reflexivity.
Qed.

Lemma limitar_cota (w_img h_img : Z) (r : Rect) :
  let '(sx, sy, sw, sh) := limitar w_img h_img r in
  0 <= sx /\ 0 <= sy /\ 1 <= sw /\ 1 <= sh /\
  sw <= Z.max 1 (w_img - sx) /\ sh <= Z.max 1 (h_img - sy) /\
  (10 < sw -> sx + sw <= w_img /\ sx < w_img) /\
  (10 < sh -> sy + sh <= h_img /\ sy < h_img).
Proof.
  destruct r as [[[sx sy] sw] sh]. unfold limitar. lia.
Qed.

Lemma crop_Some (w_img h_img : Z) (c r : Rect) :
  crop w_img h_img c = Some r ->
  rect_recorte w_img h_img c = Some r /\
  let '(sx, sy, sw, sh) := r in
  10 < sw /\ 10 < sh /\ en_rango w_img h_img r /\
  10 < w_img /\ 10 < h_img.
Proof.
  unfold crop. destruct (rect_recorte w_img h_img c) as [r0 |] eqn:E;
    [| discriminate].
  unfold rect_recorte in E. destruct (escalar c) as [e |]; [| discriminate].
  simpl in E. injection E as <-.
  pose proof (limitar_cota w_img h_img e) as L.
  destruct (limitar w_img h_img e) as [[[sx sy] sw] sh].
  destruct ((10 <? sw) && (10 <? sh)) eqn:B; [| discriminate].
  intros H. injection H as <-. split; [reflexivity |].
  apply andb_true_iff in B. destruct B as [B1 B2].
  apply Z.ltb_lt in B1. apply Z.ltb_lt in B2. unfold en_rango. lia.
Qed.

Lemma crop_pequeno (w_img h_img : Z) (c : Rect) :
  w_img <= 10 \/ h_img <= 10 -> crop w_img h_img c = None.
Proof.
  intros H. destruct (crop w_img h_img c) as [[[[sx sy] sw] sh] |] eqn:E;
    [| reflexivity].
  apply crop_Some in E. lia.
Qed.

Lemma capturar_Recortado (h_img w_img : Z) (c : Rect) (alto ancho : Z)
  (r : Rect) :
  capturar h_img w_img (Some c) = Some (Recortado alto ancho r) ->
  crop w_img h_img c = Some r /\
  let '(sx, sy, sw, sh) := r in
  alto = sh /\ ancho = sw /\ 10 < alto /\ 10 < ancho /\
  en_rango w_img h_img r.
Proof.
  unfold capturar, crop.
  destruct (rect_recorte w_img h_img c) as [[[[sx sy] sw] sh] |] eqn:E;
    [| discriminate].
  destruct ((10 <? sw) && (10 <? sh)) eqn:B; [| discriminate].
  intros H. injection H as <- <- <-. split; [reflexivity |].
  assert (C : crop w_img h_img c = Some (sx, sy, sw, sh)).
  { unfold crop. rewrite E, B. reflexivity. }
  apply crop_Some in C. unfold slice_len. unfold en_rango in *. lia.
Qed.

Lemma get_crop_coords_Some (t : option Window) (vs : list Window)
  (c : Rect) :
  snd (get_crop_coords t vs) = Some c ->
  exists v,
    fst (get_crop_coords t vs) = Some v /\
    (t = Some v \/ (t = None /\ exists vs', vs = v :: vs')) /\
    cerrada v = false /\ isMinimized v = false /\
    c = (Z.max 0 (left v), Z.max 0 (top v),
         Z.max 1 (width v), Z.max 1 (height v)).
Proof.
  unfold get_crop_coords, update_window_reference.
  destruct t as [v |]; [| destruct vs as [| v vs']]; simpl;
    try discriminate;
    destruct (cerrada v) eqn:C; simpl; try discriminate;
    destruct (isMinimized v) eqn:M; simpl; try discriminate;
    intros H; injection H as <-; exists v; repeat split; auto.
  right. split; [reflexivity |]. now exists vs'.
Qed.

Lemma captura_de_ventana (t : option Window) (vs : list Window)
  (h_img w_img : Z) (c : Rect) :
  snd (get_crop_coords t vs) = Some c ->
  (forall v, fst (get_crop_coords t vs) = Some v -> ventana_de_pantalla v) ->
  coords_de_pantalla c /\
  exists r, rect_recorte w_img h_img c = Some r /\
            capturar h_img w_img (Some c) =
            Some (match crop w_img h_img c with
                  | Some (sx, sy, sw, sh) =>
                      Recortado (slice_len h_img sy (sy + sh))
                        (slice_len w_img sx (sx + sw)) (sx, sy, sw, sh)
                  | None => SinVision
                  end).
Proof.
  intros H V. destruct (get_crop_coords_Some t vs c H)
    as (v & F & _ & _ & _ & ->).
  destruct (V v F) as (V1 & V2 & V3 & V4).
  assert (C : coords_de_pantalla
                (Z.max 0 (left v), Z.max 0 (top v),
                 Z.max 1 (width v), Z.max 1 (height v))).
  { unfold coords_de_pantalla, COORD_MAX in *. cbv beta iota. lia. }
  split; [exact C |].
  unfold capturar, crop, rect_recorte. rewrite (escalar_total _ C).
  cbn [option_map].
  match goal with |- context [limitar ?a ?b ?e] =>
    destruct (limitar a b e) as [[[sx sy] sw] sh] end.
  eexists. split; [reflexivity |].
  destruct ((10 <? sw) && (10 <? sh)); reflexivity.
Qed.

(** X13. The crop.  The clamp leaves a rectangle that is in range as it
    is; a frame is cropped only to a rectangle in range, wider and
    higher than 10 pixels, so a capture of at most 10 pixels a side is
    never cropped; the cropped frame has exactly the height and width of
    the window rectangle published with it; and without a window the
    whole capture is the frame. *)
Theorem recorte_util (w_img h_img : Z) (c : Rect) :
  (forall r, en_rango w_img h_img r -> limitar w_img h_img r = r) /\
  (forall r, crop w_img h_img c = Some r ->
     rect_recorte w_img h_img c = Some r /\
     let '(sx, sy, sw, sh) := r in
     10 < sw /\ 10 < sh /\ en_rango w_img h_img r /\
     10 < w_img /\ 10 < h_img) /\
  (w_img <= 10 \/ h_img <= 10 -> crop w_img h_img c = None) /\
  (forall alto ancho r,
     capturar h_img w_img (Some c) = Some (Recortado alto ancho r) ->
     crop w_img h_img c = Some r /\
     let '(sx, sy, sw, sh) := r in
     alto = sh /\ ancho = sw /\ 10 < alto /\ 10 < ancho /\
     en_rango w_img h_img r) /\
  capturar h_img w_img None = Some (Completo h_img w_img).
Proof.
  split; [intros r; apply limitar_identidad |].
  split; [intros r; apply crop_Some |].
  split; [apply crop_pequeno |].
  split; [intros alto ancho r; apply capturar_Recortado | reflexivity].
Qed.

(** X14. The tracker and the capture step together.  When the tracker
    answers, the window is its target (or the first match, if it had
    none), it is neither closed nor minimized, and the answer is its
    geometry with left and top raised to 0 and width and height to 1.
    For a window below [COORD_MAX] on every side the scaling then
    returns, and the capture step ends with a cropped frame or with
    vision off, never with an exception. *)
Theorem captura_de_ventana_segura (t : option Window) (vs : list Window)
  (h_img w_img : Z) (c : Rect) :
  snd (get_crop_coords t vs) = Some c ->
  (forall v, fst (get_crop_coords t vs) = Some v -> ventana_de_pantalla v) ->
  (exists v,
     fst (get_crop_coords t vs) = Some v /\
     (t = Some v \/ (t = None /\ exists vs', vs = v :: vs')) /\
     cerrada v = false /\ isMinimized v = false /\
     c = (Z.max 0 (left v), Z.max 0 (top v),
          Z.max 1 (width v), Z.max 1 (height v))) /\
  coords_de_pantalla c /\
  exists r, rect_recorte w_img h_img c = Some r /\
            capturar h_img w_img (Some c) =
            Some (match crop w_img h_img c with
                  | Some (sx, sy, sw, sh) =>
                      Recortado (slice_len h_img sy (sy + sh))
                        (slice_len w_img sx (sx + sw)) (sx, sy, sw, sh)
                  | None => SinVision
                  end).
Proof.
  intros H V. split; [exact (get_crop_coords_Some t vs c H) |].
  exact (captura_de_ventana t vs h_img w_img c H V).
Qed.

Lemma captura_de_ventana_segura_witness :
  (exists v,
     fst (get_crop_coords (Some ventana_ejemplo) []) = Some v /\
     (Some ventana_ejemplo = Some v \/
      (Some ventana_ejemplo = None /\ exists vs', [] = v :: vs')) /\
     cerrada v = false /\ isMinimized v = false /\
     (0, 0, 2576, 1416) =
       (Z.max 0 (left v), Z.max 0 (top v),
        Z.max 1 (width v), Z.max 1 (height v))) /\
  coords_de_pantalla (0, 0, 2576, 1416) /\
  exists r, rect_recorte 1920 1080 (0, 0, 2576, 1416) = Some r /\
            capturar 1080 1920 (Some (0, 0, 2576, 1416)) =
            Some (match crop 1920 1080 (0, 0, 2576, 1416) with
                  | Some (sx, sy, sw, sh) =>
                      Recortado (slice_len 1080 sy (sy + sh))
                        (slice_len 1920 sx (sx + sw)) (sx, sy, sw, sh)
                  | None => SinVision
                  end).
Proof.
  apply (captura_de_ventana_segura (Some ventana_ejemplo) [] 1080 1920
           (0, 0, 2576, 1416)).
  - reflexivity.
  - intros v E. injection E as <-.
    unfold ventana_de_pantalla, COORD_MAX. simpl. lia.
Defined.

(** X15. The error log after any run of stage failures holds the last
    50 messages of the old log followed by the new ones, in order, the
    newest at its end. *)
Theorem registro_de_errores (errs msgs : list string) :
  msgs <> [] ->
  let log := fold_left registrar_error msgs errs in
  log = ultimos 50 (errs ++ msgs) /\
  List.length log = Nat.min 50 (List.length errs + List.length msgs) /\
  (exists pre, errs ++ msgs = pre ++ log) /\
  (exists pre, log = pre ++ [last msgs ""%string]).
Proof.
  intros N log. subst log. rewrite (registrar_fold msgs errs N).
  split; [reflexivity |]. split; [| split].
  - rewrite ultimos_length, length_app. reflexivity.
  - apply ultimos_sufijo.
  - destruct (exists_last N) as (m0 & m & ->).
    rewrite last_last, app_assoc. apply ultimos_ultimo. lia.
Qed.

Lemma registro_de_errores_witness :
  let log := fold_left registrar_error ["a"; "b"]%string ["z"%string] in
  log = ultimos 50 (["z"%string] ++ ["a"%string; "b"%string])%list /\
  List.length log = Nat.min 50 (List.length ["z"%string] +
                                List.length ["a"; "b"]%string) /\
  (exists pre, (["z"%string] ++ ["a"%string; "b"%string])%list
               = pre ++ log) /\
  (exists pre, log = pre ++ [last ["a"; "b"]%string ""%string]).
Proof.
  apply (registro_de_errores ["z"%string] ["a"; "b"]%string).
  discriminate.
Defined.

(** X16. The loop intervals never divide by zero: whatever the
    configured rate (zero, negative, infinite or not a number), the
    divisor [max(fps, 0.1)] is not zero and not below 0.1. *)
Theorem intervalo_sin_division_por_cero (fps : float) :
  exists i, intervalo fps = Some i /\
            (py_max fps 0.1 <? 0.1)%float = false /\
            (py_max fps 0.1 =? 0)%float = false.
Proof.
  unfold intervalo, py_div, py_max.
  destruct (fps <? 0.1)%float eqn:L.
  - eexists. split; [reflexivity |]. split; reflexivity.
  - assert (Z0 : (fps =? 0)%float = false).
    { destruct (fps =? 0)%float eqn:E; [| reflexivity].
      apply eqb_key in E. destruct E as (N & _ & K).
      assert (T : (fps <? 0.1)%float = true).
      { apply ltb_key. split; [exact N |]. split.
        - vm_compute. discriminate.
        - rewrite K. vm_compute. left. reflexivity. }
      congruence. }
    rewrite Z0. eexists. split; [reflexivity |]. split; [exact L | reflexivity].
Qed.

End LoopFacts.

(* ================================================================== *)
(** * _inferir_posicion_hero: the hero's position *)
(* ================================================================== *)

Module DecisionFacts.

Import Decisions.
Local Open Scope Z_scope.
Local Open Scope string_scope.

Lemma posicion_por_distancia (d h : Z) :
  0 <= d ->
  inferir_posicion_hero (Some d) (Some h) =
  nth (Z.to_nat ((h - d) mod 6)) POSICIONES "BTN".
Proof.
  intros Hd. unfold inferir_posicion_hero.
  destruct (Z.ltb_spec d 0) as [L | _]; [lia |].
  pose proof (Z.mod_pos_bound (h - d) 6 ltac:(lia)) as B.
  assert (M : (h - d) mod 6 = 0 \/ (h - d) mod 6 = 1 \/ (h - d) mod 6 = 2 \/
              (h - d) mod 6 = 3 \/ (h - d) mod 6 = 4 \/ (h - d) mod 6 = 5)
    by lia.
  destruct M as [-> | [-> | [-> | [-> | [-> | ->]]]]]; reflexivity.
Qed.

Lemma posicion_valida (dealer hero : option Z) :
  In (inferir_posicion_hero dealer hero) POSICIONES.
Proof.
  unfold inferir_posicion_hero.
  destruct (_ <? 0)%Z; [now left |].
  match goal with |- context [?a mod 6] =>
    pose proof (Z.mod_pos_bound a 6 ltac:(lia)) as B;
    assert (M : a mod 6 = 0 \/ a mod 6 = 1 \/ a mod 6 = 2 \/
                a mod 6 = 3 \/ a mod 6 = 4 \/ a mod 6 = 5) by lia;
    destruct M as [-> | [-> | [-> | [-> | [-> | ->]]]]]
  end; unfold POSICIONES; simpl; auto 10.
Qed.

(** X17. The hero's position is always one of the six names.  Without a
    dealer seat (absent or negative) it is the button; otherwise it is
    read off the distance from the dealer to the hero modulo 6 (hero
    seat 5 when the layout names none), so it is the button on the
    dealer's seat, the small and big blind on the next two, and it does
    not change when the dealer index moves by a multiple of 6. *)
Theorem posicion_del_hero (dealer hero : option Z) :
  In (inferir_posicion_hero dealer hero) POSICIONES /\
  (forall d, d < 0 ->
     inferir_posicion_hero (Some d) hero = "BTN"%string) /\
  inferir_posicion_hero None hero = "BTN"%string /\
  (forall d h, 0 <= d ->
     inferir_posicion_hero (Some d) (Some h) =
     nth (Z.to_nat ((h - d) mod 6)) POSICIONES "BTN"%string) /\
  (forall d, 0 <= d ->
     inferir_posicion_hero (Some d) None =
     inferir_posicion_hero (Some d) (Some 5)) /\
  (forall d h k, 0 <= d -> 0 <= d + 6 * k ->
     inferir_posicion_hero (Some (d + 6 * k)) (Some h) =
     inferir_posicion_hero (Some d) (Some h)) /\
  (forall d, 0 <= d ->
     inferir_posicion_hero (Some d) (Some d) = "BTN"%string /\
     inferir_posicion_hero (Some d) (Some (d + 1)) = "SB"%string /\
     inferir_posicion_hero (Some d) (Some (d + 2)) = "BB"%string).
Proof.
  split; [apply posicion_valida |]. split; [| split; [reflexivity |]].
  - intros d L. unfold inferir_posicion_hero.
    destruct (Z.ltb_spec d 0); [reflexivity | lia].
  - split; [apply posicion_por_distancia |]. split; [reflexivity |]. split.
    + intros d h k Hd Hk. rewrite !posicion_por_distancia by assumption.
      replace (h - (d + 6 * k)) with (h - d + (- k) * 6) by lia.
      rewrite Z.mod_add by lia. reflexivity.
    + intros d Hd. rewrite !posicion_por_distancia by assumption.
      replace (d - d) with 0 by lia.
      replace (d + 1 - d) with 1 by lia.
      replace (d + 2 - d) with 2 by lia. repeat split.
Qed.

End DecisionFacts.

(* ================================================================== *)
(** * _inferir_formato_geometrico: the test points and the matches *)
(* ================================================================== *)

Module ClassifierMore.

Import PyFloat Classifier Props FloatFacts ClassifierFacts.
Local Open Scope Z_scope.
Local Open Scope float_scope.

Lemma near_hero_HERO : near_hero HERO = true.
Proof. vm_compute. reflexivity. Qed.

Lemma puntos_test_hero (pts : list Point) :
  existsb near_hero (puntos_test pts) = true.
Proof.
  unfold puntos_test. destruct (existsb near_hero pts) eqn:E; [exact E |].
  rewrite existsb_app. cbn [existsb]. rewrite near_hero_HERO.
  rewrite orb_true_r. reflexivity.
Qed.

Lemma py_min_fold (rest : list float) :
  forall m,
    let r := fold_left (fun m y => if y <? m then y else m) rest m in
    (r = m \/ In r rest) /\ no_mayor r m /\
    forall y, In y rest -> (y <? r) = false.
Proof.
  induction rest as [| x rest IH]; intros m; cbn [fold_left].
  - split; [now left |]. split; [now right | intros ? []].
  - destruct (x <? m) eqn:E.
    + destruct (IH x) as (I & N & L). cbv zeta in I, N, L |- *.
      split; [right; destruct I as [-> | I]; [now left | now right] |].
      split; [exact (no_mayor_trans N (or_introl E)) |].
      intros y [<- | Hy]; [| now apply L].
      destruct N as [N | ->]; [exact (ltb_asym N) | apply ltb_irrefl].
    + destruct (IH m) as (I & N & L). cbv zeta in I, N, L |- *.
      split; [destruct I as [-> | I]; [now left | right; now right] |].
      split; [exact N |].
      intros y [<- | Hy]; [| now apply L].
      exact (no_mayor_ltb_false N E).
Qed.

Lemma py_min_spec (xs : list float) (dflt : float) :
  xs <> [] ->
  In (py_min xs dflt) xs /\
  forall y, In y xs -> (y <? py_min xs dflt) = false.
Proof.
  destruct xs as [| x rest]; [congruence |]. intros _. unfold py_min.
  destruct (py_min_fold rest x) as (I & N & L). cbv zeta in I, N, L.
  split; [destruct I as [-> | I]; [now left | now right] |].
  intros y [<- | Hy]; [| now apply L].
  destruct N as [N | ->]; [exact (ltb_asym N) | apply ltb_irrefl].
Qed.

Lemma fit_cota (layout pts : list Point) :
  forall acc,
    (snd acc <= snd (fold_left (fit_step layout) pts acc)
     <= snd acc + Z.of_nat (List.length pts))%Z.
Proof.
  induction pts as [| p pts IH]; intros acc; cbn [fold_left List.length].
  - lia.
  - specialize (IH (fit_step layout acc p)). rewrite Nat2Z.inj_succ.
    assert (S : (snd acc <= snd (fit_step layout acc p) <= snd acc + 1)%Z).
    { unfold fit_step. destruct (_ <? 0.15); simpl; lia. }
    lia.
Qed.

Local Open Scope Z_scope.

(** X18. The test points of the classifier always hold a point near the
    hero position: they are the input as it is when it has such a point,
    and the input followed by the hero position when it has none;
    adding it twice changes nothing. *)
Theorem punto_hero_presente (pts : list Point) :
  existsb near_hero (puntos_test pts) = true /\
  puntos_test (puntos_test pts) = puntos_test pts /\
  (existsb near_hero pts = true -> puntos_test pts = pts) /\
  (existsb near_hero pts = false -> puntos_test pts = pts ++ [HERO]) /\
  (exists extra, puntos_test pts = pts ++ extra /\
                 (extra = [] \/ extra = [HERO])) /\
  puntos_test pts <> [].
Proof.
  pose proof (puntos_test_hero pts) as H.
  split; [exact H |]. split; [| split; [| split; [| split]]].
  - unfold puntos_test at 1. rewrite H. reflexivity.
  - intros E. unfold puntos_test. rewrite E. reflexivity.
  - intros E. unfold puntos_test. rewrite E. reflexivity.
  - unfold puntos_test. destruct (existsb near_hero pts).
    + exists []. rewrite app_nil_r. auto.
    + exists [HERO]. auto.
  - intros E. rewrite E in H. discriminate.
Qed.

(** X19. A layout matches between 0 and all of the test points, so the
    number of unexplained points is never negative; and the distance
    from a point to a layout is the distance to one of its seats, with
    no seat strictly nearer. *)
Theorem puntos_casados_cota (layout pts : list Point) :
  (0 <= matches layout pts <= Z.of_nat (List.length pts)) /\
  (layout <> [] ->
   forall p,
     (exists l, In l layout /\
                min_d layout p =
                hypot (fst p - fst l)%float (snd p - snd l)%float) /\
     (forall l, In l layout ->
        (hypot (fst p - fst l) (snd p - snd l) <? min_d layout p)%float
        = false)).
Proof.
  split.
  - unfold matches, fit.
    pose proof (fit_cota layout pts (0.0%float, 0)) as H. simpl in H.
    simpl. lia.
  - intros N p. unfold min_d.
    set (ds := map (fun l => hypot (fst p - fst l)%float
                                (snd p - snd l)%float) layout).
    assert (Nd : ds <> []) by (subst ds; destruct layout; [congruence |
                                                           discriminate]).
    destruct (py_min_spec ds inf Nd) as [I L]. split.
    + apply in_map_iff in I. destruct I as [l [E I]]. exists l.
      split; [exact I | now symmetry].
    + intros l Il. apply L. subst ds. apply in_map_iff. now exists l.
Qed.

End ClassifierMore.

(* ================================================================== *)
(** * Runs of the two stages *)
(* ================================================================== *)

Module SystemFacts.

Import PyFloat PyList CardDetector Orchestrator Ejemplos Casos Nociones.
Import BufferFacts FloatFacts StabilizerFacts ConsolidationFacts.
Import CollectFacts GroupingFacts RegistryMore SizerFacts ProcessFacts.
Local Open Scope Z_scope.

Lemma sizer_sin_frame (self : TableSizer.Plugin) (state : State) :
  st_frame state = None ->
  TableSizer.process self state = TableSizer.Returns (self, state).
Proof. intros F. unfold TableSizer.process. rewrite F. reflexivity. Qed.

Lemma sistema_ok_avanzar (s : Sistema) (e : Evento) :
  sistema_ok s -> sistema_ok (avanzar s e).
Proof.
  intros [E M]. destruct e as [frame dets | | clk]; cbn [avanzar].
  - split; [exact E | exact M].
  - destruct (TableSizer.process (sizer s) (estado s)) as [[p st'] |] eqn:R;
      [| split; [exact E | exact M]].
    destruct (st_frame (estado s)) as [[h w] |] eqn:F.
    + destruct (sizer_process_Returns _ _ _ _ _ _ F R)
        as (count & niveles & C & N & Hc & Hl & G & _ & _ & _ & Cs & Ts & _).
      destruct E as (A & P & S & R1 & R2 & K).
      destruct M as (M1 & M2 & M3 & M4 & M5).
      assert (Fc : Forall (fun n => 2 <= n) (TableSizer.history_count p)).
      { rewrite Hc. apply deque_append_Forall; [exact M4 | lia]. }
      split.
      * unfold estado_ok. cbn [estado]. rewrite G, Cs, Ts.
        cbn [gs_active_players gs_players_in_hand gs_street
             gs_raw_stacks_count gs_raw_levels].
        split; [| split; [exact P | split; [exact S | split; [| split]]]].
        -- intros a Ea. injection Ea as <-.
           assert (Nv : TableSizer.history_count p <> []).
           { rewrite Hc. intros Z0.
             pose proof (deque_append_no_vacio 15
                           (TableSizer.history_count (sizer s)) count
                           ltac:(lia)) as I.
             rewrite Z0 in I. destruct I. }
           destruct (most_common_Z _ 0 Nv) as [I _].
           exact (proj1 (Forall_forall _ _) Fc _ I).
        -- intros a Ea. injection Ea as <-. lia.
        -- intros a Ea. injection Ea as <-. lia.
        -- exact K.
      * unfold memoria_ok. cbn [sizer detector]. rewrite Hc, Hl.
        rewrite !deque_append_length.
        split; [exact M1 |]. split; [lia |]. split; [lia |].
        split; [rewrite <- Hc; exact Fc |].
        apply deque_append_Forall; [exact M5 | lia].
    + rewrite (sizer_sin_frame _ _ F) in R. injection R as <- <-.
      split; [exact E | exact M].
  - split.
    + cbn [estado]. now apply detector_estado_ok.
    + destruct M as (M1 & M2). split; [| exact M2].
      cbn [detector]. rewrite process_fst.
      destruct (st_frame (estado s)) as [[alto ancho] |]; [| exact M1].
      rewrite paso_historia. unfold historial.
      rewrite deque_append_length. lia.
Qed.

Lemma sistema_ok_inicial : sistema_ok inicial.
Proof.
  split.
  - unfold estado_ok, al_menos. simpl.
    repeat split; intros; discriminate.
  - unfold memoria_ok. simpl. repeat split; auto; lia.
Qed.

Lemma cartas_ok_avanzar (s : Sistema) (e : Evento) :
  cartas_ok s -> cartas_ok (avanzar s e).
Proof.
  intros (H & Hm & Hb & Ho). destruct e as [frame dets | | clk];
    cbn [avanzar].
  - split; [exact H |]. split; [exact Hm |]. split; [exact Hb | exact Ho].
  - destruct (TableSizer.process (sizer s) (estado s)) as [[p st'] |] eqn:R;
      [| split; [exact H |]; split; [exact Hm |]; split;
         [exact Hb | exact Ho]].
    destruct (st_frame (estado s)) as [[h w] |] eqn:F.
    + destruct (sizer_process_Returns _ _ _ _ _ _ F R)
        as (count & niveles & _ & _ & _ & _ & G & _).
      unfold cartas_ok. cbn [estado detector]. rewrite G.
      cbn [gs_my_cards gs_board gs_opponents_cards].
      split; [exact H |]. split; [exact Hm |]. split; [exact Hb | exact Ho].
    + rewrite (sizer_sin_frame _ _ F) in R. injection R as <- <-.
      split; [exact H |]. split; [exact Hm |]. split; [exact Hb | exact Ho].
  - unfold cartas_ok. cbn [estado detector]. rewrite process_fst.
    unfold process.
    destruct (st_frame (estado s)) as [[alto ancho] |];
      [| split; [exact H |]; split; [exact Hm |]; split;
         [exact Hb | exact Ho]].
    cbn [snd st_game_state gs_my_cards gs_board gs_opponents_cards].
    rewrite paso_historia.
    pose proof (historial_de_cartas (detector s) alto ancho
                  (st_detections (estado s)) H) as H'.
    destruct (paso_vistos (detector s) alto ancho
                (st_detections (estado s)) clk) as (V1 & V2 & V3).
    split; [exact H' |]. split; [| split].
    + intros cs c E I. injection E as <-. destruct (V1 c I) as [V N].
      split; [exact (visto_carta _ _ _ H' V) | exact N].
    + intros cs c E I. injection E as <-. destruct (V2 c I) as [V N].
      split; [exact (visto_carta _ _ _ H' V) | exact N].
    + intros gr g c E Ig Ic. injection E as <-.
      exact (visto_carta _ _ _ H' (V3 g c Ig Ic)).
Qed.

Lemma cartas_ok_inicial : cartas_ok inicial.
Proof.
  unfold cartas_ok. simpl. split; [intros ? ? [] |].
  repeat split; intros; discriminate.
Qed.

Lemma avanzar_hero_activo (s : Sistema) (e : Evento) :
  st_hero_active (estado s) = true ->
  st_hero_active (estado (avanzar s e)) = true.
Proof.
  intros H. destruct e as [frame dets | | clk]; cbn [avanzar].
  - exact H.
  - destruct (TableSizer.process (sizer s) (estado s)) as [[p st'] |] eqn:R;
      [| exact H].
    destruct (st_frame (estado s)) as [[h w] |] eqn:F.
    + destruct (sizer_process_Returns _ _ _ _ _ _ F R)
        as (count & niveles & _ & _ & _ & _ & _ & _ & _ & Ha & _).
      cbn [estado]. rewrite Ha. exact H.
    + rewrite (sizer_sin_frame _ _ F) in R. injection R as <- <-. exact H.
  - cbn [estado]. now apply process_hero_activo.
Qed.

(** X20. Whatever the detections, over any run of the two stages from a
    state where this holds (the initial one is such): every buffered
    entry and every card published carries a label of [CARD_LABELS], and
    the hero's and the board's cards are never the face-down label. *)
Theorem solo_cartas_publicadas (s : Sistema) (eventos : list Evento) :
  cartas_ok s -> cartas_ok (fold_left avanzar eventos s).
Proof.
  revert s. induction eventos as [| e eventos IH]; intros s H; simpl;
    [exact H |].
  apply IH. now apply cartas_ok_avanzar.
Qed.

Lemma solo_cartas_publicadas_witness :
  cartas_ok (fold_left avanzar (ticks_ejemplo 2) inicial).
Proof.
  apply (solo_cartas_publicadas inicial (ticks_ejemplo 2)).
  unfold cartas_ok. simpl. split; [intros ? ? [] |].
  repeat split; intros; discriminate.
Defined.

(** X21. Over any run of the two stages from a state where this holds
    (the initial one is such): [active_players] and the raw
    stack count published are at least 2, [players_in_hand] and the raw
    levels are not negative, the street is one of the four streets, the
    confirmed seats are between 0 and the seats tracked, the detection
    buffer holds at most 6 frames and the sizer's two histories at most
    15 entries each, all counts of the history at least 2. *)
Theorem invariante_del_sistema (s : Sistema) (eventos : list Evento) :
  sistema_ok s -> sistema_ok (fold_left avanzar eventos s).
Proof.
  revert s. induction eventos as [| e eventos IH]; intros s H; simpl;
    [exact H |].
  apply IH. now apply sistema_ok_avanzar.
Qed.

Lemma invariante_del_sistema_witness :
  sistema_ok (fold_left avanzar (ticks_ejemplo 2) inicial).
Proof.
  apply (invariante_del_sistema inicial (ticks_ejemplo 2)).
  split.
  - unfold estado_ok, al_menos. simpl. repeat split; intros; discriminate.
  - unfold memoria_ok. simpl. repeat split; auto; lia.
Defined.

(** X22. One tick on a frame, the table sizer first and the card
    detector after it, as the load order has them: the count the sizer
    publishes is one of its history, and the [active_players] the tick
    ends with is the largest of 2, [players_in_hand], that count and
    the confirmed opponent seats plus one for a visible hero. *)
Theorem tick_jugadores_activos (s : Sistema) (clk : Clock) (h w : Z)
  (p : TableSizer.Plugin) (st1 : State) :
  st_frame (estado s) = Some (h, w) ->
  TableSizer.process (sizer s) (estado s) = TableSizer.Returns (p, st1) ->
  let s2 := avanzar (avanzar s EtapaSizer) (EtapaDetector clk) in
  let r := paso (detector s) h w (st_detections (estado s)) clk in
  let hay_hero := if (0 <? List.length (hero_valid r))%nat then 1 else 0 in
  exists m pih,
    gs_active_players (st_game_state st1) = Some m /\
    In m (TableSizer.history_count p) /\
    sizer s2 = p /\
    gs_players_in_hand (st_game_state (estado s2)) = Some pih /\
    gs_active_players (st_game_state (estado s2)) =
      Some (Z.max 2 (Z.max pih
                       (Z.max m (confirmed_opponents_seats r + hay_hero)))) /\
    gs_raw_stacks_count (st_game_state (estado s2)) =
      gs_raw_stacks_count (st_game_state st1).
Proof.
  intros F R s2 r hh.
  destruct (sizer_process_Returns _ _ _ _ _ _ F R)
    as (count & niveles & C & _ & Hc & _ & G & Ef & Ed & _).
  set (m := most_common Z.eqb (TableSizer.history_count p) 0).
  assert (Em : gs_active_players (st_game_state st1) = Some m).
  { rewrite G. reflexivity. }
  assert (Im : In m (TableSizer.history_count p)).
  { apply most_common_Z. rewrite Hc. intros Z0.
    pose proof (deque_append_no_vacio 15 (TableSizer.history_count (sizer s))
                  count ltac:(lia)) as I.
    rewrite Z0 in I. destruct I. }
  assert (E2 : s2 = avanzar (mkSistema p (detector s) st1)
                      (EtapaDetector clk)).
  { subst s2. cbn [avanzar]. rewrite R. reflexivity. }
  rewrite F in Ef.
  destruct (detector_conteo (detector s) st1 clk h w Ef)
    as (a & pih & Ea & Ep & Fa & _).
  rewrite Ed in Fa. rewrite Em in Fa. fold r in Fa. fold hh in Fa.
  exists m, pih. split; [exact Em |]. split; [exact Im |].
  rewrite E2. cbn [avanzar sizer estado detector].
  split; [reflexivity |]. split; [exact Ep |]. split.
  - rewrite Ea. f_equal. exact Fa.
  - apply process_crudos.
Qed.

Lemma tick_jugadores_activos_witness :
  let s2 :=
    avanzar (avanzar sistema_ejemplo EtapaSizer) (EtapaDetector reloj_fijo) in
  let r :=
    paso (detector sistema_ejemplo) 1080 1920
      (st_detections (estado sistema_ejemplo)) reloj_fijo in
  let hay_hero := if (0 <? List.length (hero_valid r))%nat then 1 else 0 in
  exists m pih,
    gs_active_players (st_game_state (snd sizer_ejemplo)) = Some m /\
    In m (TableSizer.history_count (fst sizer_ejemplo)) /\
    sizer s2 = fst sizer_ejemplo /\
    gs_players_in_hand (st_game_state (estado s2)) = Some pih /\
    gs_active_players (st_game_state (estado s2)) =
      Some (Z.max 2 (Z.max pih
                       (Z.max m (confirmed_opponents_seats r + hay_hero)))) /\
    gs_raw_stacks_count (st_game_state (estado s2)) =
      gs_raw_stacks_count (st_game_state (snd sizer_ejemplo)).
Proof.
  apply (tick_jugadores_activos sistema_ejemplo reloj_fijo 1080 1920
           (fst sizer_ejemplo) (snd sizer_ejemplo)).
  - reflexivity.
  - vm_compute. reflexivity.
Defined.


(** X24. The sticky hero.  No run of the two stages clears
    [hero_active] once it is set.  A call on a frame that publishes two
    hero cards sets it and records the time; a call that publishes fewer
    keeps the recorded time, and [hero_active] is then set when that
    time is less than 3 s old and otherwise left as it was. *)
Theorem hero_activo_permanece :
  (forall s eventos,
     st_hero_active (estado s) = true ->
     st_hero_active (estado (fold_left avanzar eventos s)) = true) /\
  (forall self state clk alto ancho,
     st_frame state = Some (alto, ancho) ->
     let r := paso self alto ancho (st_detections state) clk in
     let self' := fst (process self state clk) in
     let state' := snd (process self state clk) in
     ((2 <= List.length (hero_valid r))%nat ->
      st_hero_active state' = true /\
      last_hero_seen_time self' = t_hero clk) /\
     ((List.length (hero_valid r) < 2)%nat ->
      last_hero_seen_time self' = last_hero_seen_time self /\
      st_hero_active state' =
        ((t_hero clk - last_hero_seen_time self <? 3.0)%float
         || st_hero_active state))).
Proof.
  split.
  - intros s eventos. revert s.
    induction eventos as [| e eventos IH]; intros s H; simpl; [exact H |].
    apply IH. now apply avanzar_hero_activo.
  - intros self state clk alto ancho F r self' state'.
    subst self' state'. rewrite process_fst. unfold process. rewrite F.
    cbn [snd st_hero_active]. rewrite length_map. fold r.
    assert (T : last_hero_seen_time (self_out r) =
                if (2 <=? List.length (hero_valid r))%nat then t_hero clk
                else last_hero_seen_time self).
    { unfold r, paso. cbn [self_out hero_valid].
      rewrite gestionar_asientos_hero. reflexivity. }
    rewrite T. split.
    + intros L. apply Nat.leb_le in L. rewrite L. split; reflexivity.
    + intros L. apply Nat.leb_gt in L. rewrite L. split; [reflexivity |].
      destruct (_ <? 3.0)%float; reflexivity.
Qed.

End SystemFacts.
